(** * opm-models: a shallow embedding of the problem, volume-variables and
      output layers

    The development follows the layering of the repository:

    - [MultiPhaseBaseProblem]   ewoms/models/common/multiphasebaseproblem.hh
    - [FlashVolumeVariables]    ewoms/models/flash/flashvolumevariables.hh
    - [InjectionProblem], [InjectionSoil]   test/twophase/injectionproblem.hh
    - [VtkBlackOilModule]       ewoms/io/vtkblackoilmodule.hh
    - [Stokes2cniModel]         dumux/freeflow/stokes2cni/stokes2cnimodel.hh

    Conventions.  [Scalar] is the C++ [double]: an IEEE 754 binary64 number,
    the kernel's primitive [float], so every arithmetic expression of the
    source is evaluated with the source's rounding and its association.  A
    [Dune::FieldVector] or a C array is a [list]; reading or writing it at an
    index outside its bounds has no defined behaviour in C++ and is the
    outcome [Undefined].  A C++ exception is the outcome [Throw].  Template
    parameters and the classes the headers only use (flash solver, fluid
    system, material law, energy, diffusion and velocity modules, grid and
    volume variables of the Stokes model) are fields of a class per header
    or Section variables. *)

From Stdlib Require Import ZArith List String.
From Stdlib Require Import Floats.PrimFloat.
From stdpp Require Import base tactics option list strings gmap.

Set Warnings "-inexact-float".
#[local] Open Scope Z_scope.
#[local] Open Scope list_scope.

(* ===================================================================== *)
(** * C++ values, exceptions and outcomes                                 *)
(* ===================================================================== *)

Module Cxx.

(** The C++ [double]. *)
Definition Scalar : Type := float.

(** Exception classes of <stdexcept>. *)
Variant exception_class : Set :=
| std_logic_error
| std_runtime_error
| std_invalid_argument.

Record exception : Type := Exception {
  exc_class : exception_class;
  exc_what : string
}.

(** What running a piece of C++ code comes to. *)
Inductive outcome (A : Type) : Type :=
| Ok (a : A)            (* normal return *)
| Throw (e : exception) (* an exception leaves the function *)
| Undefined.            (* out-of-bounds access: nothing is defined *)
Arguments Ok {A} a.
Arguments Throw {A} e.
Arguments Undefined {A}.

#[global] Instance outcome_ret : MRet outcome := @Ok.
#[global] Instance outcome_bind : MBind outcome := fun A B f m =>
  match m with
  | Ok a => f a
  | Throw e => Throw e
  | Undefined => Undefined
  end.
#[global] Instance outcome_fmap : FMap outcome := fun A B f m =>
  match m with
  | Ok a => Ok (f a)
  | Throw e => Throw e
  | Undefined => Undefined
  end.

Definition is_Ok {A} (m : outcome A) : bool :=
  match m with Ok _ => true | _ => false end.

(** The code throws an exception of class [cls]. *)
Definition throws {A} (cls : exception_class) (m : outcome A) : Prop :=
  exists what, m = Throw (Exception cls what).

(** [OPM_THROW(Exception, message)]: the macro of opm-common.  It throws
    an [Exception] built from [message]; the file and line it puts in front
    of the message are not modelled. *)
Definition OPM_THROW {A} (cls : exception_class) (message : string) : outcome A :=
  Throw (Exception cls message).

(** [v[i]] for an [int] index: defined inside the bounds only. *)
Definition at_ {A} (v : list A) (i : Z) : outcome A :=
  if decide (0 <= i) then
    match v !! Z.to_nat i with
    | Some a => Ok a
    | None => Undefined
    end
  else Undefined.

(** [v[i] = a] for an [int] index. *)
Definition store {A} (v : list A) (i : Z) (a : A) : outcome (list A) :=
  if decide (0 <= i < Z.of_nat (length v)) then Ok (<[Z.to_nat i := a]> v)
  else Undefined.

(** Code that runs on a mutable object of type [S].  The object keeps what
    was written to it before an exception left the code. *)
Definition stateful (S A : Type) : Type := S -> outcome A * S.

#[global] Instance stateful_ret {S} : MRet (stateful S) := fun A a s => (Ok a, s).
#[global] Instance stateful_bind {S} : MBind (stateful S) := fun A B f m s =>
  match m s with
  | (Ok a, s') => f a s'
  | (Throw e, s') => (Throw e, s')
  | (Undefined, s') => (Undefined, s')
  end.

Definition get {S} : stateful S S := fun s => (Ok s, s).
Definition put {S} (s : S) : stateful S unit := fun _ => (Ok tt, s).
Definition modify {S} (f : S -> S) : stateful S unit := fun s => (Ok tt, f s).
Definition lift {S A} (m : outcome A) : stateful S A := fun s => (m, s).

(** [for (int i = 0; i < n; ++i) body] *)
Definition for_ {S} (n : nat) (body : nat -> stateful S unit) : stateful S unit :=
  fold_right (fun i rest => body i;; rest) (mret tt) (seq 0 n).

(** A range-based loop, or a loop over an iterator range, whose body may
    fail: the state after the last element, or the first failure. *)
Fixpoint for_each {A S} (l : list A) (body : A -> S -> outcome S) (s : S) : outcome S :=
  match l with
  | [] => Ok s
  | a :: l' => s' ← body a s; for_each l' body s'
  end.

(** [if (c) body] *)
Definition when {S} (c : bool) (body : stateful S unit) : stateful S unit :=
  if c then body else mret tt.

(** The code [m] leaves the part [proj] of its object as it is, however it
    ends. *)
Definition preserves {S A B} (proj : S -> B) (m : stateful S A) : Prop :=
  forall s, proj (snd (m s)) = proj s.

(** However the code [m] ends, the object it leaves is related by [R] to
    the object it started on. *)
Definition keeps {S A} (R : S -> S -> Prop) (m : stateful S A) : Prop :=
  forall s, R s (snd (m s)).

(** [std::min] and [std::max] of <algorithm>, on doubles. *)
Definition std_min (a b : Scalar) : Scalar := if (b <? a)%float then b else a.
Definition std_max (a b : Scalar) : Scalar := if (a <? b)%float then b else a.

(** [Dune::FieldVector<Scalar, n>] and [Dune::FieldMatrix<Scalar, n, n>]. *)
Abbreviation FieldVector := (list Scalar) (only parsing).
Abbreviation FieldMatrix := (list (list Scalar)) (only parsing).

(** [v = c]: the assignment of a scalar to a vector sets every component. *)
Definition assign_scalar (v : FieldVector) (c : Scalar) : FieldVector :=
  (fun _ => c) <$> v.

(** [m = c] for a matrix. *)
Definition assign_scalar_matrix (m : FieldMatrix) (c : Scalar) : FieldMatrix :=
  (fun row => assign_scalar row c) <$> m.

(** [m[i][j] = a] for indices the enclosing loop keeps inside the bounds. *)
Definition set_entry (m : FieldMatrix) (i j : nat) (a : Scalar) : FieldMatrix :=
  alter (fun row => <[j := a]> row) i m.

(** [m[i][j]] and [m[i][j] = a] for [int] indices. *)
Definition at2 (m : FieldMatrix) (i j : Z) : outcome Scalar :=
  row ← at_ m i; at_ row j.
Definition store2 (m : FieldMatrix) (i j : Z) (a : Scalar) : outcome FieldMatrix :=
  row ← at_ m i; row' ← store row j a; store m i row'.

(** The entry [m[i][j]] where the matrix has one. *)
Definition entry (m : FieldMatrix) (i j : nat) : option Scalar :=
  row ← m !! i; row !! j.

(** A list of lists is an [n] by [n] matrix. *)
Definition square (n : nat) (m : FieldMatrix) : Prop :=
  length m = n /\ Forall (fun row => length row = n) m.

(** A [FieldVector<Scalar, n>] and a [FieldMatrix<Scalar, n, n>] that were
    declared and not initialised: the size is that of the type, the entries
    are whatever the memory held ([junk]). *)
Definition indeterminate_vector (n : nat) (junk : nat -> Scalar) : FieldVector :=
  junk <$> seq 0 n.
Definition indeterminate_matrix (n : nat) (junk : nat -> nat -> Scalar) : FieldMatrix :=
  (fun i => junk i <$> seq 0 n) <$> seq 0 n.

(** The matrix the loop [for (i = 0; i < n; i++) m[i][i] = val] has built
    after [k] rounds, from the zero matrix. *)
Definition diagonal_upto (n k : nat) (val : Scalar) : FieldMatrix :=
  (fun i => (fun j => if decide (i = j /\ (i < k)%nat) then val else 0%float) <$> seq 0 n)
    <$> seq 0 n.

(** The tensor with [val] on the diagonal and zero elsewhere. *)
Definition isotropic (n : nat) (val : Scalar) : FieldMatrix :=
  (fun i => (fun j => if decide (i = j) then val else 0%float) <$> seq 0 n)
    <$> seq 0 n.

End Cxx.
Import Cxx.

(* ===================================================================== *)
(** * ewoms/models/common/multiphasebaseproblem.hh                        *)
(* ===================================================================== *)

Module MultiPhaseBaseProblem.

(** The properties of the [TypeTag] the class reads, and what it uses of the
    classes behind them. *)
Class TypeTag : Type := {
  (** The [Context] template parameter of the accessors. *)
  Context_ : Type;
  (** [GET_PROP_TYPE(TypeTag, Evaluation)] with [MathToolbox::value]. *)
  Evaluation : Type;
  Toolbox_value : Evaluation -> Scalar;
  (** [GET_PROP_TYPE(TypeTag, MaterialLaw)::Params], default constructor. *)
  MaterialLawParams : Type;
  MaterialLawParams_default : MaterialLawParams;
  HeatConductionLawParams : Type;
  (** The state of the parent class [FvBaseProblem<TypeTag>]. *)
  FvBaseProblem : Type;
  (** [GridView::dimensionworld] and [GET_PROP_VALUE(TypeTag, NumPhases)]. *)
  dimWorld : nat;
  numPhases : nat;
  (** [EWOMS_GET_PARAM(TypeTag, bool, EnableGravity)]. *)
  EnableGravity : bool
}.

(** A grid element, as far as [markForGridAdaptation] looks at it. *)
Record Element : Type := {
  elementIndex : nat;
  level : Z
}.

(** The grid behind [simulator().gridManager()]: the interior elements in
    iteration order and the adaptation mark of each element. *)
Record Grid : Type := {
  interiorElements : list Element;
  marks : gmap nat Z
}.

(** [grid.mark(refCount, element)] *)
Definition mark (refCount : Z) (element : Element) (grid : Grid) : Grid :=
  {| interiorElements := interiorElements grid;
     marks := <[elementIndex element := refCount]> (marks grid) |}.

Abbreviation DimVector := FieldVector (only parsing).
Abbreviation DimMatrix := FieldMatrix (only parsing).

Section Problem.
Context `{TypeTag}.

(** What an [ElementContext] shows of an element after [updateAll], and the
    collective communication of the grid. *)
Record Simulator : Type := {
  numDof : Element -> nat;
  saturation : Element -> nat -> nat -> Evaluation;
  comm_sum : Z -> Z
}.

(** The object: the parent's part and the one data member. *)
Record t : Type := {
  parent : FvBaseProblem;
  gravity_ : DimVector
}.

(** The member functions that the class calls through [asImp_()], i.e. on
    the [Implementation]: a derived problem that declares one of them hides
    the definition of this class. *)
Record Implementation : Type := {
  impl_intrinsicPermeability : Context_ -> Z -> Z -> outcome DimMatrix;
  impl_temperature : outcome Scalar;
  impl_gravity : t -> DimVector
}.

(** ** The accessors as this class defines them *)

Definition intrinsicPermeability (context : Context_) (spaceIdx timeIdx : Z)
  : outcome DimMatrix :=
  OPM_THROW std_logic_error "Not implemented: Problem::intrinsicPermeability()".

Definition porosity (context : Context_) (spaceIdx timeIdx : Z) : outcome Scalar :=
  OPM_THROW std_logic_error "Not implemented: Problem::porosity()".

Definition heatCapacitySolid (context : Context_) (spaceIdx timeIdx : Z)
  : outcome Scalar :=
  OPM_THROW std_logic_error "Not implemented: Problem::heatCapacitySolid()".

Definition heatConductionParams (context : Context_) (spaceIdx timeIdx : Z)
  : outcome HeatConductionLawParams :=
  OPM_THROW std_logic_error "Not implemented: Problem::heatConductionParams()".

Definition tortuosity (context : Context_) (spaceIdx timeIdx : Z) : outcome Scalar :=
  OPM_THROW std_logic_error "Not implemented: Problem::tortuosity()".

Definition dispersivity (context : Context_) (spaceIdx timeIdx : Z) : outcome Scalar :=
  OPM_THROW std_logic_error "Not implemented: Problem::dispersivity()".

(** [static MaterialLawParams dummy;] the function-local static object. *)
Definition dummy : MaterialLawParams := MaterialLawParams_default.

Definition materialLawParams (context : Context_) (spaceIdx timeIdx : Z)
  : outcome MaterialLawParams :=
  Ok dummy.

(** [temperature()] *)
Definition temperature : outcome Scalar :=
  OPM_THROW std_logic_error
    "Not implemented:temperature() method not implemented by the actual problem".

(** [temperature(context, spaceIdx, timeIdx)] *)
Definition temperature_at (asImp_ : Implementation)
    (context : Context_) (spaceIdx timeIdx : Z) : outcome Scalar :=
  impl_temperature asImp_.

(** [gravity()] *)
Definition gravity (this : t) : DimVector := gravity_ this.

(** [gravity(context, spaceIdx, timeIdx)] *)
Definition gravity_at (asImp_ : Implementation) (this : t)
    (context : Context_) (spaceIdx timeIdx : Z) : DimVector :=
  impl_gravity asImp_ this.

(** The [Implementation] of a problem that overrides nothing. *)
Definition not_overridden : Implementation :=
  {| impl_intrinsicPermeability := intrinsicPermeability;
     impl_temperature := temperature;
     impl_gravity := gravity |}.

(** The entry-wise mean of two tensors; [Opm::harmonicMean] of opm-material
    is a parameter. *)
Definition harmonicMeanEntries (harmonicMean : Scalar -> Scalar -> Scalar)
    (K1 K2 : DimMatrix) : DimMatrix :=
  zip_with (zip_with harmonicMean) K1 K2.

(** [intersectionIntrinsicPermeability(result, context, intersectionIdx,
    timeIdx)]: [interiorIndex] and [exteriorIndex] are those of the interior
    face [intersectionIdx] of the stencil; the function is given as the new
    value of the output argument [result]. *)
Definition intersectionIntrinsicPermeability (asImp_ : Implementation)
    (harmonicMean : Scalar -> Scalar -> Scalar) (result : DimMatrix)
    (context : Context_) (interiorIndex exteriorIndex : Z) (timeIdx : Z)
  : outcome DimMatrix :=
  K1 ← impl_intrinsicPermeability asImp_ context interiorIndex timeIdx;
  K2 ← impl_intrinsicPermeability asImp_ context exteriorIndex timeIdx;
  for_each (seq 0 dimWorld)
    (fun i result =>
       for_each (seq 0 dimWorld)
         (fun j result =>
            k1 ← at2 K1 (Z.of_nat i) (Z.of_nat j);
            k2 ← at2 K2 (Z.of_nat i) (Z.of_nat j);
            store2 result (Z.of_nat i) (Z.of_nat j) (harmonicMean k1 k2))
         result)
    result.

(** [toDimMatrix_(val)] *)
Definition toDimMatrix_ (val : Scalar) : DimMatrix :=
  fold_left (fun ret i => set_entry ret i i val)
    (seq 0 dimWorld)
    (replicate dimWorld (replicate dimWorld 0%float)).

(** ** Construction *)

(** [init_()] *)
Definition init_ (this : t) : outcome t :=
  let gravity_0 := assign_scalar (gravity_ this) 0%float in
  if EnableGravity then
    g ← store gravity_0 (Z.of_nat dimWorld - 1) (-9.81)%float;
    Ok {| parent := parent this; gravity_ := g |}
  else
    Ok {| parent := parent this; gravity_ := gravity_0 |}.

(** [MultiPhaseBaseProblem(simulator)]: the parent is constructed, the
    member [gravity_] is not initialised, then [init_] runs. *)
Definition constructor (parentObject : FvBaseProblem) (junk : nat -> Scalar)
  : outcome t :=
  init_ {| parent := parentObject;
           gravity_ := indeterminate_vector dimWorld junk |}.

(** ** [markForGridAdaptation] *)

(** The loop over the degrees of freedom: the smallest and the largest
    saturation of a phase in an element. *)
Definition saturationRange (sim : Simulator) (element : Element) (phaseIdx : nat)
  : Scalar * Scalar :=
  fold_left
    (fun range dofIdx =>
       let value := Toolbox_value (saturation sim element dofIdx phaseIdx) in
       (std_min (fst range) value, std_max (snd range) value))
    (seq 0 (numDof sim element))
    (1e100, -1e100)%float.

(** The body of the loop over the phases. *)
Definition markPhase (sim : Simulator) (element : Element)
    (st : Z * Grid) (phaseIdx : nat) : Z * Grid :=
  let '(numMarked, grid) := st in
  let '(minSat, maxSat) := saturationRange sim element phaseIdx in
  let indicator :=
    ((maxSat - minSat) / (std_max 0.01 (maxSat + minSat) / 2))%float in
  if (0.2 <? indicator)%float && bool_decide (level element < 2) then
    (numMarked + 1, mark 1 element grid)
  else if (indicator <? 0.025)%float then
    (numMarked + 1, mark (-1) element grid)
  else
    (numMarked, mark 0 element grid).

(** The member function: the object is not written to; the grid is. *)
Definition markForGridAdaptation (sim : Simulator) (this : t) (grid : Grid)
  : Z * t * Grid :=
  let '(numMarked, grid') :=
    fold_left
      (fun st element => fold_left (markPhase sim element) (seq 0 numPhases) st)
      (interiorElements grid)
      (0, grid) in
  (comm_sum sim numMarked, this, grid').

(** What the round for a phase passes to [grid.mark] for the element:
    1 to refine, -1 to coarsen, 0 for neither. *)
Definition markRequest (sim : Simulator) (element : Element) (phaseIdx : nat) : Z :=
  let '(minSat, maxSat) := saturationRange sim element phaseIdx in
  let indicator :=
    ((maxSat - minSat) / (std_max 0.01 (maxSat + minSat) / 2))%float in
  if (0.2 <? indicator)%float && bool_decide (level element < 2) then 1
  else if (indicator <? 0.025)%float then -1
  else 0.

(** The rounds of the two loops, in the order they are run: every interior
    element with every phase. *)
Definition rounds (grid : Grid) : list (Element * nat) :=
  element ← interiorElements grid;
  (fun phaseIdx => (element, phaseIdx)) <$> seq 0 numPhases.

(** ** The public member functions and what each does to the object *)

Variant method : Type :=
| m_intersectionIntrinsicPermeability
    (context : Context_) (interiorIndex exteriorIndex timeIdx : Z)
| m_intrinsicPermeability (context : Context_) (spaceIdx timeIdx : Z)
| m_porosity (context : Context_) (spaceIdx timeIdx : Z)
| m_heatCapacitySolid (context : Context_) (spaceIdx timeIdx : Z)
| m_heatConductionParams (context : Context_) (spaceIdx timeIdx : Z)
| m_tortuosity (context : Context_) (spaceIdx timeIdx : Z)
| m_dispersivity (context : Context_) (spaceIdx timeIdx : Z)
| m_materialLawParams (context : Context_) (spaceIdx timeIdx : Z)
| m_temperature_at (context : Context_) (spaceIdx timeIdx : Z)
| m_temperature
| m_gravity_at (context : Context_) (spaceIdx timeIdx : Z)
| m_gravity
| m_markForGridAdaptation.

(** All member functions but [markForGridAdaptation] are declared [const]
    and the class has no [mutable] member: they read [this].  The static
    [registerParameters] has no object. *)
Definition invoke (sim : Simulator) (m : method) (w : t * Grid) : t * Grid :=
  match m with
  | m_markForGridAdaptation =>
      let '(_, this', grid') := markForGridAdaptation sim (fst w) (snd w) in
      (this', grid')
  | _ => w
  end.

Definition invoke_all (sim : Simulator) (ms : list method) (w : t * Grid) : t * Grid :=
  fold_left (fun w m => invoke sim m w) ms w.

End Problem.
End MultiPhaseBaseProblem.

(* ===================================================================== *)
(** * ewoms/models/flash/flashvolumevariables.hh                          *)
(* ===================================================================== *)

Module FlashVolumeVariables.

(** Modelled from the spec: [Opm::CompositionalFluidState] is declared in
    opm-material, outside these sources.  The spec's data model gives a
    fluid state per-phase pressure, temperature, composition, density,
    viscosity and enthalpy; the saturation is what [markForGridAdaptation]
    reads.  As the calls [temperature(0)] and [setTemperature(T)] of
    [update] show, the phases share one temperature. *)
Record FluidState : Type := {
  temperature_ : Scalar;
  pressure_ : list Scalar;
  saturation_ : list Scalar;
  moleFraction_ : list (list Scalar);
  density_ : list Scalar;
  viscosity_ : list Scalar;
  enthalpy_ : list Scalar
}.

(** [fs.temperature(phaseIdx)] *)
Definition temperature (fs : FluidState) (phaseIdx : Z) : Scalar := temperature_ fs.

(** [fs.viscosity(phaseIdx)] *)
Definition viscosity_of (fs : FluidState) (phaseIdx : Z) : outcome Scalar :=
  at_ (viscosity_ fs) phaseIdx.

(** [fs.setTemperature(T)] *)
Definition setTemperature (fs : FluidState) (T : Scalar) : FluidState :=
  {| temperature_ := T;
     pressure_ := pressure_ fs;
     saturation_ := saturation_ fs;
     moleFraction_ := moleFraction_ fs;
     density_ := density_ fs;
     viscosity_ := viscosity_ fs;
     enthalpy_ := enthalpy_ fs |}.

(** [fs.setViscosity(phaseIdx, mu)] for a phase index of the loop. *)
Definition setViscosity (fs : FluidState) (phaseIdx : nat) (mu : Scalar) : FluidState :=
  {| temperature_ := temperature_ fs;
     pressure_ := pressure_ fs;
     saturation_ := saturation_ fs;
     moleFraction_ := moleFraction_ fs;
     density_ := density_ fs;
     viscosity_ := <[phaseIdx := mu]> (viscosity_ fs);
     enthalpy_ := enthalpy_ fs |}.

(** [fs.assign(other)]: every quantity of [other] is copied. *)
Definition assign (fs other : FluidState) : FluidState := other.

(** The properties of the [TypeTag] the class reads. *)
Class TypeTag : Type := {
  ElementContext : Type;
  Problem : Type;
  (** [GET_PROP_TYPE(TypeTag, MaterialLawParams)] *)
  MaterialLawParams : Type;
  (** [FluidSystem::ParameterCache] and its default constructor. *)
  ParameterCache : Type;
  ParameterCache_default : ParameterCache;
  (** The base classes: [DiscVolumeVariables], the diffusion, energy and
      velocity volume variables. *)
  DiscVolumeVariables : Type;
  DiffusionVolumeVariables : Type;
  EnergyVolumeVariables : Type;
  VelocityVolumeVariables : Type;
  (** [Indices::cTot0Idx], [NumPhases], [NumComponents]. *)
  cTot0Idx : Z;
  numPhases : nat;
  numComponents : nat;
  (** [EWOMS_GET_PARAM(TypeTag, Scalar, FlashTolerance)] *)
  FlashTolerance : Scalar
}.

Abbreviation ComponentVector := FieldVector (only parsing).
Abbreviation DimMatrix := FieldMatrix (only parsing).
Abbreviation PrimaryVariables := (list Scalar) (only parsing).

Section VolumeVariables.
Context `{TypeTag}.

(** The object: the four base-class parts and the private members. *)
Record t : Type := {
  parentType : DiscVolumeVariables;
  diffusionVolumeVariables : DiffusionVolumeVariables;
  energyVolumeVariables : EnergyVolumeVariables;
  velocityVolumeVariables : VelocityVolumeVariables;
  fluidState_ : FluidState;
  porosity_ : Scalar;
  intrinsicPerm_ : DimMatrix;
  relativePermeability_ : list Scalar
}.

(** The classes [update] calls into; their code is in other headers.  An
    argument the callee receives by non-const reference comes back in the
    result.  The accessors of the problem may throw, as those of
    [MultiPhaseBaseProblem] do. *)
Class Collaborators : Type := {
  (** [ElementContext] *)
  primaryVars : ElementContext -> Z -> Z -> PrimaryVariables;
  problem : ElementContext -> Problem;
  (** [elemCtx.model().localJacobian().baseEpsilon()] *)
  baseEpsilon : ElementContext -> Scalar;
  thermodynamicHint : ElementContext -> Z -> Z -> option t;
  (** [Problem] *)
  materialLawParams : Problem -> ElementContext -> Z -> Z -> outcome MaterialLawParams;
  porosity_of : Problem -> ElementContext -> Z -> Z -> outcome Scalar;
  intrinsicPermeability_of : Problem -> ElementContext -> Z -> Z -> outcome DimMatrix;
  (** [ParentType::update] *)
  ParentType_update : DiscVolumeVariables -> ElementContext -> Z -> Z -> DiscVolumeVariables;
  (** [EnergyVolumeVariables] *)
  updateTemperatures_ :
    EnergyVolumeVariables -> FluidState -> ElementContext -> Z -> Z ->
    EnergyVolumeVariables * FluidState;
  Energy_update_ :
    EnergyVolumeVariables -> FluidState -> ParameterCache -> ElementContext -> Z -> Z ->
    EnergyVolumeVariables * FluidState * ParameterCache;
  (** [DiffusionVolumeVariables] *)
  Diffusion_update_ :
    DiffusionVolumeVariables -> FluidState -> ParameterCache -> ElementContext -> Z -> Z ->
    DiffusionVolumeVariables * FluidState * ParameterCache;
  (** [VelocityVolumeVariables] *)
  Velocity_update_ : VelocityVolumeVariables -> ElementContext -> Z -> Z -> VelocityVolumeVariables;
  (** [FlashSolver] *)
  guessInitial : FluidState -> ParameterCache -> ComponentVector -> FluidState * ParameterCache;
  solve :
    FluidState -> ParameterCache -> MaterialLawParams -> ComponentVector -> Scalar ->
    FluidState * ParameterCache;
  (** [FluidSystem::viscosity] *)
  viscosity : FluidState -> ParameterCache -> nat -> Scalar;
  (** [MaterialLaw::relativePermeabilities]: the array is the result. *)
  relativePermeabilities : list Scalar -> MaterialLawParams -> FluidState -> list Scalar
}.

Context `{Collaborators}.

(** The calls that leave [update], in the order they are made, each with the
    arguments that tell what was asked. *)
Variant call : Type :=
| ParentType_update_call (elemCtx : ElementContext) (dofIdx timeIdx : Z)
| updateTemperatures_call (elemCtx : ElementContext) (dofIdx timeIdx : Z)
| guessInitial_call (cTotal : ComponentVector)
| materialLawParams_call (elemCtx : ElementContext) (dofIdx timeIdx : Z)
| solve_call (fluidState : FluidState) (materialParams : MaterialLawParams)
    (cTotal : ComponentVector) (flashTolerance : Scalar)
| viscosity_call (phaseIdx : nat)
| relativePermeabilities_call (materialParams : MaterialLawParams) (fluidState : FluidState)
| porosity_call (elemCtx : ElementContext) (dofIdx timeIdx : Z)
| intrinsicPermeability_call (elemCtx : ElementContext) (dofIdx timeIdx : Z)
| Velocity_update_call (elemCtx : ElementContext) (dofIdx timeIdx : Z)
| Energy_update_call (fluidState : FluidState)
| Diffusion_update_call (fluidState : FluidState).

(** A run of [update]: the object and the calls made so far. *)
Record run : Type := {
  object : t;
  calls : list call
}.

Definition log (c : call) : stateful run unit :=
  modify (fun r => {| object := object r; calls := calls r ++ [c] |}).

Definition this : stateful run t := fun r => (Ok (object r), r).

Definition write (f : t -> t) : stateful run unit :=
  modify (fun r => {| object := f (object r); calls := calls r |}).

Definition set_parentType (v : DiscVolumeVariables) (o : t) : t :=
  {| parentType := v;
     diffusionVolumeVariables := diffusionVolumeVariables o;
     energyVolumeVariables := energyVolumeVariables o;
     velocityVolumeVariables := velocityVolumeVariables o;
     fluidState_ := fluidState_ o; porosity_ := porosity_ o;
     intrinsicPerm_ := intrinsicPerm_ o;
     relativePermeability_ := relativePermeability_ o |}.

Definition set_diffusionVolumeVariables (v : DiffusionVolumeVariables) (o : t) : t :=
  {| parentType := parentType o;
     diffusionVolumeVariables := v;
     energyVolumeVariables := energyVolumeVariables o;
     velocityVolumeVariables := velocityVolumeVariables o;
     fluidState_ := fluidState_ o; porosity_ := porosity_ o;
     intrinsicPerm_ := intrinsicPerm_ o;
     relativePermeability_ := relativePermeability_ o |}.

Definition set_energyVolumeVariables (v : EnergyVolumeVariables) (o : t) : t :=
  {| parentType := parentType o;
     diffusionVolumeVariables := diffusionVolumeVariables o;
     energyVolumeVariables := v;
     velocityVolumeVariables := velocityVolumeVariables o;
     fluidState_ := fluidState_ o; porosity_ := porosity_ o;
     intrinsicPerm_ := intrinsicPerm_ o;
     relativePermeability_ := relativePermeability_ o |}.

Definition set_velocityVolumeVariables (v : VelocityVolumeVariables) (o : t) : t :=
  {| parentType := parentType o;
     diffusionVolumeVariables := diffusionVolumeVariables o;
     energyVolumeVariables := energyVolumeVariables o;
     velocityVolumeVariables := v;
     fluidState_ := fluidState_ o; porosity_ := porosity_ o;
     intrinsicPerm_ := intrinsicPerm_ o;
     relativePermeability_ := relativePermeability_ o |}.

Definition set_fluidState_ (v : FluidState) (o : t) : t :=
  {| parentType := parentType o;
     diffusionVolumeVariables := diffusionVolumeVariables o;
     energyVolumeVariables := energyVolumeVariables o;
     velocityVolumeVariables := velocityVolumeVariables o;
     fluidState_ := v; porosity_ := porosity_ o;
     intrinsicPerm_ := intrinsicPerm_ o;
     relativePermeability_ := relativePermeability_ o |}.

Definition set_porosity_ (v : Scalar) (o : t) : t :=
  {| parentType := parentType o;
     diffusionVolumeVariables := diffusionVolumeVariables o;
     energyVolumeVariables := energyVolumeVariables o;
     velocityVolumeVariables := velocityVolumeVariables o;
     fluidState_ := fluidState_ o; porosity_ := v;
     intrinsicPerm_ := intrinsicPerm_ o;
     relativePermeability_ := relativePermeability_ o |}.

Definition set_intrinsicPerm_ (v : DimMatrix) (o : t) : t :=
  {| parentType := parentType o;
     diffusionVolumeVariables := diffusionVolumeVariables o;
     energyVolumeVariables := energyVolumeVariables o;
     velocityVolumeVariables := velocityVolumeVariables o;
     fluidState_ := fluidState_ o; porosity_ := porosity_ o;
     intrinsicPerm_ := v;
     relativePermeability_ := relativePermeability_ o |}.

Definition set_relativePermeability_ (v : list Scalar) (o : t) : t :=
  {| parentType := parentType o;
     diffusionVolumeVariables := diffusionVolumeVariables o;
     energyVolumeVariables := energyVolumeVariables o;
     velocityVolumeVariables := velocityVolumeVariables o;
     fluidState_ := fluidState_ o; porosity_ := porosity_ o;
     intrinsicPerm_ := intrinsicPerm_ o;
     relativePermeability_ := v |}.

(** The tolerance handed to the flash solver: the run-time parameter, or,
    when that is not positive, a fraction of the epsilon of the Newton
    solver. *)
Definition flashTolerance_of (elemCtx : ElementContext) : Scalar :=
  let flashTolerance := FlashTolerance in
  if (flashTolerance <=? 0)%float then
    (baseEpsilon elemCtx / (100 * 18e-3))%float
  else flashTolerance.

(** The loop that fills [cTotal]: every component is assigned, so what the
    vector held before does not show. *)
Definition extract_cTotal (priVars : PrimaryVariables) : outcome ComponentVector :=
  mapM (fun compIdx => at_ priVars (cTot0Idx + Z.of_nat compIdx)) (seq 0 numComponents).

(** The loop that sets the phase viscosities. *)
Definition setViscosities (paramCache : ParameterCache) : stateful run unit :=
  for_ numPhases (fun phaseIdx =>
    o ← this;
    log (viscosity_call phaseIdx);;
    let mu := viscosity (fluidState_ o) paramCache phaseIdx in
    write (set_fluidState_ (setViscosity (fluidState_ o) phaseIdx mu))).

(** What the loop leaves in the fluid state. *)
Definition with_viscosities (paramCache : ParameterCache) (fs : FluidState) : FluidState :=
  fold_left
    (fun fs phaseIdx => setViscosity fs phaseIdx (viscosity fs paramCache phaseIdx))
    (seq 0 numPhases) fs.

(** [update(elemCtx, dofIdx, timeIdx)] *)
Definition update (elemCtx : ElementContext) (dofIdx timeIdx : Z) : stateful run unit :=
  log (ParentType_update_call elemCtx dofIdx timeIdx);;
  write (fun o =>
    set_parentType (ParentType_update (parentType o) elemCtx dofIdx timeIdx) o);;
  log (updateTemperatures_call elemCtx dofIdx timeIdx);;
  write (fun o =>
    let '(energy, fs) :=
      updateTemperatures_ (energyVolumeVariables o) (fluidState_ o)
        elemCtx dofIdx timeIdx in
    set_fluidState_ fs (set_energyVolumeVariables energy o));;

  let priVars := primaryVars elemCtx dofIdx timeIdx in
  let problem := problem elemCtx in
  let flashTolerance := flashTolerance_of elemCtx in

  (* extract the total molar densities of the components *)
  cTotal ← lift (extract_cTotal priVars);

  let paramCache := ParameterCache_default in
  let hint := thermodynamicHint elemCtx dofIdx timeIdx in
  paramCache ←
    match hint with
    | Some hint =>
        (* use the same fluid state as the one of the hint, but make sure
           that the temperature of the primary variables is kept *)
        o ← this;
        let T := temperature (fluidState_ o) 0 in
        write (fun o => set_fluidState_ (assign (fluidState_ o) (fluidState_ hint)) o);;
        write (fun o => set_fluidState_ (setTemperature (fluidState_ o) T) o);;
        mret paramCache
    | None =>
        o ← this;
        log (guessInitial_call cTotal);;
        let '(fs, paramCache) := guessInitial (fluidState_ o) paramCache cTotal in
        write (set_fluidState_ fs);;
        mret paramCache
    end;

  (* compute the phase compositions, densities and pressures *)
  log (materialLawParams_call elemCtx dofIdx timeIdx);;
  materialParams ← lift (materialLawParams problem elemCtx dofIdx timeIdx);
  o ← this;
  log (solve_call (fluidState_ o) materialParams cTotal flashTolerance);;
  let '(fs, paramCache) :=
    solve (fluidState_ o) paramCache materialParams cTotal flashTolerance in
  write (set_fluidState_ fs);;

  (* set the phase viscosities *)
  setViscosities paramCache;;

  (* calculate relative permeabilities *)
  o ← this;
  log (relativePermeabilities_call materialParams (fluidState_ o));;
  write (set_relativePermeability_
           (relativePermeabilities (relativePermeability_ o) materialParams (fluidState_ o)));;

  (* porosity *)
  log (porosity_call elemCtx dofIdx timeIdx);;
  phi ← lift (porosity_of problem elemCtx dofIdx timeIdx);
  write (set_porosity_ phi);;

  (* intrinsic permeability *)
  log (intrinsicPermeability_call elemCtx dofIdx timeIdx);;
  K ← lift (intrinsicPermeability_of problem elemCtx dofIdx timeIdx);
  write (set_intrinsicPerm_ K);;

  (* update the quantities specific for the velocity model *)
  log (Velocity_update_call elemCtx dofIdx timeIdx);;
  write (fun o =>
    set_velocityVolumeVariables
      (Velocity_update_ (velocityVolumeVariables o) elemCtx dofIdx timeIdx) o);;

  (* energy related quantities *)
  o ← this;
  log (Energy_update_call (fluidState_ o));;
  let '(energy, fs, paramCache) :=
    Energy_update_ (energyVolumeVariables o) (fluidState_ o) paramCache
      elemCtx dofIdx timeIdx in
  write (fun o => set_fluidState_ fs (set_energyVolumeVariables energy o));;

  (* update the diffusion specific quantities of the volume variables *)
  o ← this;
  log (Diffusion_update_call (fluidState_ o));;
  let '(diffusion, fs, paramCache) :=
    Diffusion_update_ (diffusionVolumeVariables o) (fluidState_ o) paramCache
      elemCtx dofIdx timeIdx in
  write (fun o => set_fluidState_ fs (set_diffusionVolumeVariables diffusion o)).

(** The stages of [update] as functions of its inputs (the lemmas
    [update_calls] and [update_fluidState] relate them to [update]): the
    fluid state and the parameter cache with which the flash solver is
    entered, what the solver returns, and the fluid state once the
    viscosities are set. *)
Definition flash_start (elemCtx : ElementContext) (dofIdx timeIdx : Z) (o : t)
    (cTotal : ComponentVector) : FluidState * ParameterCache :=
  let fs :=
    snd (updateTemperatures_ (energyVolumeVariables o) (fluidState_ o)
           elemCtx dofIdx timeIdx) in
  match thermodynamicHint elemCtx dofIdx timeIdx with
  | Some hint =>
      (setTemperature (assign fs (fluidState_ hint)) (temperature fs 0),
       ParameterCache_default)
  | None => guessInitial fs ParameterCache_default cTotal
  end.

Definition flash_solved (elemCtx : ElementContext) (dofIdx timeIdx : Z) (o : t)
    (cTotal : ComponentVector) (materialParams : MaterialLawParams)
  : FluidState * ParameterCache :=
  let start := flash_start elemCtx dofIdx timeIdx o cTotal in
  solve (fst start) (snd start) materialParams cTotal (flashTolerance_of elemCtx).

Definition flash_finished (elemCtx : ElementContext) (dofIdx timeIdx : Z) (o : t)
    (cTotal : ComponentVector) (materialParams : MaterialLawParams) : FluidState :=
  let solved := flash_solved elemCtx dofIdx timeIdx o cTotal materialParams in
  with_viscosities (snd solved) (fst solved).

(** A call of [update] on an object, with the calls it made. *)
Definition run_update (elemCtx : ElementContext) (dofIdx timeIdx : Z) (o : t)
  : outcome unit * run :=
  update elemCtx dofIdx timeIdx {| object := o; calls := [] |}.

(** ** The read accessors *)

(** [fluidState()] *)
Definition fluidState (o : t) : FluidState := fluidState_ o.

(** [intrinsicPermeability()] *)
Definition intrinsicPermeability (o : t) : DimMatrix := intrinsicPerm_ o.

(** [relativePermeability(phaseIdx)] *)
Definition relativePermeability (o : t) (phaseIdx : Z) : outcome Scalar :=
  at_ (relativePermeability_ o) phaseIdx.

(** [mobility(phaseIdx)] *)
Definition mobility (o : t) (phaseIdx : Z) : outcome Scalar :=
  kr ← relativePermeability o phaseIdx;
  mu ← viscosity_of (fluidState o) phaseIdx;
  Ok (kr / mu)%float.

(** [porosity()] *)
Definition porosity (o : t) : Scalar := porosity_ o.

(** The public member functions, and what a caller gets back. *)
Variant method : Type :=
| m_update (elemCtx : ElementContext) (dofIdx timeIdx : Z)
| m_fluidState
| m_intrinsicPermeability
| m_relativePermeability (phaseIdx : Z)
| m_mobility (phaseIdx : Z)
| m_porosity.

Variant value : Type :=
| v_void
| v_FluidState (fs : FluidState)
| v_DimMatrix (K : DimMatrix)
| v_Scalar (x : Scalar).

Definition is_update (m : method) : bool :=
  match m with m_update _ _ _ => true | _ => false end.

(** A call of a member function on the object.  The read accessors are
    [const] member functions: they get the object by const reference. *)
Definition invoke (m : method) : stateful t value :=
  match m with
  | m_update elemCtx dofIdx timeIdx => fun o =>
      let '(result, r) := run_update elemCtx dofIdx timeIdx o in
      ((fun _ => v_void) <$> result, object r)
  | m_fluidState => fun o => (Ok (v_FluidState (fluidState o)), o)
  | m_intrinsicPermeability => fun o => (Ok (v_DimMatrix (intrinsicPermeability o)), o)
  | m_relativePermeability phaseIdx => fun o =>
      (v_Scalar <$> relativePermeability o phaseIdx, o)
  | m_mobility phaseIdx => fun o => (v_Scalar <$> mobility o phaseIdx, o)
  | m_porosity => fun o => (Ok (v_Scalar (porosity o)), o)
  end.

(** The object after a sequence of calls; a call that throws leaves the
    object as it is at the throw, and the caller goes on. *)
Definition invoke_all (ms : list method) (o : t) : t :=
  fold_left (fun o m => snd (invoke m o)) ms o.

(** ** The steps of the per-control-volume closure in a run *)

Variant closure_step : Set :=
| FlashEquilibrium
| EnergyUpdate
| DiffusionUpdate
| RelativePermeability.

Definition closure_step_of (c : call) : option closure_step :=
  match c with
  | solve_call _ _ _ _ => Some FlashEquilibrium
  | Energy_update_call _ => Some EnergyUpdate
  | Diffusion_update_call _ => Some DiffusionUpdate
  | relativePermeabilities_call _ _ => Some RelativePermeability
  | _ => None
  end.

Definition closure_order (cs : list call) : list closure_step :=
  omap closure_step_of cs.



End VolumeVariables.
End FlashVolumeVariables.

(* ===================================================================== *)
(** * test/twophase/injectionproblem.hh                                   *)
(* ===================================================================== *)

(** [RT] and the grid's [ctype] [DT] are [double]. *)

Module InjectionProblem.

(** [enum {dim = G::dimension, m = 2}] *)
Definition m : nat := 2.
(** [enum {pWIdx = 0, switchIdx = 1}] *)
Definition pWIdx : Z := 0.
Definition switchIdx : Z := 1.
(** [enum {gasPhase = 0, waterPhase = 1, bothPhases = 2}] *)
Definition gasPhase : Z := 0.
Definition waterPhase : Z := 1.
Definition bothPhases : Z := 2.

(** The two [BoundaryConditions::Flags] the problem names. *)
Variant Flags : Set := neumann | dirichlet.

Section Problem.
Context {Entity IntersectionIterator : Type}.
Context (dim : nat).

Record t : Type := {
  outerLowerLeft_ : FieldVector;
  outerUpperRight_ : FieldVector;
  innerLowerLeft_ : FieldVector;
  innerUpperRight_ : FieldVector;
  width_ : Scalar;
  height_ : Scalar;
  depthBOR_ : Scalar;
  eps_ : Scalar;
  gravity_ : FieldVector
}.

(** [bctype(x, e, intersectionIt, xi)] *)
Definition bctype (this : t) (x : FieldVector) (e : Entity)
    (intersectionIt : IntersectionIterator) (xi : FieldVector)
  : outcome (list Flags) :=
  let values := replicate m neumann in
  x0 ← at_ x 0;
  let values := if (x0 <? eps_ this)%float then replicate m dirichlet else values in
  Ok values.

(** [g(x, e, intersectionIt, xi)]: the Dirichlet values. *)
Definition g (this : t) (x : FieldVector) (e : Entity)
    (intersectionIt : IntersectionIterator) (xi : FieldVector)
  : outcome FieldVector :=
  let values := replicate m 0%float in
  let densityW_ := 1000.0%float in
  g1 ← at_ (gravity_ this) 1;
  x1 ← at_ x 1;
  values ← store values pWIdx (1e5 - densityW_ * g1 * (depthBOR_ this - x1))%float;
  values ← store values switchIdx 1e-6%float;
  Ok values.

(** [J(x, e, intersectionIt, xi)]: the Neumann values. *)
Definition J (this : t) (x : FieldVector) (e : Entity)
    (intersectionIt : IntersectionIterator) (xi : FieldVector)
  : outcome FieldVector :=
  let values := replicate m 0%float in
  x1 ← at_ x 1;
  if (x1 <? 15)%float && (5 <? x1)%float then
    store values switchIdx (-1e-3)%float
  else Ok values.

(** [initial(x, e, xi)]: [values] is declared without an initialiser. *)
Definition initial (junk : nat -> Scalar) (this : t) (x : FieldVector) (e : Entity)
    (xi : FieldVector)
  : outcome FieldVector :=
  let values := indeterminate_vector m junk in
  let densityW_ := 1000.0%float in
  g1 ← at_ (gravity_ this) 1;
  x1 ← at_ x 1;
  values ← store values pWIdx (1e5 - densityW_ * g1 * (depthBOR_ this - x1))%float;
  values ← store values switchIdx 1e-6%float;
  Ok values.

(** [initialPhaseState(x, e, xi)] *)
Definition initialPhaseState (this : t) (x : FieldVector) (e : Entity)
    (xi : FieldVector) : Z :=
  let state := waterPhase in
  state.

(** [q(x, e, xi)] *)
Definition q (this : t) (x : FieldVector) (e : Entity) (xi : FieldVector)
  : FieldVector :=
  replicate m 0%float.

(** [gravity()] and [depthBOR()] *)
Definition gravity (this : t) : FieldVector := gravity_ this.
Definition depthBOR (this : t) : Scalar := depthBOR_ this.

(** The constructor.  [innerLowerLeft_], [innerUpperRight_] and [gravity_]
    have no initialiser; the body assigns two components of [gravity_]. *)
Definition constructor (junk_innerLowerLeft junk_innerUpperRight junk_gravity : nat -> Scalar)
    (outerLowerLeft outerUpperRight innerLowerLeft innerUpperRight : FieldVector)
    (depthBOR : Scalar)
  : outcome t :=
  r0 ← at_ outerUpperRight 0;
  let eps := (1e-8 * r0)%float in
  r1 ← at_ outerUpperRight 1;
  l1 ← at_ outerLowerLeft 1;
  let height := (r1 - l1)%float in
  l0 ← at_ outerLowerLeft 0;
  let width := (r0 - l0)%float in
  let gravity := indeterminate_vector dim junk_gravity in
  gravity ← store gravity 0 0%float;
  gravity ← store gravity 1 (-9.81)%float;
  Ok {| outerLowerLeft_ := outerLowerLeft;
        outerUpperRight_ := outerUpperRight;
        innerLowerLeft_ := indeterminate_vector dim junk_innerLowerLeft;
        innerUpperRight_ := indeterminate_vector dim junk_innerUpperRight;
        width_ := width;
        height_ := height;
        depthBOR_ := depthBOR;
        eps_ := eps;
        gravity_ := gravity |}.

End Problem.
End InjectionProblem.

Module InjectionSoil.

Section Soil.
Context {Entity : Type}.
Context (dim : nat).
(** [pow] of <cmath>. *)
Context (pow : Scalar -> Scalar -> Scalar).

Record t : Type := {
  lowK_ : FieldMatrix;
  highK_ : FieldMatrix;
  layerBottom_ : Scalar
}.

(** [InjectionSoil()]: the matrices have no initialiser; the body sets them
    to zero, then their diagonals, then the layer bottom. *)
Definition constructor (junk_lowK junk_highK : nat -> nat -> Scalar) : t :=
  let lowK := indeterminate_matrix dim junk_lowK in
  let highK := indeterminate_matrix dim junk_highK in
  (* lowK_ = highK_ = 0.; *)
  let highK := assign_scalar_matrix highK 0%float in
  let lowK := highK in
  let '(lowK, highK) :=
    fold_left
      (fun K i =>
         let lowK := set_entry (fst K) i i 5e-14%float in
         let highK := set_entry (snd K) i i 1e-12%float in
         (lowK, highK))
      (seq 0 dim) (lowK, highK) in
  {| lowK_ := lowK; highK_ := highK; layerBottom_ := 22.0%float |}.

(** [K(x, e, xi)]: not declared [const], so it runs on the object. *)
Definition K (x : FieldVector) (e : Entity) (xi : FieldVector)
  : stateful t FieldMatrix :=
  this ← get;
  x1 ← lift (at_ x 1);
  if (x1 <? layerBottom_ this)%float then mret (highK_ this)
  else mret (lowK_ this).

(** [porosity(x, e, xi)] *)
Definition porosity (this : t) (x : FieldVector) (e : Entity) (xi : FieldVector)
  : Scalar := 0.3%float.

(** [Sr_w(x, e, xi, T)] and [Sr_n(x, e, xi, T)] *)
Definition Sr_w (this : t) (x : FieldVector) (e : Entity) (xi : FieldVector)
    (T : Scalar) : Scalar := 0.2%float.
Definition Sr_n (this : t) (x : FieldVector) (e : Entity) (xi : FieldVector)
    (T : Scalar) : Scalar := 0.05%float.

(** [heatCap(x, e, xi)]: [790 * 2700] is a product of two [int]. *)
Definition heatCap (this : t) (x : FieldVector) (e : Entity) (xi : FieldVector)
  : Scalar :=
  (2133000 * porosity this x e xi)%float.

(** [heatCond(x, e, xi, sat)] *)
Definition heatCond (this : t) (x : FieldVector) (e : Entity) (xi : FieldVector)
    (sat : Scalar) : Scalar :=
  let lWater := 0.6%float in
  let lGranite := 2.8%float in
  let poro := porosity this x e xi in
  let lsat := (pow lGranite (1 - poro) * pow lWater poro)%float in
  let ldry := pow lGranite (1 - poro)%float in
  (ldry + PrimFloat.sqrt sat * (ldry - lsat))%float.

(** [paramRelPerm(x, e, xi, T)]: lambda and the entry pressure. *)
Definition paramRelPerm (this : t) (x : FieldVector) (e : Entity) (xi : FieldVector)
    (T : Scalar) : list Scalar :=
  [2.0%float; 1e4%float].

(** The member functions that read the soil, and what a caller gets. *)
Variant method : Type :=
| m_K (x : FieldVector) (e : Entity) (xi : FieldVector)
| m_porosity (x : FieldVector) (e : Entity) (xi : FieldVector)
| m_Sr_w (x : FieldVector) (e : Entity) (xi : FieldVector) (T : Scalar)
| m_Sr_n (x : FieldVector) (e : Entity) (xi : FieldVector) (T : Scalar)
| m_heatCap (x : FieldVector) (e : Entity) (xi : FieldVector)
| m_heatCond (x : FieldVector) (e : Entity) (xi : FieldVector) (sat : Scalar)
| m_paramRelPerm (x : FieldVector) (e : Entity) (xi : FieldVector) (T : Scalar).

Variant value : Type :=
| v_FieldMatrix (K : FieldMatrix)
| v_double (x : Scalar)
| v_vector (v : list Scalar).

(** The member functions other than [K] are declared [const]. *)
Definition invoke (c : method) : stateful t value :=
  match c with
  | m_K x e xi => fun this =>
      let '(result, this') := K x e xi this in
      (v_FieldMatrix <$> result, this')
  | m_porosity x e xi => fun this => (Ok (v_double (porosity this x e xi)), this)
  | m_Sr_w x e xi T => fun this => (Ok (v_double (Sr_w this x e xi T)), this)
  | m_Sr_n x e xi T => fun this => (Ok (v_double (Sr_n this x e xi T)), this)
  | m_heatCap x e xi => fun this => (Ok (v_double (heatCap this x e xi)), this)
  | m_heatCond x e xi sat => fun this => (Ok (v_double (heatCond this x e xi sat)), this)
  | m_paramRelPerm x e xi T => fun this => (Ok (v_vector (paramRelPerm this x e xi T)), this)
  end.

Definition invoke_all (cs : list method) (this : t) : t :=
  fold_left (fun this c => snd (invoke c this)) cs this.

End Soil.
End InjectionSoil.

(* ===================================================================== *)
(** * ewoms/io/vtkblackoilmodule.hh                                       *)
(* ===================================================================== *)

Module VtkBlackOilModule.

(** [typedef std::vector<Scalar> ScalarBuffer] *)
Abbreviation ScalarBuffer := (list Scalar) (only parsing).

(** The properties of the [TypeTag], the run-time parameters, and what the
    module uses of the fluid system, of the element context and of its
    parent class [BaseOutputModule] (all declared in other headers). *)
Class TypeTag : Type := {
  ElementContext : Type;
  Evaluation : Type;
  Toolbox_value : Evaluation -> Scalar;
  (** [EWOMS_GET_PARAM(TypeTag, bool, ...)] *)
  VtkWriteGasDissolutionFactor : bool;
  VtkWriteSaturatedOilGasDissolutionFactor : bool;
  VtkWriteGasFormationVolumeFactor : bool;
  VtkWriteOilFormationVolumeFactor : bool;
  VtkWriteOilSaturationPressure : bool;
  (** [FluidSystem] *)
  oilPhaseIdx : Z;
  gasPhaseIdx : Z;
  gasCompIdx : Z;
  oilCompIdx : Z;
  referenceDensity : Z -> Z -> Scalar;
  gasDissolutionFactor : Scalar -> Scalar -> Z -> Scalar;
  gasFormationVolumeFactor : Scalar -> Scalar -> Scalar -> Z -> Scalar;
  saturatedOilFormationVolumeFactor : Scalar -> Scalar -> Z -> Scalar;
  oilSaturationPressure : Scalar -> Scalar -> Z -> Scalar;
  (** [ElementContext]: [numPrimaryDof(timeIdx)], the fluid state of
      [intensiveQuantities(dofIdx, timeIdx)], [globalSpaceIndex(dofIdx,
      timeIdx)] and [primaryVars(dofIdx, timeIdx).pvtRegionIndex()]. *)
  numPrimaryDof : ElementContext -> Z -> Z;
  fs_pressure : ElementContext -> Z -> Z -> Z -> Evaluation;
  fs_temperature : ElementContext -> Z -> Z -> Z -> Evaluation;
  fs_massFraction : ElementContext -> Z -> Z -> Z -> Z -> Evaluation;
  globalSpaceIndex : ElementContext -> Z -> Z -> Z;
  pvtRegionIndex : ElementContext -> Z -> Z -> Z;
  (** [BaseOutputModule::resizeScalarBuffer_(buffer)] *)
  resizeScalarBuffer_ : ScalarBuffer -> ScalarBuffer
}.

(** A [BaseOutputWriter]: whether its dynamic type is [VtkMultiWriter], and
    the scalar fields [BaseOutputModule::commitScalarBuffer_] handed to it,
    each with its name, in the order of the calls. *)
Record BaseOutputWriter : Type := {
  isVtkMultiWriter : bool;
  committed : list (string * ScalarBuffer)
}.

(** [this->commitScalarBuffer_(baseWriter, name, buffer)] *)
Definition commitScalarBuffer_ (name : string) (buffer : ScalarBuffer)
  : stateful BaseOutputWriter unit :=
  modify (fun w => {| isVtkMultiWriter := isVtkMultiWriter w;
                      committed := committed w ++ [(name, buffer)] |}).

(** The object: the five buffers. *)
Record t : Type := {
  gasDissolutionFactor_ : ScalarBuffer;
  saturatedOilGasDissolutionFactor_ : ScalarBuffer;
  gasFormationVolumeFactor_ : ScalarBuffer;
  saturatedOilFormationVolumeFactor_ : ScalarBuffer;
  oilSaturationPressure_ : ScalarBuffer
}.

Definition set_gasDissolutionFactor_ (b : ScalarBuffer) (o : t) : t :=
  {| gasDissolutionFactor_ := b;
     saturatedOilGasDissolutionFactor_ := saturatedOilGasDissolutionFactor_ o;
     gasFormationVolumeFactor_ := gasFormationVolumeFactor_ o;
     saturatedOilFormationVolumeFactor_ := saturatedOilFormationVolumeFactor_ o;
     oilSaturationPressure_ := oilSaturationPressure_ o |}.

Definition set_saturatedOilGasDissolutionFactor_ (b : ScalarBuffer) (o : t) : t :=
  {| gasDissolutionFactor_ := gasDissolutionFactor_ o;
     saturatedOilGasDissolutionFactor_ := b;
     gasFormationVolumeFactor_ := gasFormationVolumeFactor_ o;
     saturatedOilFormationVolumeFactor_ := saturatedOilFormationVolumeFactor_ o;
     oilSaturationPressure_ := oilSaturationPressure_ o |}.

Definition set_gasFormationVolumeFactor_ (b : ScalarBuffer) (o : t) : t :=
  {| gasDissolutionFactor_ := gasDissolutionFactor_ o;
     saturatedOilGasDissolutionFactor_ := saturatedOilGasDissolutionFactor_ o;
     gasFormationVolumeFactor_ := b;
     saturatedOilFormationVolumeFactor_ := saturatedOilFormationVolumeFactor_ o;
     oilSaturationPressure_ := oilSaturationPressure_ o |}.

Definition set_saturatedOilFormationVolumeFactor_ (b : ScalarBuffer) (o : t) : t :=
  {| gasDissolutionFactor_ := gasDissolutionFactor_ o;
     saturatedOilGasDissolutionFactor_ := saturatedOilGasDissolutionFactor_ o;
     gasFormationVolumeFactor_ := gasFormationVolumeFactor_ o;
     saturatedOilFormationVolumeFactor_ := b;
     oilSaturationPressure_ := oilSaturationPressure_ o |}.

Definition set_oilSaturationPressure_ (b : ScalarBuffer) (o : t) : t :=
  {| gasDissolutionFactor_ := gasDissolutionFactor_ o;
     saturatedOilGasDissolutionFactor_ := saturatedOilGasDissolutionFactor_ o;
     gasFormationVolumeFactor_ := gasFormationVolumeFactor_ o;
     saturatedOilFormationVolumeFactor_ := saturatedOilFormationVolumeFactor_ o;
     oilSaturationPressure_ := b |}.

(** The five buffers, in the order of their declaration. *)
Definition buffers (o : t) : list ScalarBuffer :=
  [gasDissolutionFactor_ o; saturatedOilGasDissolutionFactor_ o;
   gasFormationVolumeFactor_ o; saturatedOilFormationVolumeFactor_ o;
   oilSaturationPressure_ o].

(** [buffer_[globalDofIdx] = x] on a member buffer. *)
Definition assign_at (member : t -> ScalarBuffer) (set_member : ScalarBuffer -> t -> t)
    (globalDofIdx : Z) (x : Scalar) : stateful t unit := fun o =>
  match store (member o) globalDofIdx x with
  | Ok b => (Ok tt, set_member b o)
  | Throw e => (Throw e, o)
  | Undefined => (Undefined, o)
  end.

Section Module.
Context `{TypeTag}.

Definition gasDissolutionFactorOutput_ : bool := VtkWriteGasDissolutionFactor.
Definition saturatedOilGasDissolutionFactorOutput_ : bool :=
  VtkWriteSaturatedOilGasDissolutionFactor.
Definition gasFormationVolumeFactorOutput_ : bool := VtkWriteGasFormationVolumeFactor.
Definition saturatedOilFormationVolumeFactorOutput_ : bool :=
  VtkWriteOilFormationVolumeFactor.
Definition oilSaturationPressureOutput_ : bool := VtkWriteOilSaturationPressure.

(** [allocBuffers()] *)
Definition allocBuffers : stateful t unit :=
  when gasDissolutionFactorOutput_
    (modify (fun o =>
       set_gasDissolutionFactor_ (resizeScalarBuffer_ (gasDissolutionFactor_ o)) o));;
  when saturatedOilGasDissolutionFactorOutput_
    (modify (fun o =>
       set_saturatedOilGasDissolutionFactor_
         (resizeScalarBuffer_ (saturatedOilGasDissolutionFactor_ o)) o));;
  when gasFormationVolumeFactorOutput_
    (modify (fun o =>
       set_gasFormationVolumeFactor_ (resizeScalarBuffer_ (gasFormationVolumeFactor_ o)) o));;
  when saturatedOilFormationVolumeFactorOutput_
    (modify (fun o =>
       set_saturatedOilFormationVolumeFactor_
         (resizeScalarBuffer_ (saturatedOilFormationVolumeFactor_ o)) o));;
  when oilSaturationPressureOutput_
    (modify (fun o =>
       set_oilSaturationPressure_ (resizeScalarBuffer_ (oilSaturationPressure_ o)) o)).

(** The gas dissolution factor of the oil at a degree of freedom:
    [X_oG / rhogRef * rhooRef / (1 - X_oG)]. *)
Definition R_s (elemCtx : ElementContext) (dofIdx : Z) : Scalar :=
  let X_oG := Toolbox_value (fs_massFraction elemCtx dofIdx 0 oilPhaseIdx gasCompIdx) in
  let regionIdx := pvtRegionIndex elemCtx dofIdx 0 in
  let rhooRef := referenceDensity oilPhaseIdx regionIdx in
  let rhogRef := referenceDensity gasPhaseIdx regionIdx in
  (X_oG / rhogRef * rhooRef / (1 - X_oG))%float.

(** The body of the loop of [processElement]. *)
Definition processDof (elemCtx : ElementContext) (dofIdx : Z) : stateful t unit :=
  let globalDofIdx := globalSpaceIndex elemCtx dofIdx 0 in
  let po := Toolbox_value (fs_pressure elemCtx dofIdx 0 oilPhaseIdx) in
  let To := Toolbox_value (fs_temperature elemCtx dofIdx 0 oilPhaseIdx) in
  let X_oG := Toolbox_value (fs_massFraction elemCtx dofIdx 0 oilPhaseIdx gasCompIdx) in
  let X_gO := Toolbox_value (fs_massFraction elemCtx dofIdx 0 gasPhaseIdx oilCompIdx) in
  let regionIdx := pvtRegionIndex elemCtx dofIdx 0 in
  let rhooRef := referenceDensity oilPhaseIdx regionIdx in
  let rhogRef := referenceDensity gasPhaseIdx regionIdx in
  when gasDissolutionFactorOutput_
    (assign_at gasDissolutionFactor_ set_gasDissolutionFactor_ globalDofIdx
       (X_oG / rhogRef * rhooRef / (1 - X_oG))%float);;
  when saturatedOilGasDissolutionFactorOutput_
    (assign_at saturatedOilGasDissolutionFactor_ set_saturatedOilGasDissolutionFactor_
       globalDofIdx (gasDissolutionFactor To po regionIdx));;
  when gasFormationVolumeFactorOutput_
    (assign_at gasFormationVolumeFactor_ set_gasFormationVolumeFactor_
       globalDofIdx (gasFormationVolumeFactor To po X_gO regionIdx));;
  when saturatedOilFormationVolumeFactorOutput_
    (assign_at saturatedOilFormationVolumeFactor_ set_saturatedOilFormationVolumeFactor_
       globalDofIdx (saturatedOilFormationVolumeFactor To po regionIdx));;
  when oilSaturationPressureOutput_
    (assign_at oilSaturationPressure_ set_oilSaturationPressure_
       globalDofIdx (oilSaturationPressure To X_oG regionIdx)).

(** [processElement(elemCtx)] *)
Definition processElement (elemCtx : ElementContext) : stateful t unit :=
  for_ (Z.to_nat (numPrimaryDof elemCtx 0))
    (fun dofIdx => processDof elemCtx (Z.of_nat dofIdx)).

(** [commitBuffers(baseWriter)]: the module is read, the writer written. *)
Definition commitBuffers (o : t) : stateful BaseOutputWriter unit :=
  baseWriter ← get;
  (* dynamic_cast<VtkMultiWriter*>(&baseWriter) *)
  let vtkWriter := isVtkMultiWriter baseWriter in
  if negb vtkWriter then mret tt
  else
    when gasDissolutionFactorOutput_
      (commitScalarBuffer_ "R_s" (gasDissolutionFactor_ o));;
    when saturatedOilGasDissolutionFactorOutput_
      (commitScalarBuffer_ "R_s,sat" (saturatedOilGasDissolutionFactor_ o));;
    when gasFormationVolumeFactorOutput_
      (commitScalarBuffer_ "B_g" (gasFormationVolumeFactor_ o));;
    when saturatedOilFormationVolumeFactorOutput_
      (commitScalarBuffer_ "B_o" (saturatedOilFormationVolumeFactor_ o));;
    when oilSaturationPressureOutput_
      (commitScalarBuffer_ "pressure_sat,o" (oilSaturationPressure_ o)).

(** The buffers a writer holds under a name. *)
Definition published (name : string) (w : BaseOutputWriter) : list ScalarBuffer :=
  snd <$> filter (fun nb => fst nb = name) (committed w).

End Module.
End VtkBlackOilModule.

(* ===================================================================== *)
(** * dumux/freeflow/stokes2cni/stokes2cnimodel.hh                        *)
(* ===================================================================== *)

Module Stokes2cniModel.

(** The properties of the [TypeTag] and what the model uses of the classes
    behind them (all declared in other headers). *)
Class TypeTag : Type := {
  Problem : Type;
  Element : Type;
  PrimaryVariables : Type;
  FVElementGeometry : Type;
  ElementBoundaryTypes : Type;
  VolumeVariables : Type;
  (** [GridView::dimension], [PhaseIndex], [Indices::lCompIdx] *)
  dim : nat;
  phaseIdx : Z;
  lCompIdx : Z;
  (** default constructors *)
  FVElementGeometry_default : FVElementGeometry;
  ElementBoundaryTypes_default : ElementBoundaryTypes;
  VolumeVariables_default : VolumeVariables;
  (** [elemIt->template count<dim>()] *)
  count_dim : Element -> Z;
  (** [fvElemGeom.update(gridView, element)] *)
  FVElementGeometry_update : FVElementGeometry -> Element -> FVElementGeometry;
  (** [elemBcTypes.update(problem, element, fvElemGeom)] *)
  ElementBoundaryTypes_update :
    ElementBoundaryTypes -> Problem -> Element -> FVElementGeometry -> ElementBoundaryTypes;
  (** [volVars.update(priVars, problem, element, fvElemGeom, vertexIdx,
      isOldSol)] *)
  VolumeVariables_update :
    VolumeVariables -> PrimaryVariables -> Problem -> Element -> FVElementGeometry ->
    Z -> bool -> VolumeVariables;
  pressure : VolumeVariables -> Scalar;
  (** [volVars.fluidState().massFraction(phaseIdx, compIdx)] *)
  massFraction : VolumeVariables -> Z -> Z -> Scalar;
  temperature : VolumeVariables -> Scalar;
  density : VolumeVariables -> Scalar;
  viscosity : VolumeVariables -> Scalar;
  enthalpy : VolumeVariables -> Scalar;
  velocity : VolumeVariables -> FieldVector
}.

Abbreviation ScalarField := (list Scalar) (only parsing).
Abbreviation VelocityField := (list FieldVector) (only parsing).

(** What the writer was given by [attachVertexData]. *)
Variant VertexData : Type :=
| scalar_data (field : ScalarField)
| vector_data (field : VelocityField) (nComps : nat).

(** The [MultiWriter]: the vertex data attached to it, each under its name,
    in the order of the calls of [attachVertexData]. *)
Record MultiWriter : Type := {
  vertexData : list (string * VertexData)
}.

(** [writer.attachVertexData(field, name)] *)
Definition attachVertexData (data : VertexData) (name : string) (writer : MultiWriter)
  : MultiWriter :=
  {| vertexData := vertexData writer ++ [(name, data)] |}.

(** The buffers [writer.allocateManagedBuffer] hands out: of the size asked
    for, with entries that were not initialised. *)
Record Memory : Type := {
  junk_scalar : nat -> nat -> Scalar;
  junk_vector : nat -> FieldVector
}.

Definition allocateManagedBuffer (memory : Memory) (k : nat) (numEntities : nat)
  : ScalarField :=
  indeterminate_vector numEntities (junk_scalar memory k).

Definition allocateManagedVectorBuffer (memory : Memory) (numEntities : nat)
  : VelocityField :=
  junk_vector memory <$> seq 0 numEntities.

Abbreviation SolutionVector := (list PrimaryVariables) (only parsing).

Section Model.
Context `{TypeTag}.

(** The grid view: its elements in iteration order, [size(dim)], [size(0)]
    and the rank of the process in [comm()], as the [double] the assignment
    to the field converts it to. *)
Record GridView : Type := {
  elements : list Element;
  size_dim : nat;
  size_0 : nat;
  comm_rank : Scalar
}.

(** The model, as far as [addOutputVtkFields] reads it. *)
Record t : Type := {
  gridView_ : GridView;
  problem_ : Problem;
  (** [elementMapper().map(element)] *)
  elementMapper_map : Element -> Z;
  (** [vertexMapper().map(element, vertexIdx, dim)] *)
  vertexMapper_map : Element -> Z -> Z
}.

(** The fields of the function, named as its local references. *)
Record Fields : Type := {
  pN : ScalarField;
  delP : ScalarField;
  Xw : ScalarField;
  T : ScalarField;
  rho : ScalarField;
  mu : ScalarField;
  h : ScalarField;
  velocity_field : VelocityField;
  rank : ScalarField
}.

(** The assignments of the inner loop, for the volume variables just
    updated. *)
Definition assignVertex (globalIdx : Z) (volVars : VolumeVariables) (f : Fields)
  : outcome Fields :=
  pN' ← store (pN f) globalIdx (pressure volVars);
  delP' ← store (delP f) globalIdx (pressure volVars - 1e5)%float;
  Xw' ← store (Xw f) globalIdx (massFraction volVars phaseIdx lCompIdx);
  T' ← store (T f) globalIdx (temperature volVars);
  rho' ← store (rho f) globalIdx (density volVars);
  mu' ← store (mu f) globalIdx (viscosity volVars);
  h' ← store (h f) globalIdx (enthalpy volVars);
  velocity' ← store (velocity_field f) globalIdx (velocity volVars);
  Ok {| pN := pN'; delP := delP'; Xw := Xw'; T := T'; rho := rho'; mu := mu';
        h := h'; velocity_field := velocity'; rank := rank f |}.

(** The body of the loop over the vertices of an element. *)
Definition vertexBody (this : t) (sol : SolutionVector) (element : Element)
    (fvElemGeom : FVElementGeometry) (vertexIdx : nat)
    (st : VolumeVariables * Fields) : outcome (VolumeVariables * Fields) :=
  let '(volVars, fields) := st in
  let globalIdx := vertexMapper_map this element (Z.of_nat vertexIdx) in
  priVars ← at_ sol globalIdx;
  let volVars :=
    VolumeVariables_update volVars priVars (problem_ this) element fvElemGeom
      (Z.of_nat vertexIdx) false in
  fields ← assignVertex globalIdx volVars fields;
  Ok (volVars, fields).

(** The locals the loop over the elements carries. *)
Record Locals : Type := {
  fvElemGeom : FVElementGeometry;
  volVars : VolumeVariables;
  elemBcTypes : ElementBoundaryTypes;
  fields : Fields
}.

Definition set_rank (r : ScalarField) (f : Fields) : Fields :=
  {| pN := pN f; delP := delP f; Xw := Xw f; T := T f; rho := rho f; mu := mu f;
     h := h f; velocity_field := velocity_field f; rank := r |}.

(** The body of the loop over the elements. *)
Definition elementBody (this : t) (sol : SolutionVector) (element : Element)
    (l : Locals) : outcome Locals :=
  let idx := elementMapper_map this element in
  rank' ← store (rank (fields l)) idx (comm_rank (gridView_ this));
  let fvElemGeom := FVElementGeometry_update (fvElemGeom l) element in
  let elemBcTypes :=
    ElementBoundaryTypes_update (elemBcTypes l) (problem_ this) element fvElemGeom in
  let numLocalVerts := count_dim element in
  '(volVars, fields) ←
    for_each (seq 0 (Z.to_nat numLocalVerts))
      (vertexBody this sol element fvElemGeom)
      (volVars l, set_rank rank' (fields l));
  Ok {| fvElemGeom := fvElemGeom; volVars := volVars;
        elemBcTypes := elemBcTypes; fields := fields |}.

(** The fields as allocated at the top of the function. *)
Definition allocateFields (this : t) (memory : Memory) : Fields :=
  let numVertices := size_dim (gridView_ this) in
  let numElements := size_0 (gridView_ this) in
  {| pN := allocateManagedBuffer memory 0 numVertices;
     delP := allocateManagedBuffer memory 1 numVertices;
     Xw := allocateManagedBuffer memory 2 numVertices;
     T := allocateManagedBuffer memory 3 numVertices;
     rho := allocateManagedBuffer memory 4 numVertices;
     mu := allocateManagedBuffer memory 5 numVertices;
     h := allocateManagedBuffer memory 6 numVertices;
     velocity_field := allocateManagedVectorBuffer memory numVertices;
     rank := allocateManagedBuffer memory 7 numElements |}.

(** The loops of the function: the fields when the last element is done. *)
Definition computeFields (this : t) (sol : SolutionVector) (memory : Memory)
  : outcome Fields :=
  fields <$>
    for_each (elements (gridView_ this)) (elementBody this sol)
      {| fvElemGeom := FVElementGeometry_default;
         volVars := VolumeVariables_default;
         elemBcTypes := ElementBoundaryTypes_default;
         fields := allocateFields this memory |}.

(** [addOutputVtkFields(sol, writer)] *)
Definition addOutputVtkFields (this : t) (sol : SolutionVector) (memory : Memory)
    (writer : MultiWriter) : outcome MultiWriter :=
  f ← computeFields this sol memory;
  let writer := attachVertexData (scalar_data (pN f)) "pg" writer in
  let writer := attachVertexData (scalar_data (delP f)) "delP" writer in
  let writer := attachVertexData (scalar_data (Xw f)) "X_gH2O" writer in
  let writer := attachVertexData (scalar_data (T f)) "temperature" writer in
  let writer := attachVertexData (scalar_data (rho f)) "rhoG" writer in
  let writer := attachVertexData (scalar_data (mu f)) "mu" writer in
  let writer := attachVertexData (scalar_data (h f)) "h" writer in
  let writer := attachVertexData (vector_data (velocity_field f) dim) "v" writer in
  Ok writer.

(** [p] is the pressure of volume variables updated from the solution at
    the global index [globalIdx], for a vertex of the grid that has this
    index. *)
Definition updated_pressure (this : t) (sol : SolutionVector) (globalIdx : Z)
    (p : Scalar) : Prop :=
  exists element vertexIdx volVars fvElemGeom priVars,
    element ∈ elements (gridView_ this) /\
    0 <= vertexIdx < count_dim element /\
    vertexMapper_map this element vertexIdx = globalIdx /\
    at_ sol globalIdx = Ok priVars /\
    p = pressure (VolumeVariables_update volVars priVars (problem_ this) element
                    fvElemGeom vertexIdx false).

(** The entries of "pg" and "delP" at a global index are as the loop body
    assigns them. *)
Definition vertex_assigned (this : t) (sol : SolutionVector) (globalIdx : Z)
    (pg delP : ScalarField) : Prop :=
  exists p,
    at_ pg globalIdx = Ok p /\
    at_ delP globalIdx = Ok (p - 1e5)%float /\
    updated_pressure this sol globalIdx p.

(** The seven scalar vertex fields, in the order of their allocation. *)
Definition scalarFields (f : Fields) : list ScalarField :=
  [pN f; delP f; Xw f; T f; rho f; mu f; h f].

(** The entries of the eight vertex fields at a global index are those of
    one and the same volume variables, updated from the solution at this
    index for a vertex of the grid that has this index. *)
Definition vertex_fields (this : t) (sol : SolutionVector) (globalIdx : Z)
    (f : Fields) : Prop :=
  exists element vertexIdx volVars fvElemGeom priVars,
    element ∈ elements (gridView_ this) /\
    0 <= vertexIdx < count_dim element /\
    vertexMapper_map this element vertexIdx = globalIdx /\
    at_ sol globalIdx = Ok priVars /\
    let updated :=
      VolumeVariables_update volVars priVars (problem_ this) element fvElemGeom
        vertexIdx false in
    at_ (pN f) globalIdx = Ok (pressure updated) /\
    at_ (delP f) globalIdx = Ok (pressure updated - 1e5)%float /\
    at_ (Xw f) globalIdx = Ok (massFraction updated phaseIdx lCompIdx) /\
    at_ (T f) globalIdx = Ok (temperature updated) /\
    at_ (rho f) globalIdx = Ok (density updated) /\
    at_ (mu f) globalIdx = Ok (viscosity updated) /\
    at_ (h f) globalIdx = Ok (enthalpy updated) /\
    at_ (velocity_field f) globalIdx = Ok (velocity updated).

(** The scalar field last attached to a writer under a name. *)
Definition attached (name : string) (writer : MultiWriter) : option ScalarField :=
  match last (filter (fun nd => fst nd = name) (vertexData writer)) with
  | Some (_, scalar_data field) => Some field
  | _ => None
  end.

End Model.
End Stokes2cniModel.

(* ===================================================================== *)
(** * Concrete set-ups                                                    *)
(* ===================================================================== *)

Module Examples.

(** A two-phase problem on a two-dimensional grid with gravity switched on,
    the material law being [Opm::NullMaterial] (its parameters carry no
    data). *)
Definition twoPhase2d : MultiPhaseBaseProblem.TypeTag :=
  {| MultiPhaseBaseProblem.Context_ := unit;
     MultiPhaseBaseProblem.Evaluation := Scalar;
     MultiPhaseBaseProblem.Toolbox_value := fun x => x;
     MultiPhaseBaseProblem.MaterialLawParams := unit;
     MultiPhaseBaseProblem.MaterialLawParams_default := tt;
     MultiPhaseBaseProblem.HeatConductionLawParams := unit;
     MultiPhaseBaseProblem.FvBaseProblem := unit;
     MultiPhaseBaseProblem.dimWorld := 2;
     MultiPhaseBaseProblem.numPhases := 2;
     MultiPhaseBaseProblem.EnableGravity := true |}.

(** A flash model with two phases and two components.  The element context
    is the vector of primary variables of its one degree of freedom; the
    collaborators are stand-ins that do as little as their signature
    allows: the temperature is that of an isothermal problem (300 K), the
    solver takes the total concentrations as the composition of each
    phase, the viscosity is that of water, the relative permeabilities
    are the saturations. *)
Definition flash2p2c : FlashVolumeVariables.TypeTag :=
  {| FlashVolumeVariables.ElementContext := list Scalar;
     FlashVolumeVariables.Problem := unit;
     FlashVolumeVariables.MaterialLawParams := unit;
     FlashVolumeVariables.ParameterCache := unit;
     FlashVolumeVariables.ParameterCache_default := tt;
     FlashVolumeVariables.DiscVolumeVariables := unit;
     FlashVolumeVariables.DiffusionVolumeVariables := unit;
     FlashVolumeVariables.EnergyVolumeVariables := unit;
     FlashVolumeVariables.VelocityVolumeVariables := unit;
     FlashVolumeVariables.cTot0Idx := 0;
     FlashVolumeVariables.numPhases := 2;
     FlashVolumeVariables.numComponents := 2;
     FlashVolumeVariables.FlashTolerance := (-1)%float |}.

#[local] Existing Instance flash2p2c.

Definition flash2p2c_collaborators
    (hint : option (@FlashVolumeVariables.t flash2p2c))
  : @FlashVolumeVariables.Collaborators flash2p2c :=
  {| FlashVolumeVariables.primaryVars := fun elemCtx _ _ => elemCtx;
     FlashVolumeVariables.problem := fun _ => tt;
     FlashVolumeVariables.baseEpsilon := fun _ => 1e-8%float;
     FlashVolumeVariables.thermodynamicHint := fun _ _ _ => hint;
     FlashVolumeVariables.materialLawParams := fun _ _ _ _ => Ok tt;
     FlashVolumeVariables.porosity_of := fun _ _ _ _ => Ok 0.3%float;
     FlashVolumeVariables.intrinsicPermeability_of :=
       fun _ _ _ _ => Ok (isotropic 2 1e-12%float);
     FlashVolumeVariables.ParentType_update := fun v _ _ _ => v;
     FlashVolumeVariables.updateTemperatures_ :=
       fun energy fs _ _ _ => (energy, FlashVolumeVariables.setTemperature fs 300%float);
     FlashVolumeVariables.Energy_update_ := fun energy fs pc _ _ _ => (energy, fs, pc);
     FlashVolumeVariables.Diffusion_update_ :=
       fun diffusion fs pc _ _ _ => (diffusion, fs, pc);
     FlashVolumeVariables.Velocity_update_ := fun v _ _ _ => v;
     FlashVolumeVariables.guessInitial := fun fs pc cTotal => (fs, pc);
     FlashVolumeVariables.solve := fun fs pc _ cTotal _ =>
       ({| FlashVolumeVariables.temperature_ := FlashVolumeVariables.temperature_ fs;
           FlashVolumeVariables.pressure_ := FlashVolumeVariables.pressure_ fs;
           FlashVolumeVariables.saturation_ := FlashVolumeVariables.saturation_ fs;
           FlashVolumeVariables.moleFraction_ := [cTotal; cTotal];
           FlashVolumeVariables.density_ := FlashVolumeVariables.density_ fs;
           FlashVolumeVariables.viscosity_ := FlashVolumeVariables.viscosity_ fs;
           FlashVolumeVariables.enthalpy_ := FlashVolumeVariables.enthalpy_ fs |}, pc);
     FlashVolumeVariables.viscosity := fun _ _ _ => 1e-3%float;
     FlashVolumeVariables.relativePermeabilities :=
       fun _ _ fs => FlashVolumeVariables.saturation_ fs |}.

(** The same, for a problem that leaves [porosity] as
    [MultiPhaseBaseProblem] defines it. *)
Definition flash2p2c_porosity_missing : @FlashVolumeVariables.Collaborators flash2p2c :=
  let c := flash2p2c_collaborators None in
  {| FlashVolumeVariables.primaryVars := FlashVolumeVariables.primaryVars;
     FlashVolumeVariables.problem := FlashVolumeVariables.problem;
     FlashVolumeVariables.baseEpsilon := FlashVolumeVariables.baseEpsilon;
     FlashVolumeVariables.thermodynamicHint := FlashVolumeVariables.thermodynamicHint;
     FlashVolumeVariables.materialLawParams := FlashVolumeVariables.materialLawParams;
     FlashVolumeVariables.porosity_of := fun _ _ _ _ =>
       OPM_THROW std_logic_error "Not implemented: Problem::porosity()";
     FlashVolumeVariables.intrinsicPermeability_of :=
       FlashVolumeVariables.intrinsicPermeability_of;
     FlashVolumeVariables.ParentType_update := FlashVolumeVariables.ParentType_update;
     FlashVolumeVariables.updateTemperatures_ := FlashVolumeVariables.updateTemperatures_;
     FlashVolumeVariables.Energy_update_ := FlashVolumeVariables.Energy_update_;
     FlashVolumeVariables.Diffusion_update_ := FlashVolumeVariables.Diffusion_update_;
     FlashVolumeVariables.Velocity_update_ := FlashVolumeVariables.Velocity_update_;
     FlashVolumeVariables.guessInitial := FlashVolumeVariables.guessInitial;
     FlashVolumeVariables.solve := FlashVolumeVariables.solve;
     FlashVolumeVariables.viscosity := FlashVolumeVariables.viscosity;
     FlashVolumeVariables.relativePermeabilities :=
       FlashVolumeVariables.relativePermeabilities |}.

(** The same, for a problem that defines [porosity] and leaves
    [intrinsicPermeability] as [MultiPhaseBaseProblem] defines it. *)
Definition flash2p2c_permeability_missing : @FlashVolumeVariables.Collaborators flash2p2c :=
  let c := flash2p2c_collaborators None in
  {| FlashVolumeVariables.primaryVars := FlashVolumeVariables.primaryVars;
     FlashVolumeVariables.problem := FlashVolumeVariables.problem;
     FlashVolumeVariables.baseEpsilon := FlashVolumeVariables.baseEpsilon;
     FlashVolumeVariables.thermodynamicHint := FlashVolumeVariables.thermodynamicHint;
     FlashVolumeVariables.materialLawParams := FlashVolumeVariables.materialLawParams;
     FlashVolumeVariables.porosity_of := FlashVolumeVariables.porosity_of;
     FlashVolumeVariables.intrinsicPermeability_of := fun _ _ _ _ =>
       OPM_THROW std_logic_error "Not implemented: Problem::intrinsicPermeability()";
     FlashVolumeVariables.ParentType_update := FlashVolumeVariables.ParentType_update;
     FlashVolumeVariables.updateTemperatures_ := FlashVolumeVariables.updateTemperatures_;
     FlashVolumeVariables.Energy_update_ := FlashVolumeVariables.Energy_update_;
     FlashVolumeVariables.Diffusion_update_ := FlashVolumeVariables.Diffusion_update_;
     FlashVolumeVariables.Velocity_update_ := FlashVolumeVariables.Velocity_update_;
     FlashVolumeVariables.guessInitial := FlashVolumeVariables.guessInitial;
     FlashVolumeVariables.solve := FlashVolumeVariables.solve;
     FlashVolumeVariables.viscosity := FlashVolumeVariables.viscosity;
     FlashVolumeVariables.relativePermeabilities :=
       FlashVolumeVariables.relativePermeabilities |}.



(** A fluid state: 280 K, both phases at 1e5 Pa, the first phase alone. *)
Definition coldFluidState : FlashVolumeVariables.FluidState :=
  {| FlashVolumeVariables.temperature_ := 280%float;
     FlashVolumeVariables.pressure_ := [1e5; 1e5]%float;
     FlashVolumeVariables.saturation_ := [1; 0]%float;
     FlashVolumeVariables.moleFraction_ := [[1; 0]; [1; 0]]%float;
     FlashVolumeVariables.density_ := [1000; 1]%float;
     FlashVolumeVariables.viscosity_ := [1e-3; 1e-5]%float;
     FlashVolumeVariables.enthalpy_ := [0; 0]%float |}.

(** Volume variables that hold [coldFluidState]. *)
Definition coldVolumeVariables : @FlashVolumeVariables.t flash2p2c :=
  {| FlashVolumeVariables.parentType := tt;
     FlashVolumeVariables.diffusionVolumeVariables := tt;
     FlashVolumeVariables.energyVolumeVariables := tt;
     FlashVolumeVariables.velocityVolumeVariables := tt;
     FlashVolumeVariables.fluidState_ := coldFluidState;
     FlashVolumeVariables.porosity_ := 0%float;
     FlashVolumeVariables.intrinsicPerm_ := isotropic 2 0%float;
     FlashVolumeVariables.relativePermeability_ := [0; 0]%float |}.


(** A black-oil output set-up in which only the gas dissolution factor is
    written.  The element context lists, for each of its degrees of
    freedom, the mass fraction of gas in oil and the global index; the oil
    phase and component have index 0, gas has index 1; the reference
    densities are 800 and 1; a buffer is resized to four entries. *)
Definition blackOilRs : VtkBlackOilModule.TypeTag :=
  {| VtkBlackOilModule.ElementContext := list (Scalar * Z);
     VtkBlackOilModule.Evaluation := Scalar;
     VtkBlackOilModule.Toolbox_value := fun x => x;
     VtkBlackOilModule.VtkWriteGasDissolutionFactor := true;
     VtkBlackOilModule.VtkWriteSaturatedOilGasDissolutionFactor := false;
     VtkBlackOilModule.VtkWriteGasFormationVolumeFactor := false;
     VtkBlackOilModule.VtkWriteOilFormationVolumeFactor := false;
     VtkBlackOilModule.VtkWriteOilSaturationPressure := false;
     VtkBlackOilModule.oilPhaseIdx := 0;
     VtkBlackOilModule.gasPhaseIdx := 1;
     VtkBlackOilModule.gasCompIdx := 1;
     VtkBlackOilModule.oilCompIdx := 0;
     VtkBlackOilModule.referenceDensity :=
       fun phaseIdx _ => if decide (phaseIdx = 0) then 800%float else 1%float;
     VtkBlackOilModule.gasDissolutionFactor := fun _ _ _ => 0%float;
     VtkBlackOilModule.gasFormationVolumeFactor := fun _ _ _ _ => 0%float;
     VtkBlackOilModule.saturatedOilFormationVolumeFactor := fun _ _ _ => 0%float;
     VtkBlackOilModule.oilSaturationPressure := fun _ _ _ => 0%float;
     VtkBlackOilModule.numPrimaryDof := fun elemCtx _ => Z.of_nat (length elemCtx);
     VtkBlackOilModule.fs_pressure := fun _ _ _ _ => 1e5%float;
     VtkBlackOilModule.fs_temperature := fun _ _ _ _ => 300%float;
     VtkBlackOilModule.fs_massFraction := fun elemCtx dofIdx _ phaseIdx compIdx =>
       match elemCtx !! Z.to_nat dofIdx with
       | Some (X_oG, _) =>
           if decide (phaseIdx = 0 /\ compIdx = 1) then X_oG else 0%float
       | None => 0%float
       end;
     VtkBlackOilModule.globalSpaceIndex := fun elemCtx dofIdx _ =>
       match elemCtx !! Z.to_nat dofIdx with
       | Some (_, globalDofIdx) => globalDofIdx
       | None => -1
       end;
     VtkBlackOilModule.pvtRegionIndex := fun _ _ _ => 0;
     VtkBlackOilModule.resizeScalarBuffer_ := fun _ => replicate 4 0%float |}.

(** The same set-up with each of the five parameters as given, and a
    fluid system whose four quantities are stand-ins that tell the
    arguments apart. *)
Definition blackOilWith (R_s R_s_sat B_g B_o p_sat : bool) : VtkBlackOilModule.TypeTag :=
  {| VtkBlackOilModule.ElementContext := list (Scalar * Z);
     VtkBlackOilModule.Evaluation := Scalar;
     VtkBlackOilModule.Toolbox_value := fun x => x;
     VtkBlackOilModule.VtkWriteGasDissolutionFactor := R_s;
     VtkBlackOilModule.VtkWriteSaturatedOilGasDissolutionFactor := R_s_sat;
     VtkBlackOilModule.VtkWriteGasFormationVolumeFactor := B_g;
     VtkBlackOilModule.VtkWriteOilFormationVolumeFactor := B_o;
     VtkBlackOilModule.VtkWriteOilSaturationPressure := p_sat;
     VtkBlackOilModule.oilPhaseIdx := 0;
     VtkBlackOilModule.gasPhaseIdx := 1;
     VtkBlackOilModule.gasCompIdx := 1;
     VtkBlackOilModule.oilCompIdx := 0;
     VtkBlackOilModule.referenceDensity :=
       fun phaseIdx _ => if decide (phaseIdx = 0) then 800%float else 1%float;
     VtkBlackOilModule.gasDissolutionFactor := fun To po _ => (po / To)%float;
     VtkBlackOilModule.gasFormationVolumeFactor := fun To po _ _ => (To / po)%float;
     VtkBlackOilModule.saturatedOilFormationVolumeFactor := fun To _ _ => To;
     VtkBlackOilModule.oilSaturationPressure := fun _ X_oG _ => (1e7 * X_oG)%float;
     VtkBlackOilModule.numPrimaryDof := fun elemCtx _ => Z.of_nat (length elemCtx);
     VtkBlackOilModule.fs_pressure := fun _ _ _ _ => 1e5%float;
     VtkBlackOilModule.fs_temperature := fun _ _ _ _ => 300%float;
     VtkBlackOilModule.fs_massFraction := fun elemCtx dofIdx _ phaseIdx compIdx =>
       match elemCtx !! Z.to_nat dofIdx with
       | Some (X_oG, _) =>
           if decide (phaseIdx = 0 /\ compIdx = 1) then X_oG else 0%float
       | None => 0%float
       end;
     VtkBlackOilModule.globalSpaceIndex := fun elemCtx dofIdx _ =>
       match elemCtx !! Z.to_nat dofIdx with
       | Some (_, globalDofIdx) => globalDofIdx
       | None => -1
       end;
     VtkBlackOilModule.pvtRegionIndex := fun _ _ _ => 0;
     VtkBlackOilModule.resizeScalarBuffer_ := fun _ => replicate 4 0%float |}.

Definition blackOilAll : VtkBlackOilModule.TypeTag :=
  blackOilWith true true true true true.
Definition blackOilNone : VtkBlackOilModule.TypeTag :=
  blackOilWith false false false false false.

(** The module before [allocBuffers]: every buffer is empty. *)
Definition emptyModule : VtkBlackOilModule.t :=
  {| VtkBlackOilModule.gasDissolutionFactor_ := [];
     VtkBlackOilModule.saturatedOilGasDissolutionFactor_ := [];
     VtkBlackOilModule.gasFormationVolumeFactor_ := [];
     VtkBlackOilModule.saturatedOilFormationVolumeFactor_ := [];
     VtkBlackOilModule.oilSaturationPressure_ := [] |}.

(** A writer of another class than [VtkMultiWriter], and a VTK writer. *)
Definition otherWriter : VtkBlackOilModule.BaseOutputWriter :=
  {| VtkBlackOilModule.isVtkMultiWriter := false;
     VtkBlackOilModule.committed := [] |}.
Definition vtkWriter : VtkBlackOilModule.BaseOutputWriter :=
  {| VtkBlackOilModule.isVtkMultiWriter := true;
     VtkBlackOilModule.committed := [] |}.

(** A Stokes model on a grid of two elements that share a vertex.  An
    element is the list of the global indices of its vertices; the primary
    variables of a vertex are its pressure, which the volume variables
    take over. *)
Definition stokes1d : Stokes2cniModel.TypeTag :=
  {| Stokes2cniModel.Problem := unit;
     Stokes2cniModel.Element := list Z;
     Stokes2cniModel.PrimaryVariables := Scalar;
     Stokes2cniModel.FVElementGeometry := unit;
     Stokes2cniModel.ElementBoundaryTypes := unit;
     Stokes2cniModel.VolumeVariables := Scalar;
     Stokes2cniModel.dim := 1;
     Stokes2cniModel.phaseIdx := 0;
     Stokes2cniModel.lCompIdx := 0;
     Stokes2cniModel.FVElementGeometry_default := tt;
     Stokes2cniModel.ElementBoundaryTypes_default := tt;
     Stokes2cniModel.VolumeVariables_default := 0%float;
     Stokes2cniModel.count_dim := fun element => Z.of_nat (length element);
     Stokes2cniModel.FVElementGeometry_update := fun g _ => g;
     Stokes2cniModel.ElementBoundaryTypes_update := fun b _ _ _ => b;
     Stokes2cniModel.VolumeVariables_update := fun _ priVars _ _ _ _ _ => priVars;
     Stokes2cniModel.pressure := fun volVars => volVars;
     Stokes2cniModel.massFraction := fun _ _ _ => 0%float;
     Stokes2cniModel.temperature := fun _ => 300%float;
     Stokes2cniModel.density := fun _ => 1%float;
     Stokes2cniModel.viscosity := fun _ => 1e-5%float;
     Stokes2cniModel.enthalpy := fun _ => 0%float;
     Stokes2cniModel.velocity := fun _ => [0%float] |}.

#[local] Existing Instance stokes1d.

Definition stokesModel : @Stokes2cniModel.t stokes1d :=
  {| Stokes2cniModel.gridView_ :=
       {| Stokes2cniModel.elements := [[0; 1]; [1; 2]];
          Stokes2cniModel.size_dim := 3;
          Stokes2cniModel.size_0 := 2;
          Stokes2cniModel.comm_rank := 0%float |};
     Stokes2cniModel.problem_ := tt;
     Stokes2cniModel.elementMapper_map := fun element =>
       match element with
       | globalIdx :: _ => globalIdx
       | [] => -1
       end;
     Stokes2cniModel.vertexMapper_map := fun element vertexIdx =>
       match element !! Z.to_nat vertexIdx with
       | Some globalIdx => globalIdx
       | None => -1
       end |}.

(** The same model on a grid view that counts a fourth vertex, which no
    element has. *)
Definition stokesModelSpare : @Stokes2cniModel.t stokes1d :=
  {| Stokes2cniModel.gridView_ :=
       {| Stokes2cniModel.elements := [[0; 1]; [1; 2]];
          Stokes2cniModel.size_dim := 4;
          Stokes2cniModel.size_0 := 2;
          Stokes2cniModel.comm_rank := 0%float |};
     Stokes2cniModel.problem_ := tt;
     Stokes2cniModel.elementMapper_map := Stokes2cniModel.elementMapper_map stokesModel;
     Stokes2cniModel.vertexMapper_map := Stokes2cniModel.vertexMapper_map stokesModel |}.

Definition stokesMemory : Stokes2cniModel.Memory :=
  {| Stokes2cniModel.junk_scalar := fun _ _ => 7%float;
     Stokes2cniModel.junk_vector := fun _ => [7%float] |}.

Definition emptyWriter : Stokes2cniModel.MultiWriter :=
  {| Stokes2cniModel.vertexData := [] |}.

(** The injection problem on a domain 60 m wide and 40 m high, the bottom
    of the reservoir 800 m deep, as its constructor leaves it. *)
Definition injection2d : InjectionProblem.t :=
  {| InjectionProblem.outerLowerLeft_ := [0; 0]%float;
     InjectionProblem.outerUpperRight_ := [60; 40]%float;
     InjectionProblem.innerLowerLeft_ := [0; 0]%float;
     InjectionProblem.innerUpperRight_ := [0; 0]%float;
     InjectionProblem.width_ := (60 - 0)%float;
     InjectionProblem.height_ := (40 - 0)%float;
     InjectionProblem.depthBOR_ := 800%float;
     InjectionProblem.eps_ := (1e-8 * 60)%float;
     InjectionProblem.gravity_ := [0; -9.81]%float |}.

(** A problem on [twoPhase2d] whose permeability is isotropic and differs
    between the finite volume 0 and the others, and a stand-in for
    [Opm::harmonicMean]. *)
Definition layeredProblem : @MultiPhaseBaseProblem.Implementation twoPhase2d :=
  {| MultiPhaseBaseProblem.impl_intrinsicPermeability := fun _ spaceIdx _ =>
       Ok (if decide (spaceIdx = 0) then [[1; 0]; [0; 1]]%float
           else [[3; 0]; [0; 3]]%float);
     MultiPhaseBaseProblem.impl_temperature := Ok 300%float;
     MultiPhaseBaseProblem.impl_gravity := MultiPhaseBaseProblem.gravity |}.

Definition mean (x y : Scalar) : Scalar := (2 * x * y / (x + y))%float.

(** A grid of two interior elements, the second one refined twice, with
    no mark set; an element context that shows two degrees of freedom per
    element, with a saturation front in the element 0 and a uniform
    saturation in the element 1; and the problem object on it. *)
Definition twoElements : MultiPhaseBaseProblem.Grid :=
  {| MultiPhaseBaseProblem.interiorElements :=
       [ {| MultiPhaseBaseProblem.elementIndex := 0;
            MultiPhaseBaseProblem.level := 0 |};
         {| MultiPhaseBaseProblem.elementIndex := 1;
            MultiPhaseBaseProblem.level := 2 |} ];
     MultiPhaseBaseProblem.marks := ∅ |}.

#[local] Existing Instance twoPhase2d.

Definition frontSimulator : @MultiPhaseBaseProblem.Simulator twoPhase2d :=
  {| MultiPhaseBaseProblem.numDof := fun _ => 2%nat;
     MultiPhaseBaseProblem.saturation := fun element dofIdx phaseIdx =>
       (match MultiPhaseBaseProblem.elementIndex element, dofIdx with
        | O, O => if decide (phaseIdx = 0%nat) then 0.1%float else 0.9%float
        | O, _ => if decide (phaseIdx = 0%nat) then 0.9%float else 0.1%float
        | _, _ => 0.5%float
        end : Scalar);
     MultiPhaseBaseProblem.comm_sum := fun numMarked => numMarked |}.

(** An element context that shows no degree of freedom in any element. *)
Definition noDofSimulator : @MultiPhaseBaseProblem.Simulator twoPhase2d :=
  {| MultiPhaseBaseProblem.numDof := fun _ => 0%nat;
     MultiPhaseBaseProblem.saturation := fun _ _ _ => (0.5%float : Scalar);
     MultiPhaseBaseProblem.comm_sum := fun numMarked => numMarked |}.

Definition twoPhaseProblem : @MultiPhaseBaseProblem.t twoPhase2d :=
  {| MultiPhaseBaseProblem.parent := tt;
     MultiPhaseBaseProblem.gravity_ := [0; -9.81]%float |}.

End Examples.

(* ===================================================================== *)
(** * Lemmas on the C++ layer                                             *)
(* ===================================================================== *)

Section CxxFacts.

Lemma at_Some {A} (v : list A) (i : nat) (a : A) :
  v !! i = Some a -> at_ v (Z.of_nat i) = Ok a.
Proof.
  intros Hv. unfold at_.
  destruct (decide (0 <= Z.of_nat i)) as [_|Hneg]; [|lia].
  by rewrite Nat2Z.id, Hv.
Qed.

Lemma at_Ok {A} (v : list A) (i : Z) (a : A) :
  at_ v i = Ok a -> 0 <= i /\ v !! Z.to_nat i = Some a.
Proof.
  unfold at_. destruct (decide (0 <= i)); [|done].
  destruct (v !! Z.to_nat i) eqn:Hv; [|done].
  intros [= ->]. done.
Qed.

Lemma store_Ok {A} (v : list A) (i : Z) (a : A) (v' : list A) :
  store v i a = Ok v' ->
  0 <= i < Z.of_nat (length v) /\ v' = <[Z.to_nat i := a]> v.
Proof.
  unfold store. destruct (decide _); [|done]. intros [= <-]. done.
Qed.

Lemma store_in_range {A} (v : list A) (i : nat) (a : A) :
  (i < length v)%nat -> store v (Z.of_nat i) a = Ok (<[i := a]> v).
Proof.
  intros Hi. unfold store.
  destruct (decide _) as [_|Hout]; [|lia].
  by rewrite Nat2Z.id.
Qed.

Lemma length_assign_scalar (v : FieldVector) (c : Scalar) :
  length (assign_scalar v c) = length v.
Proof. unfold assign_scalar. apply length_fmap. Qed.

Lemma length_indeterminate_vector (n : nat) (junk : nat -> Scalar) :
  length (indeterminate_vector n junk) = n.
Proof. unfold indeterminate_vector. by rewrite length_fmap, length_seq. Qed.

Lemma lookup_assign_scalar (v : FieldVector) (c : Scalar) (i : nat) :
  (i < length v)%nat -> assign_scalar v c !! i = Some c.
Proof.
  intros Hi. unfold assign_scalar. rewrite list_lookup_fmap.
  destruct (lookup_lt_is_Some_2 v i Hi) as [x ->]. done.
Qed.

End CxxFacts.

(* ===================================================================== *)
(** * MultiPhaseBaseProblem: the default accessors and gravity            *)
(* ===================================================================== *)

Section MultiPhaseBaseProblemFacts.
Import MultiPhaseBaseProblem.
Context `{TypeTag}.

Lemma invoke_gravity_ (sim : Simulator) (m : method) (w : t * Grid) :
  gravity_ (fst (invoke sim m w)) = gravity_ (fst w).
Proof.
  destruct m; try reflexivity.
  simpl. unfold markForGridAdaptation.
  destruct (fold_left _ _ _) as [numMarked grid']. reflexivity.
Qed.

Lemma invoke_all_gravity_ (sim : Simulator) (ms : list method) (w : t * Grid) :
  gravity_ (fst (invoke_all sim ms w)) = gravity_ (fst w).
Proof.
  unfold invoke_all. revert w.
  induction ms as [|m ms IH]; intros w; [reflexivity|].
  simpl. rewrite IH. apply invoke_gravity_.
Qed.

Lemma init_gravity_ (this : t) :
  (0 < dimWorld)%nat ->
  length (gravity_ this) = dimWorld ->
  exists this',
    init_ this = Ok this' /\
    parent this' = parent this /\
    gravity_ this' =
      if EnableGravity
      then <[(dimWorld - 1)%nat := (-9.81)%float]> (replicate dimWorld 0%float)
      else replicate dimWorld 0%float.
Proof.
  intros Hdim Hlen. unfold init_.
  assert (Hzero : assign_scalar (gravity_ this) 0%float = replicate dimWorld 0%float).
  { unfold assign_scalar. rewrite <- Hlen. clear.
    induction (gravity_ this) as [|x v IH]; [done|]. simpl. by f_equal. }
  rewrite Hzero.
  destruct EnableGravity.
  - replace (Z.of_nat dimWorld - 1) with (Z.of_nat (dimWorld - 1)) by lia.
    rewrite store_in_range by (rewrite length_replicate; lia).
    simpl. eexists. split; [reflexivity|]. done.
  - eexists. split; [reflexivity|]. done.
Qed.

(** C6.  Called on [MultiPhaseBaseProblem] itself, each of
    [intrinsicPermeability], [porosity], [heatCapacitySolid],
    [heatConductionParams], [tortuosity], [dispersivity] and [temperature()]
    throws a [std::logic_error], whatever the arguments; so does
    [temperature(context, spaceIdx, timeIdx)] of a problem that does not
    override [temperature()].  [materialLawParams] does not throw: for all
    arguments it returns the one static object [dummy], which is a
    default-constructed [MaterialLawParams]. *)
Theorem default_accessors_throw_logic_error :
  (forall (context : Context_) (spaceIdx timeIdx : Z),
     throws std_logic_error (intrinsicPermeability context spaceIdx timeIdx) /\
     throws std_logic_error (porosity context spaceIdx timeIdx) /\
     throws std_logic_error (heatCapacitySolid context spaceIdx timeIdx) /\
     throws std_logic_error (heatConductionParams context spaceIdx timeIdx) /\
     throws std_logic_error (tortuosity context spaceIdx timeIdx) /\
     throws std_logic_error (dispersivity context spaceIdx timeIdx) /\
     throws std_logic_error (temperature_at not_overridden context spaceIdx timeIdx) /\
     materialLawParams context spaceIdx timeIdx = Ok dummy) /\
  throws std_logic_error temperature /\
  dummy = MaterialLawParams_default.
Proof.
  split; [|split].
  - intros context spaceIdx timeIdx.
    repeat split; try (eexists; reflexivity).
  - eexists; reflexivity.
  - reflexivity.
Qed.

(** C10.  After the constructor has run, [gravity()] has [dimWorld]
    components; each is zero, except that with [EnableGravity] the last one
    (index [dimWorld - 1]) is -9.81.  No sequence of calls of the public
    member functions changes the vector. *)
Theorem gravity_after_construction (parentObject : FvBaseProblem) (junk : nat -> Scalar) :
  (0 < dimWorld)%nat ->
  exists this,
    constructor parentObject junk = Ok this /\
    length (gravity this) = dimWorld /\
    (forall i, (i < dimWorld)%nat ->
       gravity this !! i =
         Some (if EnableGravity && bool_decide (i = (dimWorld - 1)%nat)
               then (-9.81)%float else 0%float)) /\
    (forall (sim : Simulator) (ms : list method) (grid : Grid),
       gravity (fst (invoke_all sim ms (this, grid))) = gravity this).
Proof.
  intros Hdim. unfold constructor.
  destruct (init_gravity_
              {| parent := parentObject;
                 gravity_ := indeterminate_vector dimWorld junk |} Hdim)
    as (this & Hinit & _ & Hg).
  { apply length_indeterminate_vector. }
  exists this. split; [exact Hinit|]. unfold gravity.
  split; [|split].
  - rewrite Hg. destruct EnableGravity;
      [rewrite length_insert|]; apply length_replicate.
  - intros i Hi. rewrite Hg. destruct EnableGravity; simpl.
    + case_bool_decide as Hlast.
      * subst i. apply list_lookup_insert_eq. rewrite length_replicate. lia.
      * rewrite list_lookup_insert_ne by done.
        apply lookup_replicate_2. lia.
    + apply lookup_replicate_2. lia.
  - intros sim ms grid. apply (invoke_all_gravity_ sim ms (this, grid)).
Qed.

End MultiPhaseBaseProblemFacts.

Lemma gravity_after_construction_witness :
  exists this,
    MultiPhaseBaseProblem.constructor (H := Examples.twoPhase2d) tt (fun _ => 1.5%float)
      = Ok this /\
    MultiPhaseBaseProblem.gravity this = [0%float; (-9.81)%float].
Proof.
  destruct (gravity_after_construction (H := Examples.twoPhase2d)
              tt (fun _ => 1.5%float) ltac:(simpl; lia))
    as (this & Hc & Hlen & Hg & _).
  exists this. split; [exact Hc|].
  pose proof (Hg 0%nat ltac:(simpl; lia)) as H0.
  pose proof (Hg 1%nat ltac:(simpl; lia)) as H1.
  simpl in Hlen, H0, H1.
  destruct (MultiPhaseBaseProblem.gravity this) as [|a [|b [|c v]]];
    simpl in *; try discriminate.
  injection H0 as ->. injection H1 as ->. reflexivity.
Defined.

(* ===================================================================== *)
(** * FlashVolumeVariables: what [update] calls and what it leaves        *)
(* ===================================================================== *)

Section FlashVolumeVariablesFacts.
Import FlashVolumeVariables.
Context `{Collaborators}.

Lemma setViscosities_run (paramCache : ParameterCache) (r : run) :
  setViscosities paramCache r =
  (Ok tt,
   {| object :=
        set_fluidState_ (with_viscosities paramCache (fluidState_ (object r))) (object r);
      calls := calls r ++ (viscosity_call <$> seq 0 numPhases) |}).
Proof.
  unfold setViscosities, with_viscosities, for_.
  generalize 0%nat as start. generalize numPhases as n.
  intros n. revert r. induction n as [|n IH]; intros r start.
  - simpl. destruct r as [[] cs]. simpl. rewrite app_nil_r. reflexivity.
  - simpl. unfold mbind at 1. unfold stateful_bind. simpl.
    rewrite IH. simpl. rewrite <- app_assoc. reflexivity.
Qed.




End FlashVolumeVariablesFacts.

Section FlashVolumeVariablesRun.
Import FlashVolumeVariables.
Context `{Collaborators}.
Context (elemCtx : ElementContext) (dofIdx timeIdx : Z) (o : t).
Context (cTotal : ComponentVector) (materialParams : MaterialLawParams).
Hypothesis HcTotal : extract_cTotal (primaryVars elemCtx dofIdx timeIdx) = Ok cTotal.
Hypothesis HmaterialParams :
  materialLawParams (problem elemCtx) elemCtx dofIdx timeIdx = Ok materialParams.

Ltac run_update :=
  unfold run_update, update;
  unfold mbind, stateful_bind, mret, stateful_ret, log, write, this, modify, lift;
  simpl;
  unfold flash_finished, flash_solved, flash_start;
  destruct (updateTemperatures_ _ _ _ _ _) as [energy fs1];
  rewrite HcTotal; simpl;
  destruct (thermodynamicHint elemCtx dofIdx timeIdx) as [hint|]; simpl;
  [|destruct (guessInitial _ _ _) as [fs2 pc2]; simpl];
  rewrite HmaterialParams; simpl;
  destruct (solve _ _ _ _ _) as [fs3 pc3]; simpl;
  rewrite setViscosities_run; simpl;
  destruct (porosity_of _ _ _ _) as [phi| |]; simpl;
  try destruct (intrinsicPermeability_of _ _ _ _) as [K| |]; simpl;
  try destruct (Energy_update_ _ _ _ _ _ _) as [[energy' fs4] pc4]; simpl;
  try destruct (Diffusion_update_ _ _ _ _ _ _) as [[diffusion' fs5] pc5]; simpl.

(** [update] returns normally exactly when the problem hands out the
    porosity and the intrinsic permeability. *)
Lemma update_result :
  fst (run_update elemCtx dofIdx timeIdx o) =
  (porosity_of (problem elemCtx) elemCtx dofIdx timeIdx ≫= fun _ =>
   intrinsicPermeability_of (problem elemCtx) elemCtx dofIdx timeIdx ≫= fun _ =>
   Ok tt).
Proof. run_update; reflexivity. Qed.

(** The calls of a run, in order. *)
Lemma update_calls :
  let fs := flash_finished elemCtx dofIdx timeIdx o cTotal materialParams in
  let solved := flash_solved elemCtx dofIdx timeIdx o cTotal materialParams in
  let energy :=
    fst (updateTemperatures_ (energyVolumeVariables o) (fluidState_ o)
           elemCtx dofIdx timeIdx) in
  calls (snd (run_update elemCtx dofIdx timeIdx o)) =
  [ParentType_update_call elemCtx dofIdx timeIdx;
   updateTemperatures_call elemCtx dofIdx timeIdx]
  ++ match thermodynamicHint elemCtx dofIdx timeIdx with
     | Some _ => []
     | None => [guessInitial_call cTotal]
     end
  ++ [materialLawParams_call elemCtx dofIdx timeIdx;
      solve_call (fst (flash_start elemCtx dofIdx timeIdx o cTotal)) materialParams cTotal
        (flashTolerance_of elemCtx)]
  ++ (viscosity_call <$> seq 0 numPhases)
  ++ [relativePermeabilities_call materialParams fs;
      porosity_call elemCtx dofIdx timeIdx]
  ++ (if is_Ok (porosity_of (problem elemCtx) elemCtx dofIdx timeIdx)
      then [intrinsicPermeability_call elemCtx dofIdx timeIdx] else [])
  ++ (if is_Ok (fst (run_update elemCtx dofIdx timeIdx o))
      then [Velocity_update_call elemCtx dofIdx timeIdx;
            Energy_update_call fs;
            Diffusion_update_call
              (snd (fst (Energy_update_ energy fs (snd solved) elemCtx dofIdx timeIdx)))]
      else []).
Proof.
  intros fs solved energy. rewrite update_result. subst fs solved energy.
  run_update. all: rewrite <- ?app_assoc. all: simpl. all: try reflexivity.
Qed.


Lemma omap_viscosity_calls (l : list nat) :
  omap closure_step_of (viscosity_call <$> l) = [].
Proof. induction l as [|i l IH]; [done|]. simpl. exact IH. Qed.




End FlashVolumeVariablesRun.

Section FlashVolumeVariablesDelegation.
Import FlashVolumeVariables.
Context `{Collaborators}.
Context (elemCtx : ElementContext) (dofIdx timeIdx : Z) (o : t).
Context (cTotal : ComponentVector).
Hypothesis HcTotal : extract_cTotal (primaryVars elemCtx dofIdx timeIdx) = Ok cTotal.

Ltac run_to_materialLawParams :=
  unfold run_update, update;
  unfold mbind, stateful_bind, mret, stateful_ret, log, write, this, modify, lift;
  simpl;
  unfold flash_start;
  destruct (updateTemperatures_ _ _ _ _ _) as [energy fs1];
  rewrite HcTotal; simpl;
  destruct (thermodynamicHint elemCtx dofIdx timeIdx) as [hint|]; simpl;
  [|destruct (guessInitial _ _ _) as [fs2 pc2]; simpl].

(** A run in which the problem does not hand out the material-law
    parameters ends there: with the failure of [materialLawParams], before
    the flash solver is called.  The object holds the fluid state the
    solver would have been entered with; its relative permeabilities, its
    porosity and its permeability are those of before the run. *)
Lemma update_stopped_at_materialLawParams :
  is_Ok (materialLawParams (problem elemCtx) elemCtx dofIdx timeIdx) = false ->
  let r := run_update elemCtx dofIdx timeIdx o in
  fst r = (materialLawParams (problem elemCtx) elemCtx dofIdx timeIdx ≫= fun _ => Ok tt) /\
  calls (snd r) =
    [ParentType_update_call elemCtx dofIdx timeIdx;
     updateTemperatures_call elemCtx dofIdx timeIdx]
    ++ match thermodynamicHint elemCtx dofIdx timeIdx with
       | Some _ => []
       | None => [guessInitial_call cTotal]
       end
    ++ [materialLawParams_call elemCtx dofIdx timeIdx] /\
  fluidState_ (object (snd r)) = fst (flash_start elemCtx dofIdx timeIdx o cTotal) /\
  relativePermeability_ (object (snd r)) = relativePermeability_ o /\
  porosity_ (object (snd r)) = porosity_ o /\
  intrinsicPerm_ (object (snd r)) = intrinsicPerm_ o.
Proof.
  intros Hfails r. subst r. run_to_materialLawParams.
  all: destruct (materialLawParams _ _ _ _) as [mp|e|]; [discriminate Hfails|..].
  all: simpl; done.
Qed.

(** The relative permeabilities [update] leaves in the object are those the
    material law computes for the fluid state of the flash solver with the
    viscosities set, whether the accessors of the problem that follow throw
    or not. *)
Lemma update_relativePermeability_ (materialParams : MaterialLawParams) :
  materialLawParams (problem elemCtx) elemCtx dofIdx timeIdx = Ok materialParams ->
  relativePermeability_ (object (snd (run_update elemCtx dofIdx timeIdx o))) =
  relativePermeabilities (relativePermeability_ o) materialParams
    (flash_finished elemCtx dofIdx timeIdx o cTotal materialParams).
Proof.
  intros Hmp. unfold flash_finished, flash_solved. run_to_materialLawParams.
  all: rewrite Hmp; simpl.
  all: destruct (solve _ _ _ _ _) as [fs3 pc3]; simpl.
  all: rewrite setViscosities_run; simpl.
  all: destruct (porosity_of _ _ _ _) as [phi| |]; simpl; [|reflexivity..].
  all: destruct (intrinsicPermeability_of _ _ _ _) as [K| |]; simpl; [|reflexivity..].
  all: destruct (Energy_update_ _ _ _ _ _ _) as [[energy' fs4] pc4]; simpl.
  all: destruct (Diffusion_update_ _ _ _ _ _ _) as [[diffusion' fs5] pc5]; simpl.
  all: reflexivity.
Qed.



Lemma update_returned :
  let r := run_update elemCtx dofIdx timeIdx o in
  fst r = Ok tt ->
  exists materialParams,
    materialLawParams (problem elemCtx) elemCtx dofIdx timeIdx = Ok materialParams /\
    porosity_of (problem elemCtx) elemCtx dofIdx timeIdx = Ok (porosity (object (snd r))) /\
    intrinsicPermeability_of (problem elemCtx) elemCtx dofIdx timeIdx
      = Ok (intrinsicPermeability (object (snd r))) /\
    forall phaseIdx,
      relativePermeability (object (snd r)) phaseIdx =
      at_ (relativePermeabilities (relativePermeability_ o) materialParams
             (flash_finished elemCtx dofIdx timeIdx o cTotal materialParams))
        phaseIdx.
Proof.
  intros r Hreturned.
  destruct (materialLawParams (problem elemCtx) elemCtx dofIdx timeIdx)
    as [materialParams|e|] eqn:Hmp.
  - exists materialParams. split; [reflexivity|].
    pose proof (update_relativePermeability_ materialParams Hmp) as Hkr.
    split; [|split]; [| |intros phaseIdx; unfold relativePermeability; subst r;
                            by rewrite Hkr].
    all: subst r; revert Hreturned; unfold porosity, intrinsicPermeability.
    all: run_to_materialLawParams.
    all: rewrite Hmp; simpl.
    all: destruct (solve _ _ _ _ _) as [fs3 pc3]; simpl.
    all: rewrite setViscosities_run; simpl.
    all: destruct (porosity_of _ _ _ _) as [phi| |]; simpl; [|discriminate..].
    all: destruct (intrinsicPermeability_of _ _ _ _) as [K| |]; simpl; [|discriminate..].
    all: destruct (Energy_update_ _ _ _ _ _ _) as [[energy' fs4] pc4]; simpl.
    all: destruct (Diffusion_update_ _ _ _ _ _ _) as [[diffusion' fs5] pc5]; simpl.
    all: reflexivity.
  - destruct update_stopped_at_materialLawParams as (Hr & _); [by rewrite Hmp|].
    rewrite Hmp in Hr. subst r. rewrite Hr in Hreturned. discriminate Hreturned.
  - destruct update_stopped_at_materialLawParams as (Hr & _); [by rewrite Hmp|].
    rewrite Hmp in Hr. subst r. rewrite Hr in Hreturned. discriminate Hreturned.
Qed.

End FlashVolumeVariablesDelegation.

Section FlashVolumeVariablesReturned.
Import FlashVolumeVariables.
Context `{Collaborators}.
Context (elemCtx : ElementContext) (dofIdx timeIdx : Z) (o : t).

(** A run in which a primary variable that [update] reads is out of the
    bounds of the vector does not return normally. *)
Lemma update_stopped_at_cTotal :
  is_Ok (extract_cTotal (primaryVars elemCtx dofIdx timeIdx)) = false ->
  is_Ok (fst (run_update elemCtx dofIdx timeIdx o)) = false.
Proof.
  intros Hfails. unfold run_update, update.
  unfold mbind, stateful_bind, mret, stateful_ret, log, write, this, modify, lift.
  simpl.
  destruct (updateTemperatures_ _ _ _ _ _) as [energy fs1].
  by destruct (extract_cTotal _) as [cTotal|e|].
Qed.

(** When [update] has returned, the problem has handed out the material-law
    parameters, the porosity and the intrinsic permeability, and the
    accessors give them back: [porosity()] the problem's porosity,
    [intrinsicPermeability()] the problem's permeability,
    [relativePermeability(phaseIdx)] the entry of the array that
    [MaterialLaw::relativePermeabilities] filled for the fluid state of
    the flash solver with the viscosities set. *)
Theorem update_then_accessors :
  let r := run_update elemCtx dofIdx timeIdx o in
  fst r = Ok tt ->
  exists cTotal materialParams,
    extract_cTotal (primaryVars elemCtx dofIdx timeIdx) = Ok cTotal /\
    materialLawParams (problem elemCtx) elemCtx dofIdx timeIdx = Ok materialParams /\
    porosity_of (problem elemCtx) elemCtx dofIdx timeIdx = Ok (porosity (object (snd r))) /\
    intrinsicPermeability_of (problem elemCtx) elemCtx dofIdx timeIdx
      = Ok (intrinsicPermeability (object (snd r))) /\
    forall phaseIdx,
      relativePermeability (object (snd r)) phaseIdx =
      at_ (relativePermeabilities (relativePermeability_ o) materialParams
             (flash_finished elemCtx dofIdx timeIdx o cTotal materialParams))
        phaseIdx.
Proof.
  intros r Hreturned.
  destruct (extract_cTotal (primaryVars elemCtx dofIdx timeIdx))
    as [cTotal|e|] eqn:HcTotal.
  - destruct (update_returned elemCtx dofIdx timeIdx o cTotal HcTotal Hreturned)
      as (materialParams & Hrest).
    by exists cTotal, materialParams.
  - pose proof update_stopped_at_cTotal as Hstopped.
    rewrite HcTotal in Hstopped. specialize (Hstopped eq_refl).
    subst r. by rewrite Hreturned in Hstopped.
  - pose proof update_stopped_at_cTotal as Hstopped.
    rewrite HcTotal in Hstopped. specialize (Hstopped eq_refl).
    subst r. by rewrite Hreturned in Hstopped.
Qed.

End FlashVolumeVariablesReturned.





Lemma update_then_accessors_witness :
  FlashVolumeVariables.porosity_of (Collaborators := Examples.flash2p2c_collaborators None)
    tt [0.5; 0.5]%float 0 0
  = Ok (FlashVolumeVariables.porosity
          (FlashVolumeVariables.object
             (snd (FlashVolumeVariables.run_update
                     (H0 := Examples.flash2p2c_collaborators None)
                     [0.5; 0.5]%float 0 0 Examples.coldVolumeVariables)))).
Proof.
  destruct (update_then_accessors (H0 := Examples.flash2p2c_collaborators None)
              [0.5; 0.5]%float 0 0 Examples.coldVolumeVariables eq_refl)
    as (cTotal & materialParams & _ & _ & Hphi & _).
  exact Hphi.
Defined.


Section FlashVolumeVariablesAccessors.
Import FlashVolumeVariables.
Context `{Collaborators}.

Lemma invoke_read (m : method) (o : t) :
  is_update m = false -> snd (invoke m o) = o.
Proof. destruct m; simpl; [discriminate|done..]. Qed.

Lemma invoke_all_reads (ms : list method) (o : t) :
  Forall (fun m => is_update m = false) ms -> invoke_all ms o = o.
Proof.
  unfold invoke_all. induction 1 as [|m ms Hm _ IH]; [reflexivity|].
  simpl. rewrite (invoke_read m o Hm). exact IH.
Qed.

Lemma invoke_all_app (ms1 ms2 : list method) (o : t) :
  invoke_all (ms1 ++ ms2) o = invoke_all ms2 (invoke_all ms1 o).
Proof. unfold invoke_all. apply fold_left_app. Qed.

(** C4.  [fluidState()] hands out the fluid state stored in the instance
    itself.  None of [fluidState], [intrinsicPermeability],
    [relativePermeability], [mobility] and [porosity] changes the instance,
    so whatever is read, and however often, between two calls of [update],
    the second call finds the instance exactly as the first one left it. *)
Theorem read_accessors_leave_instance (o : t) :
  fst (invoke m_fluidState o) = Ok (v_FluidState (fluidState_ o)) /\
  (forall m, is_update m = false -> snd (invoke m o) = o) /\
  (forall ms, Forall (fun m => is_update m = false) ms -> invoke_all ms o = o) /\
  (forall first second ms,
     Forall (fun m => is_update m = false) ms ->
     invoke_all ([first] ++ ms ++ [second]) o =
     snd (invoke second (snd (invoke first o)))).
Proof.
  split; [reflexivity|]. split; [intros m; apply invoke_read|].
  split; [intros ms; apply invoke_all_reads|].
  intros first second ms Hms.
  rewrite !invoke_all_app, (invoke_all_reads ms) by exact Hms.
  reflexivity.
Qed.

End FlashVolumeVariablesAccessors.



Lemma read_accessors_leave_instance_witness :
  FlashVolumeVariables.invoke_all
    (H0 := Examples.flash2p2c_collaborators None)
    [FlashVolumeVariables.m_fluidState; FlashVolumeVariables.m_mobility 0;
     FlashVolumeVariables.m_relativePermeability 5; FlashVolumeVariables.m_porosity]
    Examples.coldVolumeVariables =
  Examples.coldVolumeVariables.
Proof.
  apply (proj1 (proj2 (proj2
    (read_accessors_leave_instance
       (H0 := Examples.flash2p2c_collaborators None) Examples.coldVolumeVariables)))).
  repeat constructor.
Defined.


(* ===================================================================== *)
(** * InjectionProblem and InjectionSoil                                  *)
(* ===================================================================== *)

Section TensorFacts.

Lemma set_entry_diagonal_upto (n k : nat) (val : Scalar) :
  (k < n)%nat ->
  set_entry (diagonal_upto n k val) k k val = diagonal_upto n (S k) val.
Proof.
  intros Hk. unfold set_entry, diagonal_upto.
  apply list_eq. intros i.
  destruct (decide (i = k)) as [->|Hik].
  - rewrite list_lookup_alter_eq, !list_lookup_fmap.
    rewrite (lookup_seq_lt 0 n k Hk). simpl. f_equal.
    apply list_eq. intros j.
    destruct (decide (j = k)) as [->|Hjk].
    + rewrite list_lookup_insert_eq by (rewrite length_fmap, length_seq; lia).
      rewrite list_lookup_fmap, (lookup_seq_lt 0 n k Hk). simpl.
      rewrite decide_True by lia. done.
    + rewrite list_lookup_insert_ne by done.
      rewrite !list_lookup_fmap.
      destruct (seq 0 n !! j) as [j'|] eqn:Hj; [|done]. simpl.
      apply lookup_seq in Hj. destruct Hj as [-> _].
      rewrite !decide_False by lia. done.
  - rewrite list_lookup_alter_ne by done.
    rewrite !list_lookup_fmap.
    destruct (seq 0 n !! i) as [i'|] eqn:Hi; [|done]. simpl.
    apply lookup_seq in Hi. destruct Hi as [-> _]. simpl. f_equal.
    apply list_fmap_ext. intros _ j _.
    destruct (decide (i = j /\ (i < k)%nat)), (decide (i = j /\ (i < S k)%nat));
      try done; lia.
Qed.

Lemma diagonal_loop (n k : nat) (val : Scalar) :
  (k <= n)%nat ->
  fold_left (fun m i => set_entry m i i val) (seq 0 k) (diagonal_upto n 0 val)
  = diagonal_upto n k val.
Proof.
  induction k as [|k IH]; intros Hk; [reflexivity|].
  rewrite seq_S, fold_left_app. simpl.
  rewrite IH by lia. apply set_entry_diagonal_upto. lia.
Qed.

Lemma diagonal_upto_all (n : nat) (val : Scalar) :
  diagonal_upto n n val = isotropic n val.
Proof.
  unfold diagonal_upto, isotropic.
  apply list_fmap_ext. intros idx i Hi. apply lookup_seq in Hi. destruct Hi as [-> Hlt].
  apply list_fmap_ext. intros _ j _. simpl.
  destruct (decide (idx = j /\ (idx < n)%nat)), (decide (idx = j)); try done; lia.
Qed.

Lemma zero_matrix (n : nat) (junk : nat -> nat -> Scalar) (val : Scalar) :
  assign_scalar_matrix (indeterminate_matrix n junk) 0%float = diagonal_upto n 0 val.
Proof.
  unfold assign_scalar_matrix, indeterminate_matrix, diagonal_upto, assign_scalar.
  rewrite <- list_fmap_compose. apply list_fmap_ext. intros _ i _. simpl.
  rewrite <- list_fmap_compose. apply list_fmap_ext. intros _ j _. simpl.
  rewrite decide_False by lia. done.
Qed.

(** The loop of a constructor that sets the diagonal of a zeroed matrix
    builds the isotropic tensor. *)
Lemma diagonal_of_zeroed (n : nat) (junk : nat -> nat -> Scalar) (val : Scalar) :
  fold_left (fun m i => set_entry m i i val) (seq 0 n)
    (assign_scalar_matrix (indeterminate_matrix n junk) 0%float)
  = isotropic n val.
Proof.
  rewrite (zero_matrix n junk val), diagonal_loop by done.
  apply diagonal_upto_all.
Qed.

Lemma fold_left_pair {A B C} (f : A -> C -> A) (g : B -> C -> B) (l : list C) (a : A) (b : B) :
  fold_left (fun p c => (f (fst p) c, g (snd p) c)) l (a, b)
  = (fold_left f l a, fold_left g l b).
Proof. revert a b. induction l as [|c l IH]; intros a b; [done|]. simpl. apply IH. Qed.

End TensorFacts.

Section InjectionSoilFacts.
Import InjectionSoil.
Context {Entity : Type} (dim : nat) (pow : Scalar -> Scalar -> Scalar).

Lemma constructor_tensors (junk_lowK junk_highK : nat -> nat -> Scalar) :
  constructor dim junk_lowK junk_highK =
  {| lowK_ := isotropic dim 5e-14%float;
     highK_ := isotropic dim 1e-12%float;
     layerBottom_ := 22.0%float |}.
Proof.
  unfold constructor.
  rewrite (fold_left_pair (fun m i => set_entry m i i 5e-14%float)
                          (fun m i => set_entry m i i 1e-12%float)).
  rewrite !diagonal_of_zeroed. reflexivity.
Qed.

Lemma invoke_soil (c : @method Entity) (this : t) :
  snd (invoke pow c this) = this.
Proof.
  destruct c; try reflexivity.
  simpl. unfold K, mbind, stateful_bind, get, lift, mret, stateful_ret. simpl.
  destruct (at_ x 1) as [x1| |]; simpl; [|done..].
  destruct (x1 <? layerBottom_ this)%float; reflexivity.
Qed.

(** C5.  For the soil the constructor builds and every position [x] (with a
    second coordinate [x[1]]), [porosity] returns 0.3 and [K] returns the
    isotropic tensor with 1e-12 on the diagonal when [x[1] < 22.0] and the
    one with 5e-14 otherwise.  [K] leaves the soil as it is, and so does
    every sequence of calls of the accessors. *)
Theorem soil_accessors (junk_lowK junk_highK : nat -> nat -> Scalar)
    (x : FieldVector) (e : Entity) (xi : FieldVector) (x1 : Scalar) :
  x !! 1%nat = Some x1 ->
  let soil := constructor dim junk_lowK junk_highK in
  porosity soil x e xi = 0.3%float /\
  K x e xi soil =
    (Ok (if (x1 <? 22.0)%float then isotropic dim 1e-12%float
         else isotropic dim 5e-14%float),
     soil) /\
  (forall cs : list (@method Entity), invoke_all pow cs soil = soil).
Proof.
  intros Hx soil. split; [reflexivity|]. split.
  - unfold K, mbind, stateful_bind, get, lift, mret, stateful_ret. simpl.
    rewrite (at_Some x 1 x1 Hx : at_ x 1 = Ok x1). simpl.
    subst soil. rewrite constructor_tensors. simpl.
    destruct (x1 <? 22)%float; reflexivity.
  - intros cs. unfold invoke_all. generalize soil as s.
    induction cs as [|c cs IH]; intros s; [reflexivity|].
    simpl. rewrite invoke_soil. apply IH.
Qed.

End InjectionSoilFacts.

(** In two dimensions, at the height 10 below the layer bottom. *)
Lemma soil_accessors_witness :
  InjectionSoil.K (Entity := unit) [5; 10]%float tt [0; 0]%float
    (InjectionSoil.constructor 2 (fun _ _ => 7%float) (fun _ _ => 7%float))
  = (Ok [[1e-12; 0]; [0; 1e-12]]%float,
     InjectionSoil.constructor 2 (fun _ _ => 7%float) (fun _ _ => 7%float)).
Proof.
  exact (proj1 (proj2
    (soil_accessors (Entity := unit) 2 (fun a _ => a)
       (fun _ _ => 7%float) (fun _ _ => 7%float)
       [5; 10]%float tt [0; 0]%float 10%float eq_refl))).
Defined.

Section InjectionProblemFacts.
Import InjectionProblem.
Context {Entity IntersectionIterator : Type}.

(** C9.  At every position the initial value is the Dirichlet value, be the
    position long enough for [x[1]] to be defined or not; when it is, and
    [gravity_[1]] is, the water pressure is
    [1e5 - 1000.0 * gravity_[1] * (depthBOR_ - x[1])] and the switch
    variable is [1e-6].  What the vector [values] of [initial] held before
    it was assigned does not show. *)
Theorem initial_is_dirichlet_value (junk : nat -> Scalar) (this : t)
    (x : FieldVector) (e : Entity) (intersectionIt : IntersectionIterator)
    (xi : FieldVector) :
  initial junk this x e xi = g this x e intersectionIt xi /\
  (forall g1 x1 : Scalar,
     gravity_ this !! 1%nat = Some g1 -> x !! 1%nat = Some x1 ->
     initial junk this x e xi =
       Ok [(1e5 - 1000.0 * g1 * (depthBOR_ this - x1))%float; 1e-6%float]).
Proof.
  split.
  - unfold initial, g.
    destruct (at_ (gravity_ this) 1) as [g1| |]; simpl; [|done..].
    destruct (at_ x 1) as [x1| |]; simpl; [|done..].
    reflexivity.
  - intros g1 x1 Hg Hx. unfold initial.
    rewrite (at_Some _ 1 g1 Hg : at_ (gravity_ this) 1 = Ok g1).
    rewrite (at_Some _ 1 x1 Hx : at_ x 1 = Ok x1). reflexivity.
Qed.

End InjectionProblemFacts.

(** The problem as constructed for a domain 60 m wide and 40 m high with the
    bottom of the reservoir at 800 m: at the height 10 the initial water
    pressure is [1e5 + 1000 * 9.81 * 790]. *)
Lemma initial_is_dirichlet_value_witness :
  InjectionProblem.constructor 2 (fun _ => 0%float) (fun _ => 0%float) (fun _ => 0%float)
    [0; 0]%float [60; 40]%float [0; 0]%float [0; 0]%float 800%float
  = Ok Examples.injection2d /\
  InjectionProblem.initial (Entity := unit) (fun _ => 3%float) Examples.injection2d
    [5; 10]%float tt [0; 0]%float
  = Ok [(1e5 - 1000.0 * (-9.81) * (800 - 10))%float; 1e-6%float].
Proof.
  split; [reflexivity|].
  exact (proj2
    (initial_is_dirichlet_value (Entity := unit) (IntersectionIterator := unit)
       (fun _ => 3%float) Examples.injection2d [5; 10]%float tt tt [0; 0]%float)
    (-9.81)%float 10%float eq_refl eq_refl).
Defined.

(* ===================================================================== *)
(** * Code that leaves a part of its object alone                         *)
(* ===================================================================== *)

Section Frames.
Context {S B : Type} (proj : S -> B).

Lemma preserves_ret {A} (a : A) : preserves proj (mret a).
Proof. intros s. reflexivity. Qed.

Lemma preserves_bind {A C} (m : stateful S A) (f : A -> stateful S C) :
  preserves proj m -> (forall a, preserves proj (f a)) -> preserves proj (m ≫= f).
Proof.
  intros Hm Hf s. unfold mbind, stateful_bind.
  specialize (Hm s). destruct (m s) as [[a|e|] s']; simpl in *; [|done..].
  rewrite Hf. exact Hm.
Qed.

Lemma preserves_when (c : bool) (m : stateful S unit) :
  (c = true -> preserves proj m) -> preserves proj (when c m).
Proof.
  intros Hm. destruct c; [by apply Hm|]. apply preserves_ret.
Qed.

Lemma preserves_for_ (n : nat) (body : nat -> stateful S unit) :
  (forall i, preserves proj (body i)) -> preserves proj (for_ n body).
Proof.
  intros Hbody. unfold for_. generalize (seq 0 n) as l.
  induction l as [|i l IH]; [apply preserves_ret|].
  simpl. apply preserves_bind; [apply Hbody|]. intros _. exact IH.
Qed.

Lemma preserves_modify (f : S -> S) :
  (forall s, proj (f s) = proj s) -> preserves proj (modify f).
Proof. intros Hf s. apply Hf. Qed.

End Frames.

(** The invariant of a counted loop that ends normally. *)
Lemma for_invariant {S} (P : nat -> S -> Prop) (n : nat) (body : nat -> stateful S unit)
    (s0 s : S) :
  P 0%nat s0 ->
  (forall i s s', (i < n)%nat -> P i s -> body i s = (Ok tt, s') -> P (Datatypes.S i) s') ->
  for_ n body s0 = (Ok tt, s) ->
  P n s.
Proof.
  unfold for_.
  assert (Hgen : forall len start s0,
    (start + len = n)%nat -> P start s0 ->
    (forall i s s', (i < n)%nat -> P i s -> body i s = (Ok tt, s') -> P (Datatypes.S i) s') ->
    foldr (fun i rest => body i;; rest) (mret tt) (seq start len) s0 = (Ok tt, s) ->
    P n s).
  { induction len as [|len IH]; intros start s1 Hn HP Hstep Hrun.
    - simpl in Hrun. injection Hrun as <-. by replace n with start by lia.
    - simpl in Hrun. unfold mbind at 1, stateful_bind in Hrun.
      destruct (body start s1) as [[[]|e|] s2] eqn:Hbody; try discriminate.
      apply (IH (Datatypes.S start) s2); [lia| |exact Hstep|exact Hrun].
      apply (Hstep start s1 s2); [lia|exact HP|exact Hbody]. }
  intros HP Hstep Hrun. by apply (Hgen n 0%nat s0).
Qed.

(* ===================================================================== *)
(** * VtkBlackOilModule: the gas dissolution factor                       *)
(* ===================================================================== *)

Section VtkBlackOilModuleFacts.
Import VtkBlackOilModule.
Context `{TypeTag}.

Lemma preserves_assign_at {B} (proj : t -> B)
    (member : t -> ScalarBuffer) (set_member : ScalarBuffer -> t -> t)
    (globalDofIdx : Z) (x : Scalar) :
  (forall b o, proj (set_member b o) = proj o) ->
  preserves proj (assign_at member set_member globalDofIdx x).
Proof.
  intros Hset o. unfold assign_at.
  destruct (store (member o) globalDofIdx x); simpl; [apply Hset|done..].
Qed.

Lemma preserves_commitScalarBuffer_ (name other : string) (buffer : ScalarBuffer) :
  other <> name ->
  preserves (published name) (commitScalarBuffer_ other buffer).
Proof.
  intros Hne w. unfold commitScalarBuffer_, modify, published. simpl.
  rewrite filter_app, filter_cons_False by (simpl; intros Heq; by apply Hne).
  rewrite filter_nil, app_nil_r. reflexivity.
Qed.

Ltac frame :=
  repeat first
    [ match goal with Hoff : false = true |- _ => discriminate Hoff end
    | apply preserves_bind; [|intros ?]
    | apply preserves_when; intros ?
    | apply preserves_ret
    | apply preserves_assign_at; intros; reflexivity
    | apply preserves_modify; intros; reflexivity
    | apply preserves_commitScalarBuffer_; discriminate ].

(** With the parameter on, a round of the loop that ends normally has
    stored the factor of its degree of freedom at the global index. *)
Lemma processDof_R_s (elemCtx : ElementContext) (dofIdx : Z) (o o' : t) :
  VtkWriteGasDissolutionFactor = true ->
  processDof elemCtx dofIdx o = (Ok tt, o') ->
  store (gasDissolutionFactor_ o) (globalSpaceIndex elemCtx dofIdx 0) (R_s elemCtx dofIdx)
  = Ok (gasDissolutionFactor_ o').
Proof.
  intros Hon. unfold processDof, gasDissolutionFactorOutput_. rewrite Hon.
  match goal with |- (_ ≫= ?f) o = _ -> _ => set (rest := f) end.
  assert (Hrest : forall u, preserves gasDissolutionFactor_ (rest u)).
  { intros u. subst rest. frame. }
  intros Hrun. unfold mbind, stateful_bind, when, assign_at in Hrun.
  fold (R_s elemCtx dofIdx) in Hrun.
  destruct (store (gasDissolutionFactor_ o) _ _) as [b| |] eqn:Hstore in Hrun;
    [|discriminate Hrun..].
  pose proof (Hrest tt (set_gasDissolutionFactor_ b o)) as Hkept.
  rewrite Hrun in Hkept. simpl in Hkept. by rewrite Hstore, Hkept.
Qed.

Lemma processElement_R_s (elemCtx : ElementContext) (o o' : t) :
  VtkWriteGasDissolutionFactor = true ->
  processElement elemCtx o = (Ok tt, o') ->
  (forall i j, 0 <= i < numPrimaryDof elemCtx 0 -> 0 <= j < numPrimaryDof elemCtx 0 ->
     globalSpaceIndex elemCtx i 0 = globalSpaceIndex elemCtx j 0 -> i = j) ->
  forall dofIdx, 0 <= dofIdx < numPrimaryDof elemCtx 0 ->
    at_ (gasDissolutionFactor_ o') (globalSpaceIndex elemCtx dofIdx 0)
    = Ok (R_s elemCtx dofIdx).
Proof.
  intros Hon Hrun Hinj. unfold processElement in Hrun.
  set (n := Z.to_nat (numPrimaryDof elemCtx 0)) in *.
  assert (Hinv : forall d, (d < n)%nat ->
    at_ (gasDissolutionFactor_ o') (globalSpaceIndex elemCtx (Z.of_nat d) 0)
    = Ok (R_s elemCtx (Z.of_nat d))).
  { revert Hrun. apply (for_invariant (fun k s => forall d, (d < k)%nat ->
      at_ (gasDissolutionFactor_ s) (globalSpaceIndex elemCtx (Z.of_nat d) 0)
      = Ok (R_s elemCtx (Z.of_nat d)))).
    - intros d Hd. lia.
    - intros k s s' Hk IH Hbody d Hd.
      apply processDof_R_s in Hbody; [|exact Hon].
      apply store_Ok in Hbody as [Hrange Hbuf]. rewrite Hbuf. unfold at_.
      destruct (decide (d = k)) as [->|Hdk].
      + rewrite decide_True by lia.
        rewrite list_lookup_insert_eq by lia. reflexivity.
      + assert (Hd' : (d < k)%nat) by lia.
        specialize (IH d Hd'). apply at_Ok in IH as [Hnonneg IH].
        rewrite decide_True by lia.
        rewrite list_lookup_insert_ne; [by rewrite IH|].
        intros Heq. apply Hdk.
        assert (Z.of_nat k = Z.of_nat d); [|lia].
        apply Hinj; subst n; lia. }
  intros dofIdx Hdof.
  specialize (Hinv (Z.to_nat dofIdx) ltac:(subst n; lia)).
  by rewrite Z2Nat.id in Hinv by lia.
Qed.

Lemma commitBuffers_R_s (o : t) (w : BaseOutputWriter) :
  VtkWriteGasDissolutionFactor = true ->
  published "R_s" (snd (commitBuffers o w)) =
  published "R_s" w ++ (if isVtkMultiWriter w then [gasDissolutionFactor_ o] else []).
Proof.
  intros Hon. unfold commitBuffers, gasDissolutionFactorOutput_. rewrite Hon.
  unfold mbind at 1, stateful_bind at 1, get.
  destruct (isVtkMultiWriter w) eqn:Hvtk; simpl; [|by rewrite app_nil_r].
  match goal with |- context [(_ ≫= ?f) w] => set (rest := f) end.
  assert (Hrest : forall u, preserves (published "R_s") (rest u)).
  { intros u. subst rest. frame. }
  unfold mbind, stateful_bind, when, commitScalarBuffer_, modify.
  rewrite (Hrest tt). unfold published. simpl.
  rewrite filter_app, fmap_app. f_equal.
Qed.

Lemma allocBuffers_off :
  VtkWriteGasDissolutionFactor = false ->
  preserves gasDissolutionFactor_ allocBuffers.
Proof.
  intros Hoff. unfold allocBuffers, gasDissolutionFactorOutput_. rewrite Hoff. frame.
Qed.

Lemma processElement_off (elemCtx : ElementContext) :
  VtkWriteGasDissolutionFactor = false ->
  preserves gasDissolutionFactor_ (processElement elemCtx).
Proof.
  intros Hoff. unfold processElement. apply preserves_for_. intros i.
  unfold processDof, gasDissolutionFactorOutput_. rewrite Hoff. frame.
Qed.

Lemma commitBuffers_off (o : t) :
  VtkWriteGasDissolutionFactor = false ->
  preserves (published "R_s") (commitBuffers o).
Proof.
  intros Hoff. unfold commitBuffers, gasDissolutionFactorOutput_. rewrite Hoff.
  intros w. unfold mbind at 1, stateful_bind at 1, get.
  destruct (isVtkMultiWriter w); simpl; [|reflexivity].
  match goal with |- published _ (snd (?m w)) = _ =>
    assert (Hm : preserves (published "R_s") m) by frame
  end.
  apply Hm.
Qed.

(** C7, as the code has it.  With [VtkWriteGasDissolutionFactor] on,
    [allocBuffers] resizes the buffer, [processElement] (when it ends
    normally, the global indices of the primary degrees of freedom being
    distinct) leaves [X_oG / rhogRef * rhooRef / (1 - X_oG)] at the global
    index of every primary degree of freedom, and [commitBuffers] hands the
    buffer to the writer under the name "R_s" when the writer is a
    [VtkMultiWriter], and hands nothing to a writer of another class.  With
    the parameter off, the buffer is left alone by [allocBuffers] and by
    [processElement], and [commitBuffers] hands nothing to the writer under
    that name. *)
Theorem gas_dissolution_factor_output (o : t) (elemCtx : ElementContext)
    (w : BaseOutputWriter) :
  (VtkWriteGasDissolutionFactor = true ->
   gasDissolutionFactor_ (snd (allocBuffers o)) = resizeScalarBuffer_ (gasDissolutionFactor_ o) /\
   (forall o',
      processElement elemCtx o = (Ok tt, o') ->
      (forall i j, 0 <= i < numPrimaryDof elemCtx 0 -> 0 <= j < numPrimaryDof elemCtx 0 ->
         globalSpaceIndex elemCtx i 0 = globalSpaceIndex elemCtx j 0 -> i = j) ->
      forall dofIdx, 0 <= dofIdx < numPrimaryDof elemCtx 0 ->
        let X_oG := Toolbox_value (fs_massFraction elemCtx dofIdx 0 oilPhaseIdx gasCompIdx) in
        let regionIdx := pvtRegionIndex elemCtx dofIdx 0 in
        let rhooRef := referenceDensity oilPhaseIdx regionIdx in
        let rhogRef := referenceDensity gasPhaseIdx regionIdx in
        at_ (gasDissolutionFactor_ o') (globalSpaceIndex elemCtx dofIdx 0)
        = Ok (X_oG / rhogRef * rhooRef / (1 - X_oG))%float) /\
   published "R_s" (snd (commitBuffers o w)) =
     published "R_s" w ++ (if isVtkMultiWriter w then [gasDissolutionFactor_ o] else []) /\
   (isVtkMultiWriter w = false -> snd (commitBuffers o w) = w))
  /\
  (VtkWriteGasDissolutionFactor = false ->
   gasDissolutionFactor_ (snd (allocBuffers o)) = gasDissolutionFactor_ o /\
   gasDissolutionFactor_ (snd (processElement elemCtx o)) = gasDissolutionFactor_ o /\
   published "R_s" (snd (commitBuffers o w)) = published "R_s" w).
Proof.
  split; intros Hflag.
  - split; [|split; [|split]].
    + unfold allocBuffers, gasDissolutionFactorOutput_. rewrite Hflag.
      match goal with |- context [(_ ≫= ?f) o] => set (rest := f) end.
      assert (Hrest : forall u, preserves gasDissolutionFactor_ (rest u)).
      { intros u. subst rest. frame. }
      unfold mbind, stateful_bind, when, modify. rewrite (Hrest tt). reflexivity.
    + intros o' Hrun Hinj dofIdx Hdof. simpl.
      apply (processElement_R_s elemCtx o o' Hflag Hrun Hinj dofIdx Hdof).
    + apply commitBuffers_R_s, Hflag.
    + intros Hother. unfold commitBuffers, mbind, stateful_bind, get.
      rewrite Hother. reflexivity.
  - split; [|split].
    + apply allocBuffers_off, Hflag.
    + apply processElement_off, Hflag.
    + apply commitBuffers_off, Hflag.
Qed.

End VtkBlackOilModuleFacts.

(** An element with two primary degrees of freedom, of global indices 2 and
    0 and gas mass fractions 0.2 and 0.1: after [allocBuffers] and
    [processElement] the entry 2 of the buffer is
    [0.2 / 1 * 800 / (1 - 0.2)]. *)
Lemma gas_dissolution_factor_output_witness :
  let elemCtx := [(0.2%float, 2); (0.1%float, 0)] in
  let o := snd (VtkBlackOilModule.allocBuffers (H := Examples.blackOilRs)
                  Examples.emptyModule) in
  at_ (VtkBlackOilModule.gasDissolutionFactor_
         (snd (VtkBlackOilModule.processElement (H := Examples.blackOilRs) elemCtx o))) 2
  = Ok (0.2 / 1 * 800 / (1 - 0.2))%float.
Proof.
  intros elemCtx o.
  destruct (proj1 (gas_dissolution_factor_output (H := Examples.blackOilRs)
                     o elemCtx Examples.vtkWriter) eq_refl)
    as (_ & Hprocess & _).
  apply (Hprocess _ eq_refl) with (dofIdx := 0); [|simpl; lia].
  intros i j Hi Hj. simpl in Hi, Hj.
  assert (Hi' : i = 0 \/ i = 1) by lia.
  assert (Hj' : j = 0 \/ j = 1) by lia.
  destruct Hi' as [-> | ->], Hj' as [-> | ->]; simpl; intros Heq;
    first [reflexivity | discriminate Heq].
Defined.

(** C7 as stated: with the parameter on, [commitBuffers] called with a
    writer that is not a [VtkMultiWriter] publishes nothing under "R_s",
    although the buffer is allocated and filled. *)
Lemma commitBuffers_ignores_other_writers :
  let elemCtx := [(0.2%float, 2); (0.1%float, 0)] in
  let allocated := snd (VtkBlackOilModule.allocBuffers (H := Examples.blackOilRs)
                          Examples.emptyModule) in
  let filled := snd (VtkBlackOilModule.processElement (H := Examples.blackOilRs)
                       elemCtx allocated) in
  VtkBlackOilModule.VtkWriteGasDissolutionFactor (TypeTag := Examples.blackOilRs) = true /\
  VtkBlackOilModule.gasDissolutionFactor_ filled
    = [(0.1 / 1 * 800 / (1 - 0.1))%float; 0%float;
       (0.2 / 1 * 800 / (1 - 0.2))%float; 0%float] /\
  VtkBlackOilModule.published "R_s"
    (snd (VtkBlackOilModule.commitBuffers (H := Examples.blackOilRs)
            filled Examples.otherWriter)) = [] /\
  VtkBlackOilModule.published "R_s"
    (snd (VtkBlackOilModule.commitBuffers (H := Examples.blackOilRs)
            filled Examples.vtkWriter)) = [VtkBlackOilModule.gasDissolutionFactor_ filled].
Proof. repeat split; vm_compute; reflexivity. Qed.

(* ===================================================================== *)
(** * Loops over a range                                                  *)
(* ===================================================================== *)

Section ForEach.
Context {A S : Type}.

(** What a round of the loop keeps is kept by the loop. *)
Lemma for_each_preserved (P : S -> Prop) (l : list A) (body : A -> S -> outcome S)
    (s0 s : S) :
  (forall a s s', a ∈ l -> body a s = Ok s' -> P s -> P s') ->
  for_each l body s0 = Ok s -> P s0 -> P s.
Proof.
  revert s0. induction l as [|a l IH]; intros s0 Hstep Hrun HP; simpl in Hrun.
  - by injection Hrun as <-.
  - unfold mbind, outcome_bind in Hrun.
    destruct (body a s0) as [s1| |] eqn:Hbody; try discriminate.
    apply (IH s1); [|exact Hrun|].
    + intros b t t' Hb. apply Hstep. by right.
    + apply (Hstep a s0 s1); [by left|exact Hbody|exact HP].
Qed.

(** What the round for an element establishes, and no later round undoes,
    holds for every element when the loop is done. *)
Lemma for_each_established (Q : A -> S -> Prop) (l : list A) (body : A -> S -> outcome S)
    (s0 s : S) :
  (forall a s s', a ∈ l -> body a s = Ok s' -> Q a s') ->
  (forall a b s s', b ∈ l -> body b s = Ok s' -> Q a s -> Q a s') ->
  for_each l body s0 = Ok s ->
  forall a, a ∈ l -> Q a s.
Proof.
  revert s0. induction l as [|b l IH]; intros s0 Hdone Hkept Hrun a Ha.
  - by apply elem_of_nil in Ha.
  - simpl in Hrun. unfold mbind, outcome_bind in Hrun.
    destruct (body b s0) as [s1| |] eqn:Hbody; try discriminate.
    apply elem_of_cons in Ha as [->|Ha].
    + apply (for_each_preserved (Q b) l body s1 s); [|exact Hrun|].
      * intros c t t' Hc. apply Hkept. by right.
      * apply (Hdone b s0 s1); [by left|exact Hbody].
    + apply (IH s1); [| |exact Hrun|exact Ha].
      * intros c t t' Hc. apply Hdone. by right.
      * intros c d t t' Hd. apply Hkept. by right.
Qed.

End ForEach.

(* ===================================================================== *)
(** * Stokes2cniModel: the fields "pg" and "delP"                         *)
(* ===================================================================== *)

Section Stokes2cniModelFacts.
Import Stokes2cniModel.
Context `{TypeTag}.
Context (this : t) (sol : SolutionVector).

Lemma at_store {A} (v v' : list A) (i : Z) (a : A) :
  store v i a = Ok v' -> at_ v' i = Ok a.
Proof.
  intros Hst. apply store_Ok in Hst as [Hrange ->]. unfold at_.
  rewrite decide_True by lia.
  by rewrite list_lookup_insert_eq by lia.
Qed.

Lemma at_store_other {A} (v v' : list A) (i j : Z) (a : A) :
  store v i a = Ok v' -> i <> j -> at_ v' j = at_ v j.
Proof.
  intros Hst Hij. apply store_Ok in Hst as [Hrange ->]. unfold at_.
  destruct (decide (0 <= j)); [|done].
  rewrite list_lookup_insert_ne by lia. done.
Qed.

(** The assignments for a vertex set "pg" and "delP" at its index and leave
    them alone at every other index. *)
Lemma assignVertex_pg_delP (globalIdx : Z) (vv : VolumeVariables) (f f' : Fields) :
  assignVertex globalIdx vv f = Ok f' ->
  at_ (pN f') globalIdx = Ok (pressure vv) /\
  at_ (delP f') globalIdx = Ok (pressure vv - 1e5)%float /\
  rank f' = rank f /\
  forall j, globalIdx <> j ->
    at_ (pN f') j = at_ (pN f) j /\ at_ (delP f') j = at_ (delP f) j.
Proof.
  unfold assignVertex, mbind, outcome_bind. intros Hrun.
  destruct (store (pN f) _ _) as [pN'| |] eqn:HpN; try discriminate.
  destruct (store (delP f) _ _) as [delP'| |] eqn:HdelP; try discriminate.
  destruct (store (Xw f) _ _); try discriminate.
  destruct (store (T f) _ _); try discriminate.
  destruct (store (rho f) _ _); try discriminate.
  destruct (store (mu f) _ _); try discriminate.
  destruct (store (h f) _ _); try discriminate.
  destruct (store (velocity_field f) _ _); try discriminate.
  injection Hrun as <-. simpl.
  split; [exact (at_store _ _ _ _ HpN)|].
  split; [exact (at_store _ _ _ _ HdelP)|].
  split; [reflexivity|].
  intros j Hj. split; eapply at_store_other; eauto.
Qed.

Lemma vertexBody_assigned (element : Element) (fvGeom : FVElementGeometry)
    (vertexIdx : nat) (st st' : VolumeVariables * Fields) :
  element ∈ elements (gridView_ this) ->
  Z.of_nat vertexIdx < count_dim element ->
  vertexBody this sol element fvGeom vertexIdx st = Ok st' ->
  rank (snd st') = rank (snd st) /\
  vertex_assigned this sol (vertexMapper_map this element (Z.of_nat vertexIdx))
    (pN (snd st')) (delP (snd st')) /\
  forall j, vertex_assigned this sol j (pN (snd st)) (delP (snd st)) ->
            vertex_assigned this sol j (pN (snd st')) (delP (snd st')).
Proof.
  intros Helem Hvertex. unfold vertexBody. destruct st as [vv f].
  unfold mbind, outcome_bind.
  destruct (at_ sol _) as [priVars| |] eqn:Hsol; try discriminate.
  destruct (assignVertex _ _ f) as [f'| |] eqn:Hassign; try discriminate.
  intros [= <-]. simpl.
  destruct (assignVertex_pg_delP _ _ _ _ Hassign) as (HpN & HdelP & Hrank & Hother).
  assert (Hnew : vertex_assigned this sol
            (vertexMapper_map this element (Z.of_nat vertexIdx)) (pN f') (delP f')).
  { eexists. split; [exact HpN|]. split; [exact HdelP|].
    exists element, (Z.of_nat vertexIdx), vv, fvGeom, priVars.
    repeat split; [exact Helem|lia|exact Hvertex|exact Hsol]. }
  split; [exact Hrank|]. split; [exact Hnew|].
  intros j Hj.
  destruct (decide (vertexMapper_map this element (Z.of_nat vertexIdx) = j)) as [<-|Hne].
  - exact Hnew.
  - destruct Hj as (p & Hp & Hd & Hprov).
    destruct (Hother j Hne) as [HpN' HdelP'].
    exists p. by rewrite HpN', HdelP'.
Qed.

Lemma elementBody_assigned (element : Element) (l l' : Locals) :
  element ∈ elements (gridView_ this) ->
  elementBody this sol element l = Ok l' ->
  (forall vertexIdx, 0 <= vertexIdx < count_dim element ->
     vertex_assigned this sol (vertexMapper_map this element vertexIdx)
       (pN (fields l')) (delP (fields l'))) /\
  forall j, vertex_assigned this sol j (pN (fields l)) (delP (fields l)) ->
            vertex_assigned this sol j (pN (fields l')) (delP (fields l')).
Proof.
  intros Helem. unfold elementBody, mbind, outcome_bind.
  destruct (store (rank (fields l)) _ _) as [rank'| |]; try discriminate.
  destruct (for_each _ _ _) as [[vv f]| |] eqn:Hloop; try discriminate.
  intros [= <-]. simpl.
  assert (Hin : forall v, v ∈ seq 0 (Z.to_nat (count_dim element)) ->
                Z.of_nat v < count_dim element).
  { intros v Hv. apply elem_of_seq in Hv. lia. }
  split.
  - intros vertexIdx Hrange.
    replace vertexIdx with (Z.of_nat (Z.to_nat vertexIdx)) by lia.
    change f with (snd (vv, f)).
    eapply (for_each_established
              (fun v st => vertex_assigned this sol
                             (vertexMapper_map this element (Z.of_nat v))
                             (pN (snd st)) (delP (snd st))));
      [| |exact Hloop|].
    + intros v s s' Hv Hb.
      exact (proj1 (proj2 (vertexBody_assigned _ _ _ _ _ Helem (Hin v Hv) Hb))).
    + intros v b s s' Hb Hbody Hq.
      exact (proj2 (proj2 (vertexBody_assigned _ _ _ _ _ Helem (Hin b Hb) Hbody)) _ Hq).
    + apply elem_of_seq. lia.
  - intros j Hj. change f with (snd (vv, f)).
    eapply (for_each_preserved
              (fun st => vertex_assigned this sol j (pN (snd st)) (delP (snd st))));
      [|exact Hloop|exact Hj].
    intros v s s' Hv Hb Hq.
    exact (proj2 (proj2 (vertexBody_assigned _ _ _ _ _ Helem (Hin v Hv) Hb)) _ Hq).
Qed.

Lemma computeFields_assigned (memory : Memory) (f : Fields) :
  computeFields this sol memory = Ok f ->
  forall element vertexIdx,
    element ∈ elements (gridView_ this) ->
    0 <= vertexIdx < count_dim element ->
    vertex_assigned this sol (vertexMapper_map this element vertexIdx) (pN f) (delP f).
Proof.
  unfold computeFields, fmap, outcome_fmap.
  destruct (for_each _ _ _) as [l| |] eqn:Hloop; try discriminate.
  intros [= <-] element vertexIdx Helem Hrange.
  revert vertexIdx Hrange.
  eapply (for_each_established
            (fun element l => forall vertexIdx, 0 <= vertexIdx < count_dim element ->
               vertex_assigned this sol (vertexMapper_map this element vertexIdx)
                 (pN (fields l)) (delP (fields l))));
    [| |exact Hloop|exact Helem].
  - intros e s s' He Hb. exact (proj1 (elementBody_assigned e s s' He Hb)).
  - intros e b s s' Hb Hbody Hq v Hv.
    exact (proj2 (elementBody_assigned b s s' Hb Hbody) _ (Hq v Hv)).
Qed.

Lemma attached_last (name : string) (field : ScalarField)
    (before after : list (string * VertexData)) :
  (forall nd, nd ∈ after -> fst nd <> name) ->
  attached name {| vertexData := before ++ (name, scalar_data field) :: after |}
  = Some field.
Proof.
  intros Hafter. unfold attached. simpl.
  rewrite filter_app, filter_cons_True by done.
  assert (Hnone : filter (fun nd : string * VertexData => fst nd = name) after = []).
  { induction after as [|nd after IH]; [done|].
    rewrite filter_cons_False by (apply Hafter; by left).
    apply IH. intros nd' Hnd'. apply Hafter. by right. }
  rewrite Hnone, last_snoc. reflexivity.
Qed.

(** C8.  When [addOutputVtkFields] ends normally, the writer holds a field
    "pg" and a field "delP"; at the global index of every vertex of every
    element of the grid, the entry of "delP" is the entry of "pg" minus
    1e5, and the entry of "pg" is the pressure of volume variables updated
    from the entry of the solution at that index, for the vertex of an
    element that was visited last with this index. *)
Theorem delP_is_pg_minus_1e5 (memory : Memory) (writer writer' : MultiWriter) :
  addOutputVtkFields this sol memory writer = Ok writer' ->
  exists pg delP : ScalarField,
    attached "pg" writer' = Some pg /\
    attached "delP" writer' = Some delP /\
    forall element vertexIdx,
      element ∈ elements (gridView_ this) ->
      0 <= vertexIdx < count_dim element ->
      let globalIdx := vertexMapper_map this element vertexIdx in
      exists p,
        at_ pg globalIdx = Ok p /\
        at_ delP globalIdx = Ok (p - 1e5)%float /\
        updated_pressure this sol globalIdx p.
Proof.
  unfold addOutputVtkFields, mbind, outcome_bind.
  destruct (computeFields this sol memory) as [f| |] eqn:Hf; try discriminate.
  intros [= <-]. exists (pN f), (delP f).
  unfold attachVertexData. simpl. rewrite <- !app_assoc. simpl.
  split; [|split].
  - apply attached_last. intros nd Hnd.
    repeat (apply elem_of_cons in Hnd as [->|Hnd]; [discriminate|]).
    by apply elem_of_nil in Hnd.
  - rewrite cons_middle, app_assoc.
    apply (attached_last "delP" (delP f) (vertexData writer ++ [("pg", scalar_data (pN f))])).
    intros nd Hnd.
    repeat (apply elem_of_cons in Hnd as [->|Hnd]; [discriminate|]).
    by apply elem_of_nil in Hnd.
  - intros element vertexIdx Helem Hrange. simpl.
    apply (computeFields_assigned memory f Hf element vertexIdx Helem Hrange).
Qed.

End Stokes2cniModelFacts.

(** Two elements that share the vertex 1, with the pressures 1e5, 2e5 and
    3e5 at the vertices 0, 1 and 2. *)
Lemma delP_is_pg_minus_1e5_witness :
  exists pg delP,
    Stokes2cniModel.attached "pg"
      (match Stokes2cniModel.addOutputVtkFields (H := Examples.stokes1d)
               Examples.stokesModel [1e5; 2e5; 3e5]%float Examples.stokesMemory
               Examples.emptyWriter with
       | Ok writer => writer
       | _ => Examples.emptyWriter
       end) = Some pg /\
    at_ pg 1 = Ok 2e5%float /\ at_ delP 1 = Ok (2e5 - 1e5)%float.
Proof.
  destruct (Stokes2cniModel.addOutputVtkFields (H := Examples.stokes1d)
              Examples.stokesModel [1e5; 2e5; 3e5]%float Examples.stokesMemory
              Examples.emptyWriter) as [writer'| |] eqn:Hrun;
    [|vm_compute in Hrun; discriminate Hrun..].
  destruct (delP_is_pg_minus_1e5 (H := Examples.stokes1d)
              Examples.stokesModel [1e5; 2e5; 3e5]%float Examples.stokesMemory
              Examples.emptyWriter writer' Hrun)
    as (pg & delP & Hpg & HdelP & Hall).
  exists pg, delP. split; [exact Hpg|].
  destruct (Hall [0; 1] 1 ltac:(by left) ltac:(simpl; lia)) as (p & Hp & Hd & _).
  simpl in Hp, Hd.
  vm_compute in Hrun. injection Hrun as <-.
  vm_compute in Hpg. injection Hpg as <-.
  vm_compute in Hp. injection Hp as <-.
  split; [reflexivity|exact Hd].
Defined.

(* ===================================================================== *)
(** * Further facts                                                       *)
(* ===================================================================== *)

Section MultiPhaseBaseProblemMore.
Import MultiPhaseBaseProblem.
Context `{TypeTag}.

Lemma replicate_zero_matrix (n : nat) (val : Scalar) :
  replicate n (replicate n 0%float) = diagonal_upto n 0 val.
Proof.
  unfold diagonal_upto.
  assert (Hrep : forall (A : Type) (x : A) (len start : nat),
            replicate len x = (fun _ => x) <$> seq start len).
  { intros A x len. induction len as [|len IH]; intros start; [done|].
    simpl. f_equal. apply IH. }
  rewrite (Hrep _ _ n 0%nat).
  apply list_fmap_ext. intros _ i _. simpl.
  rewrite (Hrep _ _ n 0%nat).
  apply list_fmap_ext. intros _ j _. simpl.
  rewrite decide_False by lia. done.
Qed.

(** [toDimMatrix_(val)] is the isotropic tensor: [val] on the diagonal, zero
    elsewhere. *)
Theorem toDimMatrix_isotropic (val : Scalar) :
  toDimMatrix_ val = isotropic dimWorld val.
Proof.
  unfold toDimMatrix_.
  rewrite (replicate_zero_matrix dimWorld val), diagonal_loop by done.
  apply diagonal_upto_all.
Qed.

Lemma markPhase_count (sim : Simulator) (element : Element) (st : Z * Grid)
    (phaseIdx : nat) :
  let st' := markPhase sim element st phaseIdx in
  fst st <= fst st' <= fst st + 1 /\
  interiorElements (snd st') = interiorElements (snd st).
Proof.
  unfold markPhase. destruct st as [numMarked grid].
  destruct (saturationRange sim element phaseIdx) as [minSat maxSat].
  destruct (_ && _); [simpl; split; [lia|reflexivity]|].
  destruct (_ <? _)%float; simpl; (split; [lia|reflexivity]).
Qed.

Lemma markPhases_count (sim : Simulator) (element : Element) (phases : list nat)
    (st : Z * Grid) :
  let st' := fold_left (markPhase sim element) phases st in
  fst st <= fst st' <= fst st + Z.of_nat (length phases) /\
  interiorElements (snd st') = interiorElements (snd st).
Proof.
  revert st. induction phases as [|phaseIdx phases IH]; intros st; simpl;
    [split; [lia|reflexivity]|].
  destruct (markPhase_count sim element st phaseIdx) as [Hn Hel].
  destruct (IH (markPhase sim element st phaseIdx)) as [Hn' Hel'].
  split; [lia|congruence].
Qed.

Lemma markElements_count (sim : Simulator) (elements : list Element) (st : Z * Grid) :
  let st' :=
    fold_left
      (fun st element => fold_left (markPhase sim element) (seq 0 numPhases) st)
      elements st in
  fst st <= fst st' <= fst st + Z.of_nat (length elements) * Z.of_nat numPhases /\
  interiorElements (snd st') = interiorElements (snd st).
Proof.
  revert st. induction elements as [|element elements IH]; intros st; simpl;
    [split; [lia|reflexivity]|].
  destruct (markPhases_count sim element (seq 0 numPhases) st) as [Hn Hel].
  rewrite length_seq in Hn.
  destruct (IH (fold_left (markPhase sim element) (seq 0 numPhases) st)) as [Hn' Hel'].
  split; [lia|congruence].
Qed.

(** [markForGridAdaptation] returns the sum over the processes of a number
    of marks between zero and the number of interior elements times the
    number of phases; it leaves the problem and the list of elements as
    they are. *)
Theorem markForGridAdaptation_count (sim : Simulator) (this : t) (grid : Grid) :
  exists numMarked grid',
    markForGridAdaptation sim this grid = (comm_sum sim numMarked, this, grid') /\
    0 <= numMarked <= Z.of_nat (length (interiorElements grid)) * Z.of_nat numPhases /\
    interiorElements grid' = interiorElements grid.
Proof.
  unfold markForGridAdaptation.
  destruct (markElements_count sim (interiorElements grid) (0, grid)) as [Hn Hel].
  destruct (fold_left _ _ _) as [numMarked grid']. simpl in Hn, Hel.
  exists numMarked, grid'. split; [reflexivity|]. split; [lia|exact Hel].
Qed.

End MultiPhaseBaseProblemMore.

Section FlashVolumeVariablesMore.
Import FlashVolumeVariables.
Context `{Collaborators}.

(** When the problem's [porosity] throws, as the one of
    [MultiPhaseBaseProblem] does, [update] ends with this exception: the
    flash solve and the relative permeabilities are done, the energy and
    the diffusion updates are not reached. *)
Theorem update_propagates_porosity_exception
    (elemCtx : ElementContext) (dofIdx timeIdx : Z) (o : t)
    (cTotal : ComponentVector) (materialParams : MaterialLawParams) (e : exception) :
  extract_cTotal (primaryVars elemCtx dofIdx timeIdx) = Ok cTotal ->
  materialLawParams (problem elemCtx) elemCtx dofIdx timeIdx = Ok materialParams ->
  porosity_of (problem elemCtx) elemCtx dofIdx timeIdx = Throw e ->
  fst (run_update elemCtx dofIdx timeIdx o) = Throw e /\
  closure_order (calls (snd (run_update elemCtx dofIdx timeIdx o)))
    = [FlashEquilibrium; RelativePermeability].
Proof.
  intros HcTotal Hmp Hphi.
  assert (Hresult : fst (run_update elemCtx dofIdx timeIdx o) = Throw e).
  { rewrite (update_result _ _ _ _ _ _ HcTotal Hmp), Hphi. reflexivity. }
  split; [exact Hresult|].
  rewrite (update_calls _ _ _ _ _ _ HcTotal Hmp), Hresult, Hphi.
  unfold closure_order. rewrite !omap_app, omap_viscosity_calls.
  destruct (thermodynamicHint _ _ _); reflexivity.
Qed.

End FlashVolumeVariablesMore.

Lemma update_propagates_porosity_exception_witness :
  fst (FlashVolumeVariables.run_update (H0 := Examples.flash2p2c_porosity_missing)
         [0.5; 0.5]%float 0 0 Examples.coldVolumeVariables)
  = Throw (Exception std_logic_error "Not implemented: Problem::porosity()").
Proof.
  exact (proj1
    (update_propagates_porosity_exception
       (H0 := Examples.flash2p2c_porosity_missing)
       [0.5; 0.5]%float 0 0 Examples.coldVolumeVariables [0.5; 0.5]%float tt
       (Exception std_logic_error "Not implemented: Problem::porosity()")
       eq_refl eq_refl eq_refl)).
Defined.

Section Stokes2cniModelMore.
Import Stokes2cniModel.
Context `{TypeTag}.

(** [addOutputVtkFields] attaches eight fields to the writer, in this
    order: "pg", "delP", "X_gH2O", "temperature", "rhoG", "mu", "h" and "v";
    the field of the process rank is filled and not attached. *)
Theorem attached_fields_in_order (this : t) (sol : list PrimaryVariables)
    (memory : Memory) (writer writer' : MultiWriter) :
  addOutputVtkFields this sol memory writer = Ok writer' ->
  fst <$> vertexData writer' =
  (fst <$> vertexData writer)
    ++ ["pg"; "delP"; "X_gH2O"; "temperature"; "rhoG"; "mu"; "h"; "v"].
Proof.
  unfold addOutputVtkFields, mbind, outcome_bind.
  destruct (computeFields this sol memory) as [f| |]; try discriminate.
  intros [= <-]. unfold attachVertexData. simpl.
  rewrite <- !app_assoc, fmap_app. reflexivity.
Qed.

End Stokes2cniModelMore.

Lemma attached_fields_in_order_witness :
  fst <$> Stokes2cniModel.vertexData
    (match Stokes2cniModel.addOutputVtkFields (H := Examples.stokes1d)
             Examples.stokesModel [1e5; 2e5; 3e5]%float Examples.stokesMemory
             Examples.emptyWriter with
     | Ok writer => writer
     | _ => Examples.emptyWriter
     end)
  = ["pg"; "delP"; "X_gH2O"; "temperature"; "rhoG"; "mu"; "h"; "v"].
Proof.
  destruct (Stokes2cniModel.addOutputVtkFields (H := Examples.stokes1d)
              Examples.stokesModel [1e5; 2e5; 3e5]%float Examples.stokesMemory
              Examples.emptyWriter) as [writer'| |] eqn:Hrun;
    [|vm_compute in Hrun; discriminate Hrun..].
  exact (attached_fields_in_order (H := Examples.stokes1d)
           Examples.stokesModel [1e5; 2e5; 3e5]%float Examples.stokesMemory
           Examples.emptyWriter writer' Hrun).
Defined.

(* ===================================================================== *)
(** * Loops over a range, and matrices entry by entry                     *)
(* ===================================================================== *)

Section Loops.
Context {S : Type}.

(** A loop over [0 .. n-1] whose round [i] succeeds from every state with
    the invariant [P i], and establishes [P (i+1)], succeeds and ends in a
    state with [P n]. *)
Lemma for_each_seq_total (P : nat -> S -> Prop) (n : nat)
    (body : nat -> S -> outcome S) (s0 : S) :
  P 0%nat s0 ->
  (forall i s, (i < n)%nat -> P i s -> exists s', body i s = Ok s' /\ P (Datatypes.S i) s') ->
  exists s, for_each (seq 0 n) body s0 = Ok s /\ P n s.
Proof.
  intros H0 Hstep.
  assert (Hgen : forall len start s,
            (start + len = n)%nat -> P start s ->
            exists s', for_each (seq start len) body s = Ok s' /\ P n s').
  { induction len as [|len IH]; intros start s Hlen HP; simpl.
    - exists s. split; [reflexivity|]. by replace n with start by lia.
    - destruct (Hstep start s ltac:(lia) HP) as (s1 & -> & HP1).
      simpl. apply IH; [lia|exact HP1]. }
  apply (Hgen n 0%nat s0); [lia|exact H0].
Qed.

End Loops.

Section MatrixFacts.

Lemma square_entry (n : nat) (m : FieldMatrix) (i j : nat) :
  square n m -> (i < n)%nat -> (j < n)%nat -> is_Some (entry m i j).
Proof.
  intros [Hlen Hrows] Hi Hj. unfold entry.
  destruct (lookup_lt_is_Some_2 m i ltac:(lia)) as [row Hrow].
  rewrite Hrow. simpl.
  apply lookup_lt_is_Some_2.
  rewrite Forall_lookup in Hrows. rewrite (Hrows i row Hrow). exact Hj.
Qed.

Lemma at2_entry (m : FieldMatrix) (i j : nat) (x : Scalar) :
  entry m i j = Some x -> at2 m (Z.of_nat i) (Z.of_nat j) = Ok x.
Proof.
  unfold entry, at2. destruct (m !! i) as [row|] eqn:Hrow; [|done]. simpl.
  intros Hx. rewrite (at_Some m i row Hrow). simpl. by apply at_Some.
Qed.

(** [m[i][j] = a] inside the bounds: the matrix keeps its shape, the entry
    is [a] and every other entry is as before. *)
Lemma store2_square (n : nat) (m : FieldMatrix) (i j : nat) (a : Scalar) :
  square n m -> (i < n)%nat -> (j < n)%nat ->
  exists m', store2 m (Z.of_nat i) (Z.of_nat j) a = Ok m' /\
    square n m' /\
    forall k l, entry m' k l = if decide (k = i /\ l = j) then Some a else entry m k l.
Proof.
  intros [Hlen Hrows] Hi Hj.
  destruct (lookup_lt_is_Some_2 m i ltac:(lia)) as [row Hrow].
  assert (Hrowlen : length row = n).
  { rewrite Forall_lookup in Hrows. exact (Hrows i row Hrow). }
  exists (<[i := <[j := a]> row]> m). split; [|split].
  - unfold store2. rewrite (at_Some m i row Hrow). simpl.
    rewrite store_in_range by lia. simpl.
    apply store_in_range. lia.
  - split; [by rewrite length_insert|].
    apply Forall_insert; [exact Hrows|]. by rewrite length_insert.
  - intros k l. unfold entry.
    destruct (decide (k = i)) as [->|Hk].
    + rewrite list_lookup_insert_eq by lia. simpl.
      destruct (decide (l = j)) as [->|Hl].
      * rewrite decide_True by done. apply list_lookup_insert_eq. lia.
      * rewrite decide_False by (intros [_ Heq]; done).
        rewrite Hrow. simpl. apply list_lookup_insert_ne. done.
    + rewrite decide_False by (intros [Heq _]; done).
      by rewrite list_lookup_insert_ne by done.
Qed.

(** Two [n] by [n] matrices with the same entries are the same matrix. *)
Lemma square_ext (n : nat) (m1 m2 : FieldMatrix) :
  square n m1 -> square n m2 ->
  (forall i j, (i < n)%nat -> (j < n)%nat -> entry m1 i j = entry m2 i j) ->
  m1 = m2.
Proof.
  intros [Hlen1 Hrows1] [Hlen2 Hrows2] Hentries.
  apply list_eq. intros i.
  destruct (decide (i < n)%nat) as [Hi|Hi].
  - destruct (lookup_lt_is_Some_2 m1 i ltac:(lia)) as [row1 Hrow1].
    destruct (lookup_lt_is_Some_2 m2 i ltac:(lia)) as [row2 Hrow2].
    rewrite Hrow1, Hrow2. f_equal.
    rewrite Forall_lookup in Hrows1. rewrite Forall_lookup in Hrows2.
    pose proof (Hrows1 i row1 Hrow1) as Hl1.
    pose proof (Hrows2 i row2 Hrow2) as Hl2.
    apply list_eq. intros j.
    destruct (decide (j < n)%nat) as [Hj|Hj].
    + specialize (Hentries i j Hi Hj). unfold entry in Hentries.
      by rewrite Hrow1, Hrow2 in Hentries.
    + by rewrite !lookup_ge_None_2 by lia.
  - by rewrite !lookup_ge_None_2 by lia.
Qed.

End MatrixFacts.

Section IntersectionPermeability.
Import MultiPhaseBaseProblem.
Context `{TypeTag}.

Lemma harmonicMeanEntries_square (harmonicMean : Scalar -> Scalar -> Scalar)
    (K1 K2 : DimMatrix) (n : nat) :
  square n K1 -> square n K2 -> square n (harmonicMeanEntries harmonicMean K1 K2).
Proof.
  intros [Hlen1 Hrows1] [Hlen2 Hrows2]. unfold harmonicMeanEntries. split.
  - rewrite length_zip_with. lia.
  - rewrite Forall_lookup. intros i row Hrow.
    apply lookup_zip_with_Some in Hrow as (row1 & row2 & -> & Hrow1 & Hrow2).
    rewrite Forall_lookup in Hrows1. rewrite Forall_lookup in Hrows2.
    rewrite length_zip_with, (Hrows1 i row1 Hrow1), (Hrows2 i row2 Hrow2). lia.
Qed.

Lemma harmonicMeanEntries_entry (harmonicMean : Scalar -> Scalar -> Scalar)
    (K1 K2 : DimMatrix) (i j : nat) (k1 k2 : Scalar) :
  entry K1 i j = Some k1 -> entry K2 i j = Some k2 ->
  entry (harmonicMeanEntries harmonicMean K1 K2) i j = Some (harmonicMean k1 k2).
Proof.
  unfold entry, harmonicMeanEntries. intros H1 H2.
  destruct (K1 !! i) as [row1|] eqn:Hrow1; [|done].
  destruct (K2 !! i) as [row2|] eqn:Hrow2; [|done].
  simpl in H1, H2.
  rewrite lookup_zip_with, Hrow1, Hrow2. simpl.
  by rewrite lookup_zip_with, H1, H2.
Qed.

(** The permeability at an intersection is, entry by entry, the harmonic
    mean of the permeabilities that the problem gives for the interior and
    the exterior finite volume; nothing is left of what [result] held. *)
Theorem intersectionIntrinsicPermeability_harmonic_mean
    (asImp_ : Implementation) (harmonicMean : Scalar -> Scalar -> Scalar)
    (result : DimMatrix) (context : Context_)
    (interiorIndex exteriorIndex timeIdx : Z) (K1 K2 : DimMatrix) :
  impl_intrinsicPermeability asImp_ context interiorIndex timeIdx = Ok K1 ->
  impl_intrinsicPermeability asImp_ context exteriorIndex timeIdx = Ok K2 ->
  square dimWorld K1 -> square dimWorld K2 -> square dimWorld result ->
  intersectionIntrinsicPermeability asImp_ harmonicMean result context
      interiorIndex exteriorIndex timeIdx
    = Ok (harmonicMeanEntries harmonicMean K1 K2).
Proof.
  intros HK1 HK2 Hsq1 Hsq2 Hres.
  unfold intersectionIntrinsicPermeability. rewrite HK1, HK2. simpl.
  set (mean := harmonicMeanEntries harmonicMean K1 K2).
  (* after [i] rounds the rows before [i] are done *)
  set (P := fun (i : nat) (m : DimMatrix) =>
              square dimWorld m /\
              forall k l, (k < dimWorld)%nat -> (l < dimWorld)%nat ->
                entry m k l = if decide (k < i)%nat then entry mean k l
                              else entry result k l).
  match goal with |- for_each _ ?body _ = _ =>
    destruct (for_each_seq_total P dimWorld body result) as (m & Hrun & Hsq & Hm)
  end.
  - split; [exact Hres|]. intros k l _ _. by rewrite decide_False by lia.
  - intros i m Hi [Hsqm Hm].
    (* after [j] rounds of the inner loop the row [i] is done before [j] *)
    set (Q := fun (j : nat) (m' : DimMatrix) =>
                square dimWorld m' /\
                forall k l, (k < dimWorld)%nat -> (l < dimWorld)%nat ->
                  entry m' k l =
                    if decide (k < i \/ (k = i /\ l < j))%nat then entry mean k l
                    else entry result k l).
    match goal with |- exists _, for_each _ ?body _ = _ /\ _ =>
      destruct (for_each_seq_total Q dimWorld body m) as (m' & Hrun & Hsq' & Hm')
    end.
    + split; [exact Hsqm|]. intros k l Hk Hl. rewrite (Hm k l Hk Hl).
      destruct (decide (k < i)%nat).
      * by rewrite decide_True by lia.
      * by rewrite decide_False by lia.
    + intros j m' Hj [Hsqm' Hm'].
      destruct (square_entry _ _ i j Hsq1 Hi Hj) as [k1 Hk1].
      destruct (square_entry _ _ i j Hsq2 Hi Hj) as [k2 Hk2].
      rewrite (at2_entry _ _ _ _ Hk1), (at2_entry _ _ _ _ Hk2). simpl.
      destruct (store2_square _ m' i j (harmonicMean k1 k2) Hsqm' Hi Hj)
        as (m'' & -> & Hsqm'' & Hm'').
      exists m''. split; [reflexivity|]. split; [exact Hsqm''|].
      intros k l Hk Hl. rewrite Hm''.
      destruct (decide (k = i /\ l = j)) as [[-> ->]|Hne].
      * rewrite decide_True by lia. symmetry.
        by apply harmonicMeanEntries_entry.
      * rewrite (Hm' k l Hk Hl).
        destruct (decide (k < i \/ k = i /\ l < j)%nat).
        -- by rewrite decide_True by lia.
        -- by rewrite decide_False by lia.
    + exists m'. split; [exact Hrun|]. split; [exact Hsq'|].
      intros k l Hk Hl. rewrite (Hm' k l Hk Hl).
      destruct (decide (k < i \/ k = i /\ l < dimWorld)%nat).
      * by rewrite decide_True by lia.
      * by rewrite decide_False by lia.
  - rewrite Hrun. f_equal.
    apply (square_ext dimWorld); [exact Hsq|by apply harmonicMeanEntries_square|].
    intros k l Hk Hl. rewrite (Hm k l Hk Hl). by rewrite decide_True by lia.
Qed.

End IntersectionPermeability.

Lemma intersectionIntrinsicPermeability_harmonic_mean_witness :
  MultiPhaseBaseProblem.intersectionIntrinsicPermeability (H := Examples.twoPhase2d)
    Examples.layeredProblem Examples.mean [[9; 9]; [9; 9]]%float tt 0 1 0
  = Ok (MultiPhaseBaseProblem.harmonicMeanEntries
          Examples.mean [[1; 0]; [0; 1]]%float [[3; 0]; [0; 3]]%float).
Proof.
  apply (intersectionIntrinsicPermeability_harmonic_mean (H := Examples.twoPhase2d));
    [reflexivity|reflexivity|split; [reflexivity|repeat constructor]..].
Defined.

Section MarkForGridAdaptation.
Import MultiPhaseBaseProblem.
Context `{TypeTag}.
Context (sim : Simulator).

(** The passes over the phases of one element, and over the elements. *)
Local Abbreviation markPhases element phases st :=
  (fold_left (markPhase sim element) phases st).
Local Abbreviation markElements elements st :=
  (fold_left (fun st element => markPhases element (seq 0 numPhases) st) elements st).

(** A round of the loop over the phases sets the mark of its element to
    -1, 0 or 1, to 1 below level 2 only, and to a value that the state
    before the round has no part in. *)
Lemma markPhase_marks (element : Element) (phaseIdx : nat) :
  exists refCount,
    (refCount = -1 \/ refCount = 0 \/ (refCount = 1 /\ level element < 2)) /\
    forall st, marks (snd (markPhase sim element st phaseIdx))
               = <[elementIndex element := refCount]> (marks (snd st)).
Proof.
  unfold markPhase.
  destruct (saturationRange sim element phaseIdx) as [minSat maxSat].
  destruct (_ && _) eqn:Hrefine.
  - exists 1. apply andb_prop in Hrefine as [_ Hlevel].
    apply bool_decide_eq_true in Hlevel.
    split; [right; right; split; [reflexivity|exact Hlevel]|].
    by intros [numMarked grid].
  - destruct (_ <? 0.025)%float.
    + exists (-1). split; [by left|]. by intros [numMarked grid].
    + exists 0. split; [right; by left|]. by intros [numMarked grid].
Qed.

Lemma markPhases_overwritten (element : Element) (phases : list nat) (st : Z * Grid)
    (refCount : Z) :
  <[elementIndex element := refCount]> (marks (snd (markPhases element phases st)))
  = <[elementIndex element := refCount]> (marks (snd st)).
Proof.
  revert st. induction phases as [|phaseIdx phases IH]; intros st; [done|].
  simpl. rewrite IH.
  destruct (markPhase_marks element phaseIdx) as (r & _ & ->).
  apply insert_insert_eq.
Qed.

Lemma markPhases_marks (element : Element) (phases : list nat) (st : Z * Grid) :
  phases <> [] ->
  exists refCount,
    (refCount = -1 \/ refCount = 0 \/ (refCount = 1 /\ level element < 2)) /\
    marks (snd (markPhases element phases st))
      = <[elementIndex element := refCount]> (marks (snd st)).
Proof.
  destruct phases as [|phaseIdx phases _] using rev_ind; [done|]. intros _.
  rewrite fold_left_app. simpl.
  destruct (markPhase_marks element phaseIdx) as (refCount & Hrange & Hmarks).
  exists refCount. split; [exact Hrange|]. rewrite Hmarks.
  apply markPhases_overwritten.
Qed.

Lemma markPhases_other (element : Element) (phases : list nat) (st : Z * Grid)
    (i : nat) :
  elementIndex element <> i ->
  marks (snd (markPhases element phases st)) !! i = marks (snd st) !! i.
Proof.
  intros Hi. revert st. induction phases as [|phaseIdx phases IH]; intros st; [done|].
  simpl. rewrite IH.
  destruct (markPhase_marks element phaseIdx) as (refCount & _ & ->).
  by apply lookup_insert_ne.
Qed.

Lemma markElements_other (elements : list Element) (st : Z * Grid) (i : nat) :
  (forall element, element ∈ elements -> elementIndex element <> i) ->
  marks (snd (markElements elements st)) !! i = marks (snd st) !! i.
Proof.
  revert st. induction elements as [|element elements IH]; intros st Hi; [done|].
  simpl. rewrite IH by (intros e He; apply Hi; by right).
  apply markPhases_other, Hi. by left.
Qed.

Lemma seq_numPhases_nonempty : (0 < numPhases)%nat -> seq 0 numPhases <> [].
Proof. destruct numPhases; [lia|done]. Qed.

Lemma markElements_marks (elements : list Element) (st : Z * Grid) (i : nat) :
  (0 < numPhases)%nat ->
  (exists element, element ∈ elements /\ elementIndex element = i) ->
  exists refCount,
    marks (snd (markElements elements st)) !! i = Some refCount /\
    (refCount = -1 \/ refCount = 0 \/
     (refCount = 1 /\
      exists element, element ∈ elements /\ elementIndex element = i /\
                      level element < 2)).
Proof.
  intros Hphases.
  induction elements as [|element elements IH] using rev_ind;
    intros (e & He & Hi); [by apply elem_of_nil in He|].
  rewrite fold_left_app. simpl.
  destruct (decide (elementIndex element = i)) as [Hlast|Hlast].
  - destruct (markPhases_marks element (seq 0 numPhases) (markElements elements st)
                (seq_numPhases_nonempty Hphases)) as (refCount & Hrange & ->).
    exists refCount. split; [rewrite <- Hlast; apply lookup_insert_eq|].
    destruct Hrange as [?|[?|[? Hlevel]]]; [by left|right; by left|].
    right; right. split; [done|]. exists element.
    split; [apply elem_of_app; right; by left|done].
  - rewrite markPhases_other by done.
    destruct IH as (refCount & Hmark & Hrange).
    { exists e. split; [|done]. apply elem_of_app in He as [He|He]; [done|].
      apply list_elem_of_singleton in He. congruence. }
    exists refCount. split; [exact Hmark|].
    destruct Hrange as [?|[?|[? (e' & He' & Hi' & Hlevel)]]]; [by left|right; by left|].
    right; right. split; [done|]. exists e'.
    split; [apply elem_of_app; by left|done].
Qed.

(** With at least one phase, [markForGridAdaptation] leaves every interior
    element with the mark -1, 0 or 1, and an element is marked for
    refinement (1) only below level 2. *)
Theorem markForGridAdaptation_marks (this : t) (grid : Grid) (element : Element) :
  (0 < numPhases)%nat ->
  element ∈ interiorElements grid ->
  NoDup (elementIndex <$> interiorElements grid) ->
  exists refCount,
    marks (snd (markForGridAdaptation sim this grid)) !! elementIndex element
      = Some refCount /\
    (refCount = -1 \/ refCount = 0 \/ (refCount = 1 /\ level element < 2)).
Proof.
  intros Hphases Helement Hdistinct. unfold markForGridAdaptation.
  destruct (markElements_marks (interiorElements grid) (0, grid)
              (elementIndex element) Hphases) as (refCount & Hmark & Hrange).
  { by exists element. }
  destruct (fold_left _ _ _) as [numMarked grid']. simpl in *.
  exists refCount. split; [exact Hmark|].
  destruct Hrange as [?|[?|[? (e' & He' & Hi' & Hlevel)]]]; [by left|right; by left|].
  right; right. split; [done|].
  replace element with e'; [done|].
  apply list_elem_of_lookup in He' as [k Hk].
  apply list_elem_of_lookup in Helement as [l Hl].
  assert (k = l) as ->; [|congruence].
  apply (NoDup_lookup _ k l (elementIndex element) Hdistinct).
  - by rewrite list_lookup_fmap, Hk, <- Hi'.
  - by rewrite list_lookup_fmap, Hl.
Qed.

(** [markForGridAdaptation] changes the mark of interior elements only. *)
Theorem markForGridAdaptation_other_marks (this : t) (grid : Grid) (i : nat) :
  i ∉ elementIndex <$> interiorElements grid ->
  marks (snd (markForGridAdaptation sim this grid)) !! i = marks grid !! i.
Proof.
  intros Hi. unfold markForGridAdaptation.
  pose proof (markElements_other (interiorElements grid) (0, grid) i) as Hother.
  destruct (fold_left _ _ _) as [numMarked grid']. simpl in *.
  apply Hother. intros element Helement Heq. apply Hi.
  apply list_elem_of_fmap. by exists element.
Qed.

Lemma markElements_last_phase (elements : list Element) (element : Element)
    (lastPhaseIdx : nat) (st0 st : Z * Grid) :
  numPhases = Datatypes.S lastPhaseIdx ->
  element ∈ elements ->
  NoDup (elementIndex <$> elements) ->
  marks (snd (markElements elements st0)) !! elementIndex element
    = marks (snd (markPhase sim element st lastPhaseIdx)) !! elementIndex element.
Proof.
  intros Hphases Helement Hdistinct.
  apply list_elem_of_split in Helement as (before & after & ->).
  rewrite fold_left_app. simpl.
  rewrite markElements_other.
  - rewrite Hphases, seq_S, fold_left_app. simpl.
    destruct (markPhase_marks element lastPhaseIdx) as (refCount & _ & Hmarks).
    by rewrite !Hmarks, !lookup_insert_eq.
  - intros e He Heq.
    rewrite fmap_app, fmap_cons in Hdistinct.
    apply NoDup_app in Hdistinct as (_ & _ & Hdistinct).
    apply NoDup_cons in Hdistinct as [Hnotin _].
    apply Hnotin. rewrite <- Heq. apply list_elem_of_fmap. by exists e.
Qed.

(** A round of the loop over the phases passes its request to [grid.mark]
    and counts it when it is not 0. *)
Lemma markPhase_request (element : Element) (st : Z * Grid) (phaseIdx : nat) :
  markPhase sim element st phaseIdx =
  (fst st + (if decide (markRequest sim element phaseIdx = 0) then 0 else 1),
   mark (markRequest sim element phaseIdx) element (snd st)).
Proof.
  unfold markPhase, markRequest. destruct st as [numMarked grid].
  destruct (saturationRange sim element phaseIdx) as [minSat maxSat].
  destruct (_ && _); [reflexivity|].
  destruct (_ <? 0.025)%float; simpl; [reflexivity|].
  f_equal. lia.
Qed.

Lemma markPhases_counted (element : Element) (phases : list nat) (st : Z * Grid) :
  fst (markPhases element phases st) =
  fst st
  + Z.of_nat (length (filter (fun round : Element * nat =>
                                markRequest sim round.1 round.2 <> 0)
                        ((fun phaseIdx => (element, phaseIdx)) <$> phases))).
Proof.
  revert st. induction phases as [|phaseIdx phases IH]; intros st; [simpl; lia|].
  rewrite fmap_cons, filter_cons. cbn [fold_left].
  rewrite IH, markPhase_request. cbn [fst snd].
  destruct (decide (markRequest sim element phaseIdx = 0)) as [Hnone|Hsome].
  - rewrite decide_False by (intros Hne; by apply Hne). lia.
  - rewrite decide_True by done. cbn [length]. lia.
Qed.

Lemma markElements_counted (elements : list Element) (st : Z * Grid) :
  fst (markElements elements st) =
  fst st
  + Z.of_nat (length (filter (fun round : Element * nat =>
                                markRequest sim round.1 round.2 <> 0)
                        (element ← elements;
                         (fun phaseIdx => (element, phaseIdx)) <$> seq 0 numPhases))).
Proof.
  revert st. induction elements as [|element elements IH]; intros st; [simpl; lia|].
  rewrite bind_cons, filter_app, length_app. cbn [fold_left].
  rewrite IH, markPhases_counted. lia.
Qed.

(** The request that comes last for an interior element, and so the mark
    the element is left with, is the one of the last phase; the function
    returns the sum over the processes of the number of rounds, of an
    element with a phase, whose request was to refine or to coarsen: an
    element counts once for every phase that marks it. *)
Theorem markForGridAdaptation_last_phase (this : t) (grid : Grid) (element : Element)
    (lastPhaseIdx : nat) :
  numPhases = Datatypes.S lastPhaseIdx ->
  element ∈ interiorElements grid ->
  NoDup (elementIndex <$> interiorElements grid) ->
  marks (snd (markForGridAdaptation sim this grid)) !! elementIndex element
    = Some (markRequest sim element lastPhaseIdx) /\
  fst (fst (markForGridAdaptation sim this grid))
    = comm_sum sim
        (Z.of_nat (length (filter (fun round : Element * nat =>
                                     markRequest sim round.1 round.2 <> 0)
                             (rounds grid)))).
Proof.
  intros Hphases Helement Hdistinct. unfold markForGridAdaptation, rounds.
  pose proof (markElements_last_phase (interiorElements grid) element lastPhaseIdx
                (0, grid) (0, grid) Hphases Helement Hdistinct) as Hlast.
  pose proof (markElements_counted (interiorElements grid) (0, grid)) as Hcount.
  rewrite markPhase_request in Hlast.
  destruct (fold_left _ _ _) as [numMarked grid']. simpl in Hlast, Hcount |- *.
  split.
  - etransitivity; [exact Hlast|]. apply lookup_insert_eq.
  - f_equal. rewrite Hcount. lia.
Qed.

(** An element that shows no degree of freedom is marked for coarsening,
    and counted, by the round of every phase: the saturation range stays
    at its initial [1e100, -1e100], which makes the indicator negative. *)
Lemma markPhase_no_dof (element : Element) (st : Z * Grid) (phaseIdx : nat) :
  numDof sim element = 0%nat ->
  markPhase sim element st phaseIdx = (fst st + 1, mark (-1) element (snd st)).
Proof.
  intros Hnone. unfold markPhase, saturationRange. rewrite Hnone.
  destruct st as [numMarked grid]. reflexivity.
Qed.

(** With at least one phase, an interior element in which the element
    context shows no degree of freedom ends with the mark -1: it is marked
    for coarsening. *)
Theorem markForGridAdaptation_element_without_dof (this : t) (grid : Grid)
    (element : Element) :
  (0 < numPhases)%nat ->
  element ∈ interiorElements grid ->
  NoDup (elementIndex <$> interiorElements grid) ->
  numDof sim element = 0%nat ->
  marks (snd (markForGridAdaptation sim this grid)) !! elementIndex element
    = Some (-1).
Proof.
  intros Hphases Helement Hdistinct Hnone. unfold markForGridAdaptation.
  assert (HlastPhase : exists lastPhaseIdx, numPhases = Datatypes.S lastPhaseIdx).
  { destruct numPhases as [|lastPhaseIdx]; [lia|by exists lastPhaseIdx]. }
  destruct HlastPhase as [lastPhaseIdx HlastPhase].
  pose proof (markElements_last_phase (interiorElements grid) element lastPhaseIdx
                (0, grid) (0, grid) HlastPhase Helement Hdistinct) as Hlast.
  rewrite markPhase_no_dof in Hlast by exact Hnone.
  destruct (fold_left _ _ _) as [numMarked grid'].
  etransitivity; [exact Hlast|]. apply lookup_insert_eq.
Qed.

End MarkForGridAdaptation.

Lemma markForGridAdaptation_marks_witness :
  exists refCount,
    MultiPhaseBaseProblem.marks
      (snd (MultiPhaseBaseProblem.markForGridAdaptation Examples.frontSimulator
              Examples.twoPhaseProblem Examples.twoElements)) !! 1%nat
      = Some refCount /\
    (refCount = -1 \/ refCount = 0 \/ (refCount = 1 /\ 2 < 2)).
Proof.
  apply (markForGridAdaptation_marks (H := Examples.twoPhase2d)
           Examples.frontSimulator Examples.twoPhaseProblem Examples.twoElements
           {| MultiPhaseBaseProblem.elementIndex := 1;
              MultiPhaseBaseProblem.level := 2 |}).
  - simpl. lia.
  - simpl. do 2 constructor.
  - by apply (bool_decide_unpack _).
Defined.

Lemma markForGridAdaptation_other_marks_witness :
  MultiPhaseBaseProblem.marks
    (snd (MultiPhaseBaseProblem.markForGridAdaptation Examples.frontSimulator
            Examples.twoPhaseProblem Examples.twoElements)) !! 5%nat
  = MultiPhaseBaseProblem.marks Examples.twoElements !! 5%nat.
Proof.
  apply (markForGridAdaptation_other_marks (H := Examples.twoPhase2d)).
  by apply (bool_decide_unpack _).
Defined.

Lemma markForGridAdaptation_last_phase_witness :
  MultiPhaseBaseProblem.marks
    (snd (MultiPhaseBaseProblem.markForGridAdaptation Examples.frontSimulator
            Examples.twoPhaseProblem Examples.twoElements)) !! 0%nat
  = Some (MultiPhaseBaseProblem.markRequest Examples.frontSimulator
            {| MultiPhaseBaseProblem.elementIndex := 0;
               MultiPhaseBaseProblem.level := 0 |} 1) /\
  fst (fst (MultiPhaseBaseProblem.markForGridAdaptation Examples.frontSimulator
              Examples.twoPhaseProblem Examples.twoElements))
  = 4.
Proof.
  destruct (markForGridAdaptation_last_phase (H := Examples.twoPhase2d)
              Examples.frontSimulator Examples.twoPhaseProblem Examples.twoElements
              {| MultiPhaseBaseProblem.elementIndex := 0;
                 MultiPhaseBaseProblem.level := 0 |} 1%nat)
    as [Hmark Hcount].
  - reflexivity.
  - simpl. constructor.
  - by apply (bool_decide_unpack _).
  - split; [exact Hmark|]. rewrite Hcount. reflexivity.
Defined.

Section FlashVolumeVariablesObject.
Import FlashVolumeVariables.
Context `{Collaborators}.
Context (elemCtx : ElementContext) (dofIdx timeIdx : Z) (o : t).
Context (cTotal : ComponentVector) (materialParams : MaterialLawParams).
Hypothesis HcTotal : extract_cTotal (primaryVars elemCtx dofIdx timeIdx) = Ok cTotal.
Hypothesis HmaterialParams :
  materialLawParams (problem elemCtx) elemCtx dofIdx timeIdx = Ok materialParams.

Ltac run_to_porosity :=
  unfold run_update, update;
  unfold mbind, stateful_bind, mret, stateful_ret, log, write, this, modify, lift;
  simpl;
  unfold flash_finished, flash_solved, flash_start;
  destruct (updateTemperatures_ _ _ _ _ _) as [energy fs1];
  rewrite HcTotal; simpl;
  destruct (thermodynamicHint elemCtx dofIdx timeIdx) as [hint|]; simpl;
  [|destruct (guessInitial _ _ _) as [fs2 pc2]; simpl];
  rewrite HmaterialParams; simpl;
  destruct (solve _ _ _ _ _) as [fs3 pc3]; simpl;
  rewrite setViscosities_run; simpl.

(** [update] is not all-or-nothing.  When the problem's
    [intrinsicPermeability] throws, as the one of [MultiPhaseBaseProblem]
    does, the exception leaves [update] with the object half updated: the
    porosity, the relative permeabilities and the fluid state are the new
    ones, the permeability and the velocity part are the old ones. *)
Theorem update_permeability_exception_leaves_partial_update
    (phi : Scalar) (e : exception) :
  porosity_of (problem elemCtx) elemCtx dofIdx timeIdx = Ok phi ->
  intrinsicPermeability_of (problem elemCtx) elemCtx dofIdx timeIdx = Throw e ->
  let r := run_update elemCtx dofIdx timeIdx o in
  let fs := flash_finished elemCtx dofIdx timeIdx o cTotal materialParams in
  fst r = Throw e /\
  porosity_ (object (snd r)) = phi /\
  fluidState_ (object (snd r)) = fs /\
  relativePermeability_ (object (snd r))
    = relativePermeabilities (relativePermeability_ o) materialParams fs /\
  intrinsicPerm_ (object (snd r)) = intrinsicPerm_ o /\
  velocityVolumeVariables (object (snd r)) = velocityVolumeVariables o.
Proof.
  intros Hphi HK r fs. subst r fs.
  run_to_porosity.
  all: rewrite Hphi; simpl; rewrite HK; simpl.
  all: done.
Qed.

(** [FlashSolver::guessInitial] is called when the element context has no
    hint for the degree of freedom, and only then; it is called with the
    total concentrations read off the primary variables. *)
Theorem guessInitial_without_hint_only (c : ComponentVector) :
  guessInitial_call c ∈ calls (snd (run_update elemCtx dofIdx timeIdx o)) <->
  thermodynamicHint elemCtx dofIdx timeIdx = None /\ c = cTotal.
Proof.
  rewrite (update_calls _ _ _ _ _ _ HcTotal HmaterialParams).
  rewrite !elem_of_app, !elem_of_cons, list_elem_of_fmap.
  split.
  - intros [Hin|[Hin|[Hin|[Hin|[Hin|[Hin|Hin]]]]]].
    + destruct Hin as [Hin|[Hin|Hin]]; [done..|by apply elem_of_nil in Hin].
    + destruct (thermodynamicHint _ _ _); [by apply elem_of_nil in Hin|].
      apply list_elem_of_singleton in Hin. by injection Hin as ->.
    + destruct Hin as [Hin|[Hin|Hin]]; [done..|by apply elem_of_nil in Hin].
    + by destruct Hin as (i & Hin & _).
    + destruct Hin as [Hin|[Hin|Hin]]; [done..|by apply elem_of_nil in Hin].
    + destruct (is_Ok _); [|by apply elem_of_nil in Hin].
      by apply list_elem_of_singleton in Hin.
    + destruct (is_Ok _); [|by apply elem_of_nil in Hin].
      rewrite !elem_of_cons in Hin.
      destruct Hin as [Hin|[Hin|[Hin|Hin]]]; [done..|by apply elem_of_nil in Hin].
  - intros [-> ->]. right; left. by apply list_elem_of_singleton.
Qed.

End FlashVolumeVariablesObject.

Lemma update_permeability_exception_leaves_partial_update_witness :
  let r :=
    FlashVolumeVariables.run_update (H0 := Examples.flash2p2c_permeability_missing)
      [0.5; 0.5]%float 0 0 Examples.coldVolumeVariables in
  FlashVolumeVariables.porosity_ (FlashVolumeVariables.object (snd r)) = 0.3%float /\
  FlashVolumeVariables.intrinsicPerm_ (FlashVolumeVariables.object (snd r))
    = FlashVolumeVariables.intrinsicPerm_ Examples.coldVolumeVariables.
Proof.
  destruct (update_permeability_exception_leaves_partial_update
              (H0 := Examples.flash2p2c_permeability_missing)
              [0.5; 0.5]%float 0 0 Examples.coldVolumeVariables [0.5; 0.5]%float tt
              eq_refl eq_refl 0.3%float
              (Exception std_logic_error
                 "Not implemented: Problem::intrinsicPermeability()")
              eq_refl eq_refl)
    as (_ & Hphi & _ & _ & HK & _).
  split; [exact Hphi|exact HK].
Defined.

Lemma guessInitial_without_hint_only_witness :
  FlashVolumeVariables.guessInitial_call (H := Examples.flash2p2c) [0.5; 0.5]%float
    ∈ FlashVolumeVariables.calls
        (snd (FlashVolumeVariables.run_update
                (H0 := Examples.flash2p2c_collaborators None)
                [0.5; 0.5]%float 0 0 Examples.coldVolumeVariables)).
Proof.
  apply (guessInitial_without_hint_only (H0 := Examples.flash2p2c_collaborators None)
           [0.5; 0.5]%float 0 0 Examples.coldVolumeVariables [0.5; 0.5]%float tt
           eq_refl eq_refl [0.5; 0.5]%float).
  split; reflexivity.
Defined.

Section InjectionProblemConstruction.
Import InjectionProblem.
Context {Entity IntersectionIterator : Type}.
Context (dim : nat).

(** In two or more dimensions the constructor returns a problem whose
    gravity has the components 0 and -9.81 and, from the third component
    on, whatever the memory held; with it the Dirichlet water pressure at
    [x] is [1e5 - 1000.0 * (-9.81) * (depthBOR - x[1])]. *)
Theorem constructor_sets_two_gravity_components
    (junk_innerLowerLeft junk_innerUpperRight junk_gravity : nat -> Scalar)
    (outerLowerLeft outerUpperRight innerLowerLeft innerUpperRight : FieldVector)
    (depthBOR : Scalar) :
  (2 <= dim)%nat ->
  length outerLowerLeft = dim -> length outerUpperRight = dim ->
  exists this,
    constructor dim junk_innerLowerLeft junk_innerUpperRight junk_gravity
      outerLowerLeft outerUpperRight innerLowerLeft innerUpperRight depthBOR
    = Ok this /\
    length (gravity this) = dim /\
    gravity this !! 0%nat = Some 0%float /\
    gravity this !! 1%nat = Some (-9.81)%float /\
    (forall k, (2 <= k < dim)%nat -> gravity this !! k = Some (junk_gravity k)) /\
    InjectionProblem.depthBOR this = depthBOR /\
    forall (x : FieldVector) (x1 : Scalar) (e : Entity)
           (intersectionIt : IntersectionIterator) (xi : FieldVector),
      x !! 1%nat = Some x1 ->
      g this x e intersectionIt xi =
        Ok [(1e5 - 1000.0 * (-9.81) * (depthBOR - x1))%float; 1e-6%float].
Proof.
  intros Hdim Hll Hur. unfold constructor.
  destruct (lookup_lt_is_Some_2 outerUpperRight 0 ltac:(lia)) as [r0 Hr0].
  destruct (lookup_lt_is_Some_2 outerUpperRight 1 ltac:(lia)) as [r1 Hr1].
  destruct (lookup_lt_is_Some_2 outerLowerLeft 0 ltac:(lia)) as [l0 Hl0].
  destruct (lookup_lt_is_Some_2 outerLowerLeft 1 ltac:(lia)) as [l1 Hl1].
  rewrite (at_Some _ 0 r0 Hr0 : at_ outerUpperRight 0 = Ok r0). simpl.
  rewrite (at_Some _ 1 r1 Hr1 : at_ outerUpperRight 1 = Ok r1). simpl.
  rewrite (at_Some _ 1 l1 Hl1 : at_ outerLowerLeft 1 = Ok l1). simpl.
  rewrite (at_Some _ 0 l0 Hl0 : at_ outerLowerLeft 0 = Ok l0). simpl.
  pose proof (length_indeterminate_vector dim junk_gravity) as Hlen.
  match goal with |- context [store ?v 0 ?a] =>
    assert (Hst0 : store v 0 a = Ok (<[0%nat := a]> v))
      by (apply (store_in_range _ 0); lia);
    rewrite Hst0; clear Hst0
  end.
  simpl.
  match goal with |- context [@store ?A ?v 1 ?a] =>
    assert (Hst1 : @store A v 1 a = Ok (<[1%nat := a]> v))
      by (apply (store_in_range _ 1);
          rewrite length_insert, length_indeterminate_vector; lia);
    rewrite Hst1; clear Hst1
  end.
  simpl. eexists. split; [reflexivity|]. unfold gravity, InjectionProblem.depthBOR.
  simpl. split; [by rewrite !length_insert, length_indeterminate_vector|].
  assert (Hg1 : <[1%nat := (-9.81)%float]>
                  (<[0%nat := 0%float]> (indeterminate_vector dim junk_gravity))
                !! 1%nat = Some (-9.81)%float).
  { apply list_lookup_insert_eq.
    rewrite length_insert, length_indeterminate_vector. lia. }
  split; [|split; [exact Hg1|split; [|split; [reflexivity|]]]].
  - rewrite list_lookup_insert_ne by lia. apply list_lookup_insert_eq.
    rewrite length_indeterminate_vector. lia.
  - intros k Hk. rewrite !list_lookup_insert_ne by lia.
    unfold indeterminate_vector. rewrite list_lookup_fmap.
    by rewrite lookup_seq_lt by lia.
  - intros x x1 e intersectionIt xi Hx. unfold g. simpl.
    match goal with |- context [@at_ ?A (<[1%nat := ?a]> ?v) 1] =>
      replace (@at_ A (<[1%nat := a]> v) 1) with (Ok a)
        by (symmetry; exact (at_Some _ 1 _ Hg1))
    end.
    simpl.
    rewrite (at_Some _ 1 x1 Hx : at_ x 1 = Ok x1). reflexivity.
Qed.

(** In one dimension (or none) the constructor writes [gravity_[1]] past
    the end of the vector, whatever its arguments are. *)
Theorem constructor_out_of_bounds_below_two_dimensions
    (junk_innerLowerLeft junk_innerUpperRight junk_gravity : nat -> Scalar)
    (outerLowerLeft outerUpperRight innerLowerLeft innerUpperRight : FieldVector)
    (depthBOR : Scalar) :
  (dim < 2)%nat ->
  length outerLowerLeft = dim -> length outerUpperRight = dim ->
  constructor dim junk_innerLowerLeft junk_innerUpperRight junk_gravity
    outerLowerLeft outerUpperRight innerLowerLeft innerUpperRight depthBOR
  = Undefined.
Proof.
  intros Hdim Hll Hur. unfold constructor.
  destruct (at_ outerUpperRight 0) as [r0| |] eqn:Hr0; simpl; [| |reflexivity].
  - destruct (at_ outerUpperRight 1) as [r1| |] eqn:Hr1; simpl; [| |reflexivity].
    + apply at_Ok in Hr1 as [_ Hr1]. apply lookup_lt_Some in Hr1.
      change (Z.to_nat 1) with 1%nat in Hr1. lia.
    + unfold at_ in Hr1. destruct (decide _); [|done].
      by destruct (outerUpperRight !! _).
  - unfold at_ in Hr0. destruct (decide _); [|done].
    by destruct (outerUpperRight !! _).
Qed.

End InjectionProblemConstruction.

Lemma constructor_sets_two_gravity_components_witness :
  exists this,
    InjectionProblem.constructor 3 (fun _ => 7%float) (fun _ => 7%float)
      (fun k => 7%float) [0; 0; 0]%float [60; 40; 10]%float [0; 0; 0]%float
      [0; 0; 0]%float 800%float
    = Ok this /\
    InjectionProblem.gravity this = [0; -9.81; 7]%float.
Proof.
  destruct (constructor_sets_two_gravity_components (Entity := unit)
              (IntersectionIterator := unit) 3
              (fun _ => 7%float) (fun _ => 7%float) (fun k => 7%float)
              [0; 0; 0]%float [60; 40; 10]%float [0; 0; 0]%float [0; 0; 0]%float
              800%float ltac:(lia) eq_refl eq_refl)
    as (this & Hthis & Hlen & Hg0 & Hg1 & Hg & _).
  exists this. split; [exact Hthis|].
  pose proof (Hg 2%nat ltac:(lia)) as Hg2.
  destruct (InjectionProblem.gravity this) as [|a [|b [|c [|d v]]]];
    simpl in *; try discriminate.
  injection Hg0 as ->. injection Hg1 as ->. injection Hg2 as ->. reflexivity.
Defined.

Lemma constructor_out_of_bounds_below_two_dimensions_witness :
  InjectionProblem.constructor 1 (fun _ => 7%float) (fun _ => 7%float)
    (fun k => 7%float) [0%float] [60%float] [0%float] [0%float] 800%float
  = Undefined.
Proof.
  apply (constructor_out_of_bounds_below_two_dimensions 1); [lia|reflexivity..].
Defined.

(* ===================================================================== *)
(** * VtkBlackOilModule: the five buffers together                        *)
(* ===================================================================== *)

Section Keeps.
Context {S : Type} (R : S -> S -> Prop).
Context `{!Reflexive R, !Transitive R}.

Lemma keeps_ret {A} (a : A) : keeps R (mret a).
Proof. intros s. simpl. reflexivity. Qed.

Lemma keeps_bind {A C} (m : stateful S A) (f : A -> stateful S C) :
  keeps R m -> (forall a, keeps R (f a)) -> keeps R (m ≫= f).
Proof.
  intros Hm Hf s. unfold mbind, stateful_bind.
  specialize (Hm s). destruct (m s) as [[a|e|] s']; simpl in *; [|done..].
  transitivity s'; [exact Hm|apply Hf].
Qed.

Lemma keeps_when (c : bool) (m : stateful S unit) :
  keeps R m -> keeps R (when c m).
Proof. intros Hm. destruct c; [exact Hm|apply keeps_ret]. Qed.

Lemma keeps_for_ (n : nat) (body : nat -> stateful S unit) :
  (forall i, (i < n)%nat -> keeps R (body i)) -> keeps R (for_ n body).
Proof.
  intros Hbody. unfold for_.
  assert (Hgen : forall l, (forall i, i ∈ l -> (i < n)%nat) ->
            keeps R (foldr (fun i rest => body i;; rest) (mret tt) l)).
  { induction l as [|i l IH]; intros Hl; [apply keeps_ret|].
    simpl. apply keeps_bind.
    - apply Hbody, Hl. by left.
    - intros _. apply IH. intros j Hj. apply Hl. by right. }
  apply Hgen. intros i Hi. apply elem_of_seq in Hi. lia.
Qed.

End Keeps.

Section VtkBlackOilModuleBuffers.
Import VtkBlackOilModule.
Context `{TypeTag}.

(** What a round of the loop of [processElement] that ends normally has
    done to each buffer: an assignment at the global index when the
    parameter of the buffer is on, nothing when it is off. *)
Lemma processDof_Ok (elemCtx : ElementContext) (dofIdx : Z) (o o' : t) :
  processDof elemCtx dofIdx o = (Ok tt, o') ->
  let globalDofIdx := globalSpaceIndex elemCtx dofIdx 0 in
  let po := Toolbox_value (fs_pressure elemCtx dofIdx 0 oilPhaseIdx) in
  let To := Toolbox_value (fs_temperature elemCtx dofIdx 0 oilPhaseIdx) in
  let X_oG := Toolbox_value (fs_massFraction elemCtx dofIdx 0 oilPhaseIdx gasCompIdx) in
  let X_gO := Toolbox_value (fs_massFraction elemCtx dofIdx 0 gasPhaseIdx oilCompIdx) in
  let regionIdx := pvtRegionIndex elemCtx dofIdx 0 in
  (if VtkWriteGasDissolutionFactor
   then store (gasDissolutionFactor_ o) globalDofIdx (R_s elemCtx dofIdx)
        = Ok (gasDissolutionFactor_ o')
   else gasDissolutionFactor_ o' = gasDissolutionFactor_ o) /\
  (if VtkWriteSaturatedOilGasDissolutionFactor
   then store (saturatedOilGasDissolutionFactor_ o) globalDofIdx
          (gasDissolutionFactor To po regionIdx)
        = Ok (saturatedOilGasDissolutionFactor_ o')
   else saturatedOilGasDissolutionFactor_ o' = saturatedOilGasDissolutionFactor_ o) /\
  (if VtkWriteGasFormationVolumeFactor
   then store (gasFormationVolumeFactor_ o) globalDofIdx
          (gasFormationVolumeFactor To po X_gO regionIdx)
        = Ok (gasFormationVolumeFactor_ o')
   else gasFormationVolumeFactor_ o' = gasFormationVolumeFactor_ o) /\
  (if VtkWriteOilFormationVolumeFactor
   then store (saturatedOilFormationVolumeFactor_ o) globalDofIdx
          (saturatedOilFormationVolumeFactor To po regionIdx)
        = Ok (saturatedOilFormationVolumeFactor_ o')
   else saturatedOilFormationVolumeFactor_ o' = saturatedOilFormationVolumeFactor_ o) /\
  (if VtkWriteOilSaturationPressure
   then store (oilSaturationPressure_ o) globalDofIdx
          (oilSaturationPressure To X_oG regionIdx)
        = Ok (oilSaturationPressure_ o')
   else oilSaturationPressure_ o' = oilSaturationPressure_ o).
Proof.
  unfold processDof, R_s, gasDissolutionFactorOutput_,
    saturatedOilGasDissolutionFactorOutput_, gasFormationVolumeFactorOutput_,
    saturatedOilFormationVolumeFactorOutput_, oilSaturationPressureOutput_.
  intros Hrun. cbv zeta.
  destruct VtkWriteGasDissolutionFactor, VtkWriteSaturatedOilGasDissolutionFactor,
    VtkWriteGasFormationVolumeFactor, VtkWriteOilFormationVolumeFactor,
    VtkWriteOilSaturationPressure.
  all: unfold when, mbind, stateful_bind, mret, stateful_ret, assign_at in Hrun.
  all: simpl in Hrun.
  all: repeat match type of Hrun with
       | context [store ?b ?g ?x] =>
           let Hst := fresh "Hst" in
           destruct (store b g x) eqn:Hst; simpl in Hrun; try discriminate Hrun
       end.
  all: injection Hrun as <-; simpl.
  all: repeat split; first [assumption | reflexivity].
Qed.

(** A loop whose round [i], when it ends normally, has stored [value i] at
    the index [global i], these indices being distinct, ends normally with
    [value d] at every index [global d]. *)
Lemma stored_by_loop (member : t -> ScalarBuffer) (global : Z -> Z) (value : Z -> Scalar)
    (n : nat) (body : nat -> stateful t unit) (o o' : t) :
  (forall i s s', (i < n)%nat -> body i s = (Ok tt, s') ->
     store (member s) (global (Z.of_nat i)) (value (Z.of_nat i)) = Ok (member s')) ->
  (forall i j, 0 <= i < Z.of_nat n -> 0 <= j < Z.of_nat n ->
     global i = global j -> i = j) ->
  for_ n body o = (Ok tt, o') ->
  forall d, 0 <= d < Z.of_nat n -> at_ (member o') (global d) = Ok (value d).
Proof.
  intros Hbody Hinj Hrun.
  assert (Hinv : forall d, (d < n)%nat ->
            at_ (member o') (global (Z.of_nat d)) = Ok (value (Z.of_nat d))).
  { revert Hrun. apply (for_invariant (fun k s => forall d, (d < k)%nat ->
      at_ (member s) (global (Z.of_nat d)) = Ok (value (Z.of_nat d)))).
    - intros d Hd. lia.
    - intros k s s' Hk IH Hround d Hd.
      apply Hbody in Hround; [|exact Hk].
      apply store_Ok in Hround as [Hrange Hbuf]. rewrite Hbuf. unfold at_.
      destruct (decide (d = k)) as [->|Hdk].
      + rewrite decide_True by lia.
        rewrite list_lookup_insert_eq by lia. reflexivity.
      + assert (Hd' : (d < k)%nat) by lia.
        specialize (IH d Hd'). apply at_Ok in IH as [Hnonneg IH].
        rewrite decide_True by lia.
        rewrite list_lookup_insert_ne; [by rewrite IH|].
        intros Heq. apply Hdk.
        assert (Z.of_nat k = Z.of_nat d); [|lia].
        apply Hinj; lia. }
  intros d Hd. specialize (Hinv (Z.to_nat d) ltac:(lia)).
  by rewrite Z2Nat.id in Hinv by lia.
Qed.

(** With its parameter on, each of the four buffers that are filled from
    the fluid system holds, once [processElement] has ended normally (the
    global indices of the primary degrees of freedom being distinct), at
    the global index of every primary degree of freedom: "R_s,sat"
    [gasDissolutionFactor(To, po, regionIdx)], "B_g"
    [gasFormationVolumeFactor(To, po, X_gO, regionIdx)], "B_o"
    [saturatedOilFormationVolumeFactor(To, po, regionIdx)] and
    "pressure_sat,o" [oilSaturationPressure(To, X_oG, regionIdx)]. *)
Theorem fluid_system_quantities_output (elemCtx : ElementContext) (o o' : t) :
  processElement elemCtx o = (Ok tt, o') ->
  (forall i j, 0 <= i < numPrimaryDof elemCtx 0 -> 0 <= j < numPrimaryDof elemCtx 0 ->
     globalSpaceIndex elemCtx i 0 = globalSpaceIndex elemCtx j 0 -> i = j) ->
  forall dofIdx, 0 <= dofIdx < numPrimaryDof elemCtx 0 ->
    let globalDofIdx := globalSpaceIndex elemCtx dofIdx 0 in
    let po := Toolbox_value (fs_pressure elemCtx dofIdx 0 oilPhaseIdx) in
    let To := Toolbox_value (fs_temperature elemCtx dofIdx 0 oilPhaseIdx) in
    let X_oG := Toolbox_value (fs_massFraction elemCtx dofIdx 0 oilPhaseIdx gasCompIdx) in
    let X_gO := Toolbox_value (fs_massFraction elemCtx dofIdx 0 gasPhaseIdx oilCompIdx) in
    let regionIdx := pvtRegionIndex elemCtx dofIdx 0 in
    (VtkWriteSaturatedOilGasDissolutionFactor = true ->
     at_ (saturatedOilGasDissolutionFactor_ o') globalDofIdx
     = Ok (gasDissolutionFactor To po regionIdx)) /\
    (VtkWriteGasFormationVolumeFactor = true ->
     at_ (gasFormationVolumeFactor_ o') globalDofIdx
     = Ok (gasFormationVolumeFactor To po X_gO regionIdx)) /\
    (VtkWriteOilFormationVolumeFactor = true ->
     at_ (saturatedOilFormationVolumeFactor_ o') globalDofIdx
     = Ok (saturatedOilFormationVolumeFactor To po regionIdx)) /\
    (VtkWriteOilSaturationPressure = true ->
     at_ (oilSaturationPressure_ o') globalDofIdx
     = Ok (oilSaturationPressure To X_oG regionIdx)).
Proof.
  intros Hrun Hinj dofIdx Hdof. cbv zeta. unfold processElement in Hrun.
  set (global := fun d => globalSpaceIndex elemCtx d 0).
  assert (Hinj' : forall i j,
            0 <= i < Z.of_nat (Z.to_nat (numPrimaryDof elemCtx 0)) ->
            0 <= j < Z.of_nat (Z.to_nat (numPrimaryDof elemCtx 0)) ->
            global i = global j -> i = j).
  { intros i j Hi Hj. apply Hinj; lia. }
  assert (Hdof' : 0 <= dofIdx < Z.of_nat (Z.to_nat (numPrimaryDof elemCtx 0))) by lia.
  repeat split; intros Hon.
  - refine (stored_by_loop saturatedOilGasDissolutionFactor_ global
              (fun d => gasDissolutionFactor
                 (Toolbox_value (fs_temperature elemCtx d 0 oilPhaseIdx))
                 (Toolbox_value (fs_pressure elemCtx d 0 oilPhaseIdx))
                 (pvtRegionIndex elemCtx d 0))
              _ _ o o' _ Hinj' Hrun dofIdx Hdof').
    intros i s s' _ Hround. apply processDof_Ok in Hround. cbv zeta in Hround.
    rewrite Hon in Hround. apply Hround.
  - refine (stored_by_loop gasFormationVolumeFactor_ global
              (fun d => gasFormationVolumeFactor
                 (Toolbox_value (fs_temperature elemCtx d 0 oilPhaseIdx))
                 (Toolbox_value (fs_pressure elemCtx d 0 oilPhaseIdx))
                 (Toolbox_value (fs_massFraction elemCtx d 0 gasPhaseIdx oilCompIdx))
                 (pvtRegionIndex elemCtx d 0))
              _ _ o o' _ Hinj' Hrun dofIdx Hdof').
    intros i s s' _ Hround. apply processDof_Ok in Hround. cbv zeta in Hround.
    rewrite Hon in Hround. apply Hround.
  - refine (stored_by_loop saturatedOilFormationVolumeFactor_ global
              (fun d => saturatedOilFormationVolumeFactor
                 (Toolbox_value (fs_temperature elemCtx d 0 oilPhaseIdx))
                 (Toolbox_value (fs_pressure elemCtx d 0 oilPhaseIdx))
                 (pvtRegionIndex elemCtx d 0))
              _ _ o o' _ Hinj' Hrun dofIdx Hdof').
    intros i s s' _ Hround. apply processDof_Ok in Hround. cbv zeta in Hround.
    rewrite Hon in Hround. apply Hround.
  - refine (stored_by_loop oilSaturationPressure_ global
              (fun d => oilSaturationPressure
                 (Toolbox_value (fs_temperature elemCtx d 0 oilPhaseIdx))
                 (Toolbox_value (fs_massFraction elemCtx d 0 oilPhaseIdx gasCompIdx))
                 (pvtRegionIndex elemCtx d 0))
              _ _ o o' _ Hinj' Hrun dofIdx Hdof').
    intros i s s' _ Hround. apply processDof_Ok in Hround. cbv zeta in Hround.
    rewrite Hon in Hround. apply Hround.
Qed.

(** The buffers of [o'] have the lengths of those of [o] and differ from
    them at the indices [written] at most. *)
Local Abbreviation written_only written o o' :=
  (Forall2
     (fun b b' : list Scalar =>
        length b' = length b /\
        forall k : nat, ~ written k -> b' !! k = b !! k)
     (buffers o) (buffers o')).

Lemma written_only_refl (written : nat -> Prop) : Reflexive (fun o o' => written_only written o o').
Proof. intros o. unfold buffers. repeat constructor. Qed.

Lemma written_only_trans (written : nat -> Prop) :
  Transitive (fun o o' => written_only written o o').
Proof.
  assert (Hbuffer : Transitive
            (fun b b' : list Scalar =>
               length b' = length b /\
               forall k : nat, ~ written k -> b' !! k = b !! k)).
  { intros b1 b2 b3 [Hlen12 Hk12] [Hlen23 Hk23]. split; [congruence|].
    intros k Hk. rewrite Hk23, Hk12; done. }
  intros o1 o2 o3 H12 H23. by transitivity (buffers o2).
Qed.

Lemma written_only_assign_at (written : nat -> Prop) (globalDofIdx : Z) (x : Scalar)
    (member : t -> ScalarBuffer) (set_member : ScalarBuffer -> t -> t) :
  (0 <= globalDofIdx -> written (Z.to_nat globalDofIdx)) ->
  (forall b o, Forall2 (fun c c' : list Scalar => c' = c \/ (c = member o /\ c' = b))
                 (buffers o) (buffers (set_member b o))) ->
  keeps (fun o o' => written_only written o o')
    (assign_at member set_member globalDofIdx x).
Proof.
  intros Hwritten Hset o. unfold assign_at.
  destruct (store (member o) globalDofIdx x) as [b| |] eqn:Hstore; simpl;
    [|apply written_only_refl..].
  apply store_Ok in Hstore as [Hrange ->].
  eapply Forall2_impl; [apply Hset|].
  intros c c' [->|[-> ->]]; [done|].
  split; [apply length_insert|].
  intros k Hk. apply list_lookup_insert_ne. intros <-. apply Hk, Hwritten. lia.
Qed.

(** The loop of [processElement] keeps the length of every buffer and
    every entry but those at the global indices of the primary degrees of
    freedom of the element. *)
Lemma processElement_other_entries (elemCtx : ElementContext) (o : t) :
  Forall2
    (fun b b' : list Scalar =>
       length b' = length b /\
       forall k : nat,
         ~ (exists dofIdx, 0 <= dofIdx < numPrimaryDof elemCtx 0 /\
                           globalSpaceIndex elemCtx dofIdx 0 = Z.of_nat k) ->
         b' !! k = b !! k)
    (buffers o) (buffers (snd (processElement elemCtx o))).
Proof.
  set (written := fun k : nat =>
         exists dofIdx, 0 <= dofIdx < numPrimaryDof elemCtx 0 /\
                        globalSpaceIndex elemCtx dofIdx 0 = Z.of_nat k).
  pose proof (written_only_refl written) as Hrefl.
  pose proof (written_only_trans written) as Htrans.
  revert o. change (keeps (fun o o' => written_only written o o')
                      (processElement elemCtx)).
  unfold processElement. apply keeps_for_; [exact Hrefl|exact Htrans|].
  intros i Hi. unfold processDof.
  assert (Hwritten : 0 <= globalSpaceIndex elemCtx (Z.of_nat i) 0 ->
                     written (Z.to_nat (globalSpaceIndex elemCtx (Z.of_nat i) 0))).
  { intros Hnonneg. exists (Z.of_nat i). split; lia. }
  repeat first
    [ apply keeps_bind; [exact Htrans| |intros ?]
    | apply keeps_when; [exact Hrefl|] ].
  all: apply (written_only_assign_at written); [exact Hwritten|].
  all: intros b s; unfold buffers; simpl.
  all: repeat (constructor; [first [by left | by right]|]).
  all: constructor.
Qed.

(** When [processElement] has returned, it has resized no buffer and has
    written, if at all, at the global indices of the primary degrees of
    freedom of the element: every other entry of every buffer is as
    before. *)
Theorem processElement_writes_at_global_indices (elemCtx : ElementContext) (o o' : t) :
  processElement elemCtx o = (Ok tt, o') ->
  Forall2
    (fun b b' : list Scalar =>
       length b' = length b /\
       forall k : nat,
         ~ (exists dofIdx, 0 <= dofIdx < numPrimaryDof elemCtx 0 /\
                           globalSpaceIndex elemCtx dofIdx 0 = Z.of_nat k) ->
         b' !! k = b !! k)
    (buffers o) (buffers o').
Proof.
  intros Hrun. pose proof (processElement_other_entries elemCtx o) as Hother.
  by rewrite Hrun in Hother.
Qed.

(** Handed a [VtkMultiWriter], [commitBuffers] appends to what the writer
    holds the buffers whose parameter is on, in the order "R_s", "R_s,sat",
    "B_g", "B_o", "pressure_sat,o", and nothing else; handed another
    writer, it leaves the writer as it is.  It returns normally. *)
Theorem commitBuffers_appends_enabled_buffers (o : t) (w : BaseOutputWriter) :
  commitBuffers o w =
  (Ok tt,
   if isVtkMultiWriter w then
     {| isVtkMultiWriter := true;
        committed :=
          committed w
          ++ (if VtkWriteGasDissolutionFactor
              then [("R_s", gasDissolutionFactor_ o)] else [])
          ++ (if VtkWriteSaturatedOilGasDissolutionFactor
              then [("R_s,sat", saturatedOilGasDissolutionFactor_ o)] else [])
          ++ (if VtkWriteGasFormationVolumeFactor
              then [("B_g", gasFormationVolumeFactor_ o)] else [])
          ++ (if VtkWriteOilFormationVolumeFactor
              then [("B_o", saturatedOilFormationVolumeFactor_ o)] else [])
          ++ (if VtkWriteOilSaturationPressure
              then [("pressure_sat,o", oilSaturationPressure_ o)] else []) |}
   else w).
Proof.
  unfold commitBuffers, gasDissolutionFactorOutput_,
    saturatedOilGasDissolutionFactorOutput_, gasFormationVolumeFactorOutput_,
    saturatedOilFormationVolumeFactorOutput_, oilSaturationPressureOutput_.
  unfold mbind at 1, stateful_bind at 1, get.
  destruct w as [[] held]; simpl; [|reflexivity].
  destruct VtkWriteGasDissolutionFactor, VtkWriteSaturatedOilGasDissolutionFactor,
    VtkWriteGasFormationVolumeFactor, VtkWriteOilFormationVolumeFactor,
    VtkWriteOilSaturationPressure.
  all: unfold when, mbind, stateful_bind, mret, stateful_ret, commitScalarBuffer_, modify.
  all: simpl; rewrite <- ?app_assoc, ?app_nil_r; reflexivity.
Qed.

(** With the five parameters off, as they are by default, the module does
    nothing: [allocBuffers] and [processElement] return with the object as
    it was, [commitBuffers] with the writer as it was. *)
Theorem module_inert_when_all_parameters_off (o : t) (elemCtx : ElementContext)
    (w : BaseOutputWriter) :
  VtkWriteGasDissolutionFactor = false ->
  VtkWriteSaturatedOilGasDissolutionFactor = false ->
  VtkWriteGasFormationVolumeFactor = false ->
  VtkWriteOilFormationVolumeFactor = false ->
  VtkWriteOilSaturationPressure = false ->
  allocBuffers o = (Ok tt, o) /\
  processElement elemCtx o = (Ok tt, o) /\
  commitBuffers o w = (Ok tt, w).
Proof.
  intros Hoff1 Hoff2 Hoff3 Hoff4 Hoff5. split; [|split].
  - unfold allocBuffers, gasDissolutionFactorOutput_,
      saturatedOilGasDissolutionFactorOutput_, gasFormationVolumeFactorOutput_,
      saturatedOilFormationVolumeFactorOutput_, oilSaturationPressureOutput_.
    rewrite Hoff1, Hoff2, Hoff3, Hoff4, Hoff5. reflexivity.
  - unfold processElement, for_.
    generalize (seq 0 (Z.to_nat (numPrimaryDof elemCtx 0))) as l.
    induction l as [|dofIdx l IH]; [reflexivity|].
    simpl. unfold mbind at 1, stateful_bind at 1.
    unfold processDof at 1, gasDissolutionFactorOutput_,
      saturatedOilGasDissolutionFactorOutput_, gasFormationVolumeFactorOutput_,
      saturatedOilFormationVolumeFactorOutput_, oilSaturationPressureOutput_.
    rewrite Hoff1, Hoff2, Hoff3, Hoff4, Hoff5. simpl. exact IH.
  - unfold commitBuffers, gasDissolutionFactorOutput_,
      saturatedOilGasDissolutionFactorOutput_, gasFormationVolumeFactorOutput_,
      saturatedOilFormationVolumeFactorOutput_, oilSaturationPressureOutput_.
    rewrite Hoff1, Hoff2, Hoff3, Hoff4, Hoff5.
    unfold mbind at 1, stateful_bind at 1, get.
    by destruct w as [[] held].
Qed.

End VtkBlackOilModuleBuffers.

Lemma fluid_system_quantities_output_witness :
  let elemCtx := [(0.2%float, 2); (0.1%float, 0)] in
  let o := snd (VtkBlackOilModule.allocBuffers (H := Examples.blackOilAll)
                  Examples.emptyModule) in
  at_ (VtkBlackOilModule.oilSaturationPressure_
         (snd (VtkBlackOilModule.processElement (H := Examples.blackOilAll) elemCtx o))) 2
  = Ok (1e7 * 0.2)%float.
Proof.
  intros elemCtx o.
  assert (Hinj : forall i j : Z, 0 <= i < 2 -> 0 <= j < 2 ->
            VtkBlackOilModule.globalSpaceIndex (TypeTag := Examples.blackOilAll) elemCtx i 0
            = VtkBlackOilModule.globalSpaceIndex (TypeTag := Examples.blackOilAll) elemCtx j 0 ->
            i = j).
  { intros i j Hi Hj.
    assert (Hi' : i = 0 \/ i = 1) by lia.
    assert (Hj' : j = 0 \/ j = 1) by lia.
    destruct Hi' as [-> | ->], Hj' as [-> | ->]; simpl; intros Heq;
      first [reflexivity | discriminate Heq]. }
  destruct (fluid_system_quantities_output (H := Examples.blackOilAll) elemCtx o
              _ eq_refl Hinj 0 ltac:(simpl; lia))
    as (_ & _ & _ & Hp).
  exact (Hp eq_refl).
Defined.

Lemma module_inert_when_all_parameters_off_witness :
  VtkBlackOilModule.processElement (H := Examples.blackOilNone)
    [(0.2%float, 2); (0.1%float, 0)] Examples.emptyModule
  = (Ok tt, Examples.emptyModule).
Proof.
  exact (proj1 (proj2
    (module_inert_when_all_parameters_off (H := Examples.blackOilNone)
       Examples.emptyModule [(0.2%float, 2); (0.1%float, 0)] Examples.vtkWriter
       eq_refl eq_refl eq_refl eq_refl eq_refl))).
Defined.

Lemma processElement_writes_at_global_indices_witness :
  let elemCtx := [(0.2%float, 2); (0.1%float, 0)] in
  let o := snd (VtkBlackOilModule.allocBuffers (H := Examples.blackOilAll)
                  Examples.emptyModule) in
  VtkBlackOilModule.gasDissolutionFactor_
    (snd (VtkBlackOilModule.processElement (H := Examples.blackOilAll) elemCtx o))
    !! 1%nat
  = VtkBlackOilModule.gasDissolutionFactor_ o !! 1%nat.
Proof.
  intros elemCtx o.
  pose proof (processElement_writes_at_global_indices (H := Examples.blackOilAll)
                elemCtx o _ eq_refl) as Hother.
  apply Forall2_cons_1 in Hother as [[_ Hentry] _].
  apply Hentry. intros (dofIdx & Hdof & Hglobal). simpl in Hdof.
  assert (Hd : dofIdx = 0 \/ dofIdx = 1) by lia.
  destruct Hd as [-> | ->]; simpl in Hglobal; lia.
Defined.

(* ===================================================================== *)
(** * Stokes2cniModel: the eight fields together                          *)
(* ===================================================================== *)

Section ForEachTotal.
Context {A S : Type}.

(** A loop whose rounds succeed from every state with the invariant, and
    keep it, succeeds and ends in a state with the invariant. *)
Lemma for_each_total (I : S -> Prop) (l : list A) (body : A -> S -> outcome S) (s0 : S) :
  I s0 ->
  (forall a s, a ∈ l -> I s -> exists s', body a s = Ok s' /\ I s') ->
  exists s, for_each l body s0 = Ok s /\ I s.
Proof.
  revert s0. induction l as [|a l IH]; intros s0 HI Hstep; simpl.
  - by exists s0.
  - destruct (Hstep a s0 ltac:(by left) HI) as (s1 & -> & HI1). simpl.
    apply IH; [exact HI1|]. intros b s Hb. apply Hstep. by right.
Qed.

End ForEachTotal.

Section Stokes2cniModelFields.
Import Stokes2cniModel.
Context `{TypeTag}.
Context (this : t) (sol : SolutionVector).

(** The vertex fields have [numVertices] entries and the field of the
    ranks has [numElements]. *)
Local Abbreviation sized numVertices numElements f :=
  (Forall (fun field : list Scalar => length field = numVertices) (scalarFields f) /\
   length (velocity_field f) = numVertices /\
   length (rank f) = numElements).

(** The assignments for a vertex, one by one. *)
Lemma assignVertex_Ok (globalIdx : Z) (vv : VolumeVariables) (f f' : Fields) :
  assignVertex globalIdx vv f = Ok f' ->
  store (pN f) globalIdx (pressure vv) = Ok (pN f') /\
  store (delP f) globalIdx (pressure vv - 1e5)%float = Ok (delP f') /\
  store (Xw f) globalIdx (massFraction vv phaseIdx lCompIdx) = Ok (Xw f') /\
  store (T f) globalIdx (temperature vv) = Ok (T f') /\
  store (rho f) globalIdx (density vv) = Ok (rho f') /\
  store (mu f) globalIdx (viscosity vv) = Ok (mu f') /\
  store (h f) globalIdx (enthalpy vv) = Ok (h f') /\
  store (velocity_field f) globalIdx (velocity vv) = Ok (velocity_field f') /\
  rank f' = rank f.
Proof.
  unfold assignVertex, mbind, outcome_bind. intros Hrun.
  destruct (store (pN f) _ _) as [pN'| |]; try discriminate.
  destruct (store (delP f) _ _) as [delP'| |]; try discriminate.
  destruct (store (Xw f) _ _); try discriminate.
  destruct (store (T f) _ _); try discriminate.
  destruct (store (rho f) _ _); try discriminate.
  destruct (store (mu f) _ _); try discriminate.
  destruct (store (h f) _ _); try discriminate.
  destruct (store (velocity_field f) _ _); try discriminate.
  injection Hrun as <-. simpl. done.
Qed.

Lemma store_total {A} (v : list A) (i : Z) (a : A) :
  0 <= i < Z.of_nat (length v) ->
  exists v', store v i a = Ok v' /\ length v' = length v.
Proof.
  intros Hi. unfold store. rewrite decide_True by done.
  eexists. split; [reflexivity|]. apply length_insert.
Qed.

Lemma assignVertex_total (globalIdx : Z) (vv : VolumeVariables) (f : Fields)
    (numVertices numElements : nat) :
  0 <= globalIdx < Z.of_nat numVertices ->
  sized numVertices numElements f ->
  exists f', assignVertex globalIdx vv f = Ok f' /\ sized numVertices numElements f'.
Proof.
  intros Hidx (Hscalars & Hvelocity & Hrank).
  unfold scalarFields in Hscalars.
  repeat (apply Forall_cons in Hscalars as [? Hscalars]).
  unfold assignVertex.
  destruct (store_total (pN f) globalIdx (pressure vv)) as (pN' & -> & ?); [lia|].
  destruct (store_total (delP f) globalIdx (pressure vv - 1e5)%float)
    as (delP' & -> & ?); [lia|].
  destruct (store_total (Xw f) globalIdx (massFraction vv phaseIdx lCompIdx))
    as (Xw' & -> & ?); [lia|].
  destruct (store_total (T f) globalIdx (temperature vv)) as (T' & -> & ?); [lia|].
  destruct (store_total (rho f) globalIdx (density vv)) as (rho' & -> & ?); [lia|].
  destruct (store_total (mu f) globalIdx (viscosity vv)) as (mu' & -> & ?); [lia|].
  destruct (store_total (h f) globalIdx (enthalpy vv)) as (h' & -> & ?); [lia|].
  destruct (store_total (velocity_field f) globalIdx (velocity vv))
    as (velocity' & -> & ?); [lia|].
  simpl. eexists. split; [reflexivity|]. unfold scalarFields. simpl.
  split; [|split; [lia|exact Hrank]].
  repeat (apply Forall_cons; split; [lia|]). apply Forall_nil. done.
Qed.

Lemma assignVertex_sized (globalIdx : Z) (vv : VolumeVariables) (f f' : Fields)
    (numVertices numElements : nat) :
  assignVertex globalIdx vv f = Ok f' ->
  sized numVertices numElements f -> sized numVertices numElements f'.
Proof.
  intros Hassign (Hscalars & Hvelocity & Hrank).
  unfold scalarFields in Hscalars.
  repeat (apply Forall_cons in Hscalars as [? Hscalars]).
  destruct (assignVertex_Ok _ _ _ _ Hassign)
    as (HpN & HdelP & HXw & HT & Hrho & Hmu & Hh & Hv & Hr).
  apply store_Ok in HpN as [_ HpN], HdelP as [_ HdelP], HXw as [_ HXw],
    HT as [_ HT], Hrho as [_ Hrho], Hmu as [_ Hmu], Hh as [_ Hh], Hv as [_ Hv].
  unfold scalarFields. rewrite HpN, HdelP, HXw, HT, Hrho, Hmu, Hh, Hv, Hr.
  split; [|split; [by rewrite length_insert|exact Hrank]].
  repeat (apply Forall_cons; split; [by rewrite length_insert|]).
  by apply Forall_nil.
Qed.

Lemma allocateFields_sized (memory : Memory) :
  sized (size_dim (gridView_ this)) (size_0 (gridView_ this))
    (allocateFields this memory).
Proof.
  unfold allocateFields, scalarFields, allocateManagedBuffer,
    allocateManagedVectorBuffer. simpl.
  split; [|split].
  - repeat (apply Forall_cons; split; [apply length_indeterminate_vector|]).
    by apply Forall_nil.
  - by rewrite length_fmap, length_seq.
  - apply length_indeterminate_vector.
Qed.

(** The bounds that the loops of [addOutputVtkFields] rely on. *)
Local Abbreviation indices_in_bounds :=
  ((forall element, element ∈ elements (gridView_ this) ->
      0 <= elementMapper_map this element < Z.of_nat (size_0 (gridView_ this))) /\
   (forall element vertexIdx, element ∈ elements (gridView_ this) ->
      0 <= vertexIdx < count_dim element ->
      0 <= vertexMapper_map this element vertexIdx
        < Z.of_nat (size_dim (gridView_ this))) /\
   (size_dim (gridView_ this) <= length sol)%nat).

Lemma computeFields_total (memory : Memory) :
  indices_in_bounds ->
  exists f, computeFields this sol memory = Ok f /\
            sized (size_dim (gridView_ this)) (size_0 (gridView_ this)) f.
Proof.
  intros (Helements & Hvertices & Hsol). unfold computeFields.
  set (numVertices := size_dim (gridView_ this)) in *.
  set (numElements := size_0 (gridView_ this)) in *.
  match goal with |- context [for_each ?es ?body ?s0] =>
    destruct (for_each_total
                (fun locals => sized numVertices numElements (fields locals))
                es body s0) as (l' & Hrun & Hsized)
  end.
  - apply allocateFields_sized.
  - intros element l Helement (Hscalars & Hvelocity & Hrank).
    unfold elementBody.
    destruct (store_total (rank (fields l)) (elementMapper_map this element)
                (comm_rank (gridView_ this))) as (rank' & -> & Hrank').
    { rewrite Hrank. by apply Helements. }
    simpl.
    match goal with |- context [for_each ?vs ?body ?s0] =>
      destruct (for_each_total (fun st => sized numVertices numElements (snd st))
                  vs body s0) as ([vv f] & -> & Hsized)
    end.
    + simpl. unfold scalarFields. simpl. split; [exact Hscalars|].
      split; [exact Hvelocity|]. by rewrite Hrank'.
    + intros vertexIdx [vv f] Hvertex Hsized. apply elem_of_seq in Hvertex.
      unfold vertexBody.
      specialize (Hvertices element (Z.of_nat vertexIdx) Helement ltac:(lia)).
      destruct (lookup_lt_is_Some_2 sol
                  (Z.to_nat (vertexMapper_map this element (Z.of_nat vertexIdx))))
        as [priVars HpriVars]; [lia|].
      unfold at_ at 1. rewrite decide_True by lia. rewrite HpriVars. simpl.
      match goal with |- context [assignVertex ?g ?v f] =>
        destruct (assignVertex_total g v f numVertices numElements)
          as (f' & -> & Hsized'); [lia|exact Hsized|]
      end.
      simpl. eexists. split; [reflexivity|exact Hsized'].
    + simpl. eexists. split; [reflexivity|exact Hsized].
  - rewrite Hrun. simpl. by exists (fields l').
Qed.

(** When the element mapper and the vertex mapper give indices below
    [size(0)] and [size(dim)], and the solution has an entry for every
    vertex, [addOutputVtkFields] returns normally; each of the seven scalar
    fields and the velocity field it attaches has [size(dim)] entries. *)
Theorem addOutputVtkFields_returns (memory : Memory) (writer : MultiWriter) :
  (forall element, element ∈ elements (gridView_ this) ->
     0 <= elementMapper_map this element < Z.of_nat (size_0 (gridView_ this))) ->
  (forall element vertexIdx, element ∈ elements (gridView_ this) ->
     0 <= vertexIdx < count_dim element ->
     0 <= vertexMapper_map this element vertexIdx
       < Z.of_nat (size_dim (gridView_ this))) ->
  (size_dim (gridView_ this) <= length sol)%nat ->
  exists writer' attachedData,
    addOutputVtkFields this sol memory writer = Ok writer' /\
    vertexData writer' = vertexData writer ++ attachedData /\
    Forall
      (fun data =>
         match snd data with
         | scalar_data field => length field = size_dim (gridView_ this)
         | vector_data field nComps =>
             length field = size_dim (gridView_ this) /\ nComps = dim
         end)
      attachedData.
Proof.
  intros Helements Hvertices Hsol.
  destruct (computeFields_total memory) as (f & Hf & Hscalars & Hvelocity & _).
  { split; [exact Helements|]. split; [exact Hvertices|exact Hsol]. }
  unfold scalarFields in Hscalars.
  repeat (apply Forall_cons in Hscalars as [? Hscalars]).
  unfold addOutputVtkFields. rewrite Hf. simpl.
  eexists. eexists. split; [reflexivity|]. unfold attachVertexData. simpl.
  split; [rewrite <- !app_assoc; reflexivity|].
  repeat (apply Forall_cons; split; [done|]). by apply Forall_nil.
Qed.

(** The assignments for a vertex set the eight fields at its index to the
    quantities of the volume variables and leave every other entry. *)
Lemma assignVertex_fields (globalIdx : Z) (vv : VolumeVariables) (f f' : Fields) :
  assignVertex globalIdx vv f = Ok f' ->
  (at_ (pN f') globalIdx = Ok (pressure vv) /\
   at_ (delP f') globalIdx = Ok (pressure vv - 1e5)%float /\
   at_ (Xw f') globalIdx = Ok (massFraction vv phaseIdx lCompIdx) /\
   at_ (T f') globalIdx = Ok (temperature vv) /\
   at_ (rho f') globalIdx = Ok (density vv) /\
   at_ (mu f') globalIdx = Ok (viscosity vv) /\
   at_ (h f') globalIdx = Ok (enthalpy vv) /\
   at_ (velocity_field f') globalIdx = Ok (velocity vv)) /\
  forall j, globalIdx <> j ->
    at_ (pN f') j = at_ (pN f) j /\
    at_ (delP f') j = at_ (delP f) j /\
    at_ (Xw f') j = at_ (Xw f) j /\
    at_ (T f') j = at_ (T f) j /\
    at_ (rho f') j = at_ (rho f) j /\
    at_ (mu f') j = at_ (mu f) j /\
    at_ (h f') j = at_ (h f) j /\
    at_ (velocity_field f') j = at_ (velocity_field f) j.
Proof.
  intros Hassign.
  destruct (assignVertex_Ok _ _ _ _ Hassign)
    as (HpN & HdelP & HXw & HT & Hrho & Hmu & Hh & Hv & _).
  split.
  - repeat split; eapply at_store; eassumption.
  - intros j Hj. repeat split; eapply at_store_other; eassumption.
Qed.

Lemma vertexBody_fields (element : Element) (fvGeom : FVElementGeometry)
    (vertexIdx : nat) (st st' : VolumeVariables * Fields) :
  element ∈ elements (gridView_ this) ->
  Z.of_nat vertexIdx < count_dim element ->
  vertexBody this sol element fvGeom vertexIdx st = Ok st' ->
  vertex_fields this sol (vertexMapper_map this element (Z.of_nat vertexIdx)) (snd st') /\
  forall j, vertex_fields this sol j (snd st) -> vertex_fields this sol j (snd st').
Proof.
  intros Helem Hvertex. unfold vertexBody. destruct st as [vv f].
  unfold mbind, outcome_bind.
  destruct (at_ sol _) as [priVars| |] eqn:Hsol; try discriminate.
  destruct (assignVertex _ _ f) as [f'| |] eqn:Hassign; try discriminate.
  intros [= <-]. simpl.
  destruct (assignVertex_fields _ _ _ _ Hassign) as (Hnew & Hother).
  assert (Hfields : vertex_fields this sol
            (vertexMapper_map this element (Z.of_nat vertexIdx)) f').
  { exists element, (Z.of_nat vertexIdx), vv, fvGeom, priVars.
    split; [exact Helem|]. split; [lia|]. split; [reflexivity|].
    split; [exact Hsol|]. exact Hnew. }
  split; [exact Hfields|].
  intros j Hj.
  destruct (decide (vertexMapper_map this element (Z.of_nat vertexIdx) = j)) as [<-|Hne];
    [exact Hfields|].
  destruct Hj as (e & v & vv0 & g & pv & He & Hv & Hmap & Hpv & Hat).
  exists e, v, vv0, g, pv.
  split; [exact He|]. split; [exact Hv|]. split; [exact Hmap|]. split; [exact Hpv|].
  cbv zeta in Hat |- *.
  destruct (Hother j Hne) as (-> & -> & -> & -> & -> & -> & -> & ->). exact Hat.
Qed.

Lemma elementBody_fields (element : Element) (l l' : Locals) :
  element ∈ elements (gridView_ this) ->
  elementBody this sol element l = Ok l' ->
  (forall vertexIdx, 0 <= vertexIdx < count_dim element ->
     vertex_fields this sol (vertexMapper_map this element vertexIdx) (fields l')) /\
  forall j, vertex_fields this sol j (fields l) -> vertex_fields this sol j (fields l').
Proof.
  intros Helem. unfold elementBody, mbind, outcome_bind.
  destruct (store (rank (fields l)) _ _) as [rank'| |]; try discriminate.
  destruct (for_each _ _ _) as [[vv f]| |] eqn:Hloop; try discriminate.
  intros [= <-]. simpl.
  assert (Hin : forall v, v ∈ seq 0 (Z.to_nat (count_dim element)) ->
                Z.of_nat v < count_dim element).
  { intros v Hv. apply elem_of_seq in Hv. lia. }
  split.
  - intros vertexIdx Hrange.
    replace vertexIdx with (Z.of_nat (Z.to_nat vertexIdx)) by lia.
    change f with (snd (vv, f)).
    eapply (for_each_established
              (fun v st => vertex_fields this sol
                             (vertexMapper_map this element (Z.of_nat v)) (snd st)));
      [| |exact Hloop|].
    + intros v s s' Hv Hb.
      exact (proj1 (vertexBody_fields _ _ _ _ _ Helem (Hin v Hv) Hb)).
    + intros v b s s' Hb Hbody Hq.
      exact (proj2 (vertexBody_fields _ _ _ _ _ Helem (Hin b Hb) Hbody) _ Hq).
    + apply elem_of_seq. lia.
  - intros j Hj. change f with (snd (vv, f)).
    eapply (for_each_preserved (fun st => vertex_fields this sol j (snd st)));
      [|exact Hloop|exact Hj].
    intros v s s' Hv Hb Hq.
    exact (proj2 (vertexBody_fields _ _ _ _ _ Helem (Hin v Hv) Hb) _ Hq).
Qed.

Lemma computeFields_fields (memory : Memory) (f : Fields) :
  computeFields this sol memory = Ok f ->
  forall element vertexIdx,
    element ∈ elements (gridView_ this) ->
    0 <= vertexIdx < count_dim element ->
    vertex_fields this sol (vertexMapper_map this element vertexIdx) f.
Proof.
  unfold computeFields, fmap, outcome_fmap.
  destruct (for_each _ _ _) as [l| |] eqn:Hloop; try discriminate.
  intros [= <-] element vertexIdx Helem Hrange.
  revert vertexIdx Hrange.
  eapply (for_each_established
            (fun element l => forall vertexIdx, 0 <= vertexIdx < count_dim element ->
               vertex_fields this sol (vertexMapper_map this element vertexIdx)
                 (fields l)));
    [| |exact Hloop|exact Helem].
  - intros e s s' He Hb. exact (proj1 (elementBody_fields e s s' He Hb)).
  - intros e b s s' Hb Hbody Hq v Hv.
    exact (proj2 (elementBody_fields b s s' Hb Hbody) _ (Hq v Hv)).
Qed.

(** When [addOutputVtkFields] ends normally, the entries of the eight
    attached fields at the global index of a vertex of the grid belong
    together: they are the pressure, the pressure minus 1e5, the mass
    fraction, the temperature, the density, the viscosity, the enthalpy
    and the velocity of one and the same volume variables, updated from
    the solution at this index. *)
Theorem attached_fields_of_one_update (memory : Memory) (writer writer' : MultiWriter) :
  addOutputVtkFields this sol memory writer = Ok writer' ->
  exists f : Fields,
    vertexData writer' =
      vertexData writer
      ++ [("pg", scalar_data (pN f)); ("delP", scalar_data (delP f));
          ("X_gH2O", scalar_data (Xw f)); ("temperature", scalar_data (T f));
          ("rhoG", scalar_data (rho f)); ("mu", scalar_data (mu f));
          ("h", scalar_data (h f)); ("v", vector_data (velocity_field f) dim)] /\
    forall element vertexIdx,
      element ∈ elements (gridView_ this) ->
      0 <= vertexIdx < count_dim element ->
      vertex_fields this sol (vertexMapper_map this element vertexIdx) f.
Proof.
  unfold addOutputVtkFields, mbind, outcome_bind.
  destruct (computeFields this sol memory) as [f| |] eqn:Hf; try discriminate.
  intros [= <-]. exists f. unfold attachVertexData. simpl.
  split; [rewrite <- !app_assoc; reflexivity|].
  apply (computeFields_fields memory f Hf).
Qed.

(** The scalar fields of [f'] agree at the index [k] with those of [f]. *)
Local Abbreviation same_at k f f' :=
  (Forall2 (fun field field' : list Scalar => field' !! k = field !! k)
     (scalarFields f) (scalarFields f')).

Lemma same_at_trans (k : nat) (f1 f2 f3 : Fields) :
  same_at k f1 f2 -> same_at k f2 f3 -> same_at k f1 f3.
Proof.
  assert (Hfield : Transitive
            (fun field field' : list Scalar => field' !! k = field !! k)).
  { intros b1 b2 b3 H12 H23. congruence. }
  intros H12 H23. by transitivity (scalarFields f2).
Qed.

Lemma assignVertex_same_at (k : nat) (globalIdx : Z) (vv : VolumeVariables)
    (f f' : Fields) :
  globalIdx <> Z.of_nat k ->
  assignVertex globalIdx vv f = Ok f' -> same_at k f f'.
Proof.
  intros Hk Hassign.
  destruct (assignVertex_Ok _ _ _ _ Hassign)
    as (HpN & HdelP & HXw & HT & Hrho & Hmu & Hh & _ & _).
  apply store_Ok in HpN as [? HpN], HdelP as [_ HdelP], HXw as [_ HXw],
    HT as [_ HT], Hrho as [_ Hrho], Hmu as [_ Hmu], Hh as [_ Hh].
  unfold scalarFields. rewrite HpN, HdelP, HXw, HT, Hrho, Hmu, Hh.
  repeat (constructor; [apply list_lookup_insert_ne; lia|]). constructor.
Qed.

(** [addOutputVtkFields] writes the scalar fields at the global indices of
    the vertices of the elements only: at any other index, each of the
    seven fields it attaches holds what [allocateManagedBuffer] handed
    out. *)
Theorem unvisited_entries_as_allocated (memory : Memory) (writer writer' : MultiWriter)
    (k : nat) :
  addOutputVtkFields this sol memory writer = Ok writer' ->
  (forall element vertexIdx,
     element ∈ elements (gridView_ this) ->
     0 <= vertexIdx < count_dim element ->
     vertexMapper_map this element vertexIdx <> Z.of_nat k) ->
  exists f : Fields,
    vertexData writer' =
      vertexData writer
      ++ [("pg", scalar_data (pN f)); ("delP", scalar_data (delP f));
          ("X_gH2O", scalar_data (Xw f)); ("temperature", scalar_data (T f));
          ("rhoG", scalar_data (rho f)); ("mu", scalar_data (mu f));
          ("h", scalar_data (h f)); ("v", vector_data (velocity_field f) dim)] /\
    Forall2 (fun allocated field : list Scalar => field !! k = allocated !! k)
      ((fun n => allocateManagedBuffer memory n (size_dim (gridView_ this)))
         <$> seq 0 7)
      (scalarFields f).
Proof.
  unfold addOutputVtkFields, mbind, outcome_bind.
  destruct (computeFields this sol memory) as [f| |] eqn:Hf; try discriminate.
  intros [= <-] Hunvisited. exists f. unfold attachVertexData. simpl.
  split; [rewrite <- !app_assoc; reflexivity|].
  change (same_at k (allocateFields this memory) f).
  unfold computeFields, fmap, outcome_fmap in Hf.
  destruct (for_each _ _ _) as [l| |] eqn:Hloop in Hf; try discriminate.
  injection Hf as <-.
  eapply (for_each_preserved
            (fun l => same_at k (allocateFields this memory) (fields l)));
    [|exact Hloop|].
  - intros element s s' Helement Hbody Hsame.
    apply (same_at_trans k _ (fields s)); [exact Hsame|]. clear Hsame.
    unfold elementBody, mbind, outcome_bind in Hbody.
    destruct (store (rank (fields s)) _ _) as [rank'| |]; try discriminate.
    destruct (for_each _ _ _) as [[vv f']| |] eqn:Hvertices in Hbody;
      try discriminate.
    injection Hbody as <-. simpl.
    change f' with (snd (vv, f')).
    eapply (for_each_preserved (fun st => same_at k (fields s) (snd st)));
      [|exact Hvertices|].
    + intros vertexIdx [vv1 f1] [vv2 f2] Hvertex Hround Hsame.
      apply elem_of_seq in Hvertex. simpl in *.
      apply (same_at_trans k _ f1); [exact Hsame|].
      unfold vertexBody, mbind, outcome_bind in Hround.
      destruct (at_ sol _) as [priVars| |]; try discriminate.
      destruct (assignVertex _ _ f1) as [f1'| |] eqn:Hassign; try discriminate.
      injection Hround as <- <-.
      apply (assignVertex_same_at k _ _ _ _) in Hassign; [exact Hassign|].
      apply Hunvisited; [exact Helement|lia].
    + simpl. unfold scalarFields. simpl. repeat constructor.
  - unfold scalarFields. simpl. repeat constructor.
Qed.

End Stokes2cniModelFields.

Lemma addOutputVtkFields_returns_witness :
  exists writer',
    Stokes2cniModel.addOutputVtkFields (H := Examples.stokes1d)
      Examples.stokesModel [1e5; 2e5; 3e5]%float Examples.stokesMemory
      Examples.emptyWriter = Ok writer'.
Proof.
  destruct (addOutputVtkFields_returns (H := Examples.stokes1d)
              Examples.stokesModel [1e5; 2e5; 3e5]%float Examples.stokesMemory
              Examples.emptyWriter)
    as (writer' & attachedData & Hrun & Hdata & _).
  - intros element Helement. simpl in Helement.
    apply elem_of_cons in Helement as [->|Helement]; [simpl; lia|].
    apply elem_of_cons in Helement as [->|Helement]; [simpl; lia|].
    by apply elem_of_nil in Helement.
  - intros element vertexIdx Helement Hvertex. simpl in Helement.
    apply elem_of_cons in Helement as [->|Helement].
    { simpl in Hvertex. assert (Hv : vertexIdx = 0 \/ vertexIdx = 1) by lia.
      destruct Hv as [-> | ->]; simpl; lia. }
    apply elem_of_cons in Helement as [->|Helement]; [|by apply elem_of_nil in Helement].
    simpl in Hvertex. assert (Hv : vertexIdx = 0 \/ vertexIdx = 1) by lia.
    destruct Hv as [-> | ->]; simpl; lia.
  - simpl. lia.
  - exists writer'. exact Hrun.
Defined.

Lemma attached_fields_of_one_update_witness :
  exists f,
    Stokes2cniModel.vertex_fields (H := Examples.stokes1d)
      Examples.stokesModel [1e5; 2e5; 3e5]%float 1 f /\
    Stokes2cniModel.vertexData
      (match Stokes2cniModel.addOutputVtkFields (H := Examples.stokes1d)
               Examples.stokesModel [1e5; 2e5; 3e5]%float Examples.stokesMemory
               Examples.emptyWriter with
       | Ok writer => writer
       | _ => Examples.emptyWriter
       end) !! 0%nat
    = Some ("pg", Stokes2cniModel.scalar_data (Stokes2cniModel.pN f)).
Proof.
  destruct (Stokes2cniModel.addOutputVtkFields (H := Examples.stokes1d)
              Examples.stokesModel [1e5; 2e5; 3e5]%float Examples.stokesMemory
              Examples.emptyWriter) as [writer'| |] eqn:Hrun;
    [|vm_compute in Hrun; discriminate Hrun..].
  destruct (attached_fields_of_one_update (H := Examples.stokes1d)
              Examples.stokesModel [1e5; 2e5; 3e5]%float Examples.stokesMemory
              Examples.emptyWriter writer' Hrun)
    as (f & Hdata & Hfields).
  exists f. split.
  - exact (Hfields [0; 1] 1 ltac:(by left) ltac:(simpl; lia)).
  - rewrite Hdata. reflexivity.
Defined.

Lemma unvisited_entries_as_allocated_witness :
  exists f,
    Stokes2cniModel.pN f !! 3%nat = Some 7%float /\
    Stokes2cniModel.vertexData
      (match Stokes2cniModel.addOutputVtkFields (H := Examples.stokes1d)
               Examples.stokesModelSpare [1e5; 2e5; 3e5]%float Examples.stokesMemory
               Examples.emptyWriter with
       | Ok writer => writer
       | _ => Examples.emptyWriter
       end) !! 0%nat
    = Some ("pg", Stokes2cniModel.scalar_data (Stokes2cniModel.pN f)).
Proof.
  destruct (Stokes2cniModel.addOutputVtkFields (H := Examples.stokes1d)
              Examples.stokesModelSpare [1e5; 2e5; 3e5]%float Examples.stokesMemory
              Examples.emptyWriter) as [writer'| |] eqn:Hrun;
    [|vm_compute in Hrun; discriminate Hrun..].
  destruct (unvisited_entries_as_allocated (H := Examples.stokes1d)
              Examples.stokesModelSpare [1e5; 2e5; 3e5]%float Examples.stokesMemory
              Examples.emptyWriter writer' 3 Hrun)
    as (f & Hdata & Hsame).
  - intros element vertexIdx Helement Hvertex. simpl in Helement.
    apply elem_of_cons in Helement as [->|Helement].
    { simpl in Hvertex. assert (Hv : vertexIdx = 0 \/ vertexIdx = 1) by lia.
      destruct Hv as [-> | ->]; simpl; lia. }
    apply elem_of_cons in Helement as [->|Helement]; [|by apply elem_of_nil in Helement].
    simpl in Hvertex. assert (Hv : vertexIdx = 0 \/ vertexIdx = 1) by lia.
    destruct Hv as [-> | ->]; simpl; lia.
  - exists f. split; [|rewrite Hdata; reflexivity].
    simpl in Hsame. apply Forall2_cons_1 in Hsame as [Hp _].
    etransitivity; [exact Hp|reflexivity].
Defined.

Lemma markForGridAdaptation_element_without_dof_witness :
  MultiPhaseBaseProblem.marks
    (snd (MultiPhaseBaseProblem.markForGridAdaptation Examples.noDofSimulator
            Examples.twoPhaseProblem Examples.twoElements)) !! 0%nat
  = Some (-1).
Proof.
  apply (markForGridAdaptation_element_without_dof (H := Examples.twoPhase2d)
           Examples.noDofSimulator Examples.twoPhaseProblem Examples.twoElements
           {| MultiPhaseBaseProblem.elementIndex := 0;
              MultiPhaseBaseProblem.level := 0 |}).
  - simpl. lia.
  - simpl. constructor.
  - by apply (bool_decide_unpack _).
  - reflexivity.
Defined.

Section Loops2.
Context {S : Type}.

(** A counted loop whose rounds succeed from every state with the
    invariant, and keep it, ends normally in a state with the invariant. *)
Lemma for_total (I : S -> Prop) (n : nat) (body : nat -> stateful S unit) (s0 : S) :
  I s0 ->
  (forall i s, (i < n)%nat -> I s -> exists s', body i s = (Ok tt, s') /\ I s') ->
  exists s, for_ n body s0 = (Ok tt, s) /\ I s.
Proof.
  intros HI Hstep. unfold for_.
  assert (Hgen : forall l s, (forall i, i ∈ l -> (i < n)%nat) -> I s ->
            exists s', foldr (fun i rest => body i;; rest) (mret tt) l s = (Ok tt, s')
                       /\ I s').
  { induction l as [|i l IH]; intros s Hl Hs; simpl.
    - by exists s.
    - destruct (Hstep i s (Hl i ltac:(by left)) Hs) as (s1 & Hround & Hs1).
      unfold mbind at 1, stateful_bind at 1. rewrite Hround.
      apply IH; [|exact Hs1]. intros j Hj. apply Hl. by right. }
  apply Hgen; [|exact HI]. intros i Hi. apply elem_of_seq in Hi. lia.
Qed.

End Loops2.

Section VtkBlackOilModuleTotal.
Import VtkBlackOilModule.
Context `{TypeTag}.

(** [processElement] returns normally when every buffer whose parameter is
    on has [numDof] entries and the global index of every primary degree
    of freedom of the element is below [numDof]. *)
Theorem processElement_returns (elemCtx : ElementContext) (o : t) (numDof : nat) :
  (VtkWriteGasDissolutionFactor = true -> length (gasDissolutionFactor_ o) = numDof) ->
  (VtkWriteSaturatedOilGasDissolutionFactor = true ->
   length (saturatedOilGasDissolutionFactor_ o) = numDof) ->
  (VtkWriteGasFormationVolumeFactor = true ->
   length (gasFormationVolumeFactor_ o) = numDof) ->
  (VtkWriteOilFormationVolumeFactor = true ->
   length (saturatedOilFormationVolumeFactor_ o) = numDof) ->
  (VtkWriteOilSaturationPressure = true ->
   length (oilSaturationPressure_ o) = numDof) ->
  (forall dofIdx, 0 <= dofIdx < numPrimaryDof elemCtx 0 ->
     0 <= globalSpaceIndex elemCtx dofIdx 0 < Z.of_nat numDof) ->
  exists o', processElement elemCtx o = (Ok tt, o').
Proof.
  intros H1 H2 H3 H4 H5 Hglobal. unfold processElement.
  destruct (for_total
              (fun o =>
                 (VtkWriteGasDissolutionFactor = true ->
                  length (gasDissolutionFactor_ o) = numDof) /\
                 (VtkWriteSaturatedOilGasDissolutionFactor = true ->
                  length (saturatedOilGasDissolutionFactor_ o) = numDof) /\
                 (VtkWriteGasFormationVolumeFactor = true ->
                  length (gasFormationVolumeFactor_ o) = numDof) /\
                 (VtkWriteOilFormationVolumeFactor = true ->
                  length (saturatedOilFormationVolumeFactor_ o) = numDof) /\
                 (VtkWriteOilSaturationPressure = true ->
                  length (oilSaturationPressure_ o) = numDof))
              (Z.to_nat (numPrimaryDof elemCtx 0))
              (fun dofIdx => processDof elemCtx (Z.of_nat dofIdx)) o)
    as (o' & Hrun & _); [done| |by exists o'].
  clear o H1 H2 H3 H4 H5.
  intros i o Hi (H1 & H2 & H3 & H4 & H5).
  specialize (Hglobal (Z.of_nat i) ltac:(lia)).
  unfold processDof, gasDissolutionFactorOutput_,
    saturatedOilGasDissolutionFactorOutput_, gasFormationVolumeFactorOutput_,
    saturatedOilFormationVolumeFactorOutput_, oilSaturationPressureOutput_.
  destruct VtkWriteGasDissolutionFactor, VtkWriteSaturatedOilGasDissolutionFactor,
    VtkWriteGasFormationVolumeFactor, VtkWriteOilFormationVolumeFactor,
    VtkWriteOilSaturationPressure.
  all: try specialize (H1 eq_refl); try specialize (H2 eq_refl);
    try specialize (H3 eq_refl); try specialize (H4 eq_refl);
    try specialize (H5 eq_refl).
  all: unfold when, mbind, stateful_bind, mret, stateful_ret, assign_at; simpl.
  all: repeat match goal with
       | |- context [store ?b ?g ?x] =>
           let b' := fresh "b" in
           let Hlen := fresh "Hlen" in
           destruct (store_total b g x) as (b' & -> & Hlen); [lia|]; simpl
       end.
  all: eexists; split; [reflexivity|]; simpl.
  all: repeat split; intros; first [lia | discriminate].
Qed.

End VtkBlackOilModuleTotal.

Lemma processElement_returns_witness :
  exists o',
    VtkBlackOilModule.processElement (H := Examples.blackOilAll)
      [(0.2%float, 2); (0.1%float, 0)]
      (snd (VtkBlackOilModule.allocBuffers (H := Examples.blackOilAll)
              Examples.emptyModule))
    = (Ok tt, o').
Proof.
  apply (processElement_returns (H := Examples.blackOilAll) _ _ 4);
    try (intros _; reflexivity).
  intros dofIdx Hdof. simpl in Hdof.
  assert (Hd : dofIdx = 0 \/ dofIdx = 1) by lia.
  destruct Hd as [-> | ->]; simpl; lia.
Defined.
